(** * TODO-BOT: the scheduling-and-delivery engine of [bot.py]

    A shallow embedding of the SQLite-backed reminder bot: the three tables
    ([users], [tasks], [sends]), the command handlers [/add], [/tomorrow],
    [/list], [/done], [/tz], and the scheduled jobs driven by [hourly_tick].

    Conventions of the embedding.
    - A calendar date is its proleptic ordinal ([date.toordinal()]), so
      [d - timedelta(days=1)] is [d - 1].  The code only ever compares the
      [day] column for equality, and [isoformat] is injective, so the text
      stored in the column is represented by the ordinal itself.
    - A Python [str] is a sequence of code points; a Rocq string holds its
      UTF-8 encoding, and [chars] cuts it into the code points again.
      [str.split()] and [str.strip()] use Python's set of whitespace code
      points; [str.isdigit()] and [int()] use the character database of the
      interpreter, which is part of the environment beyond ASCII.
    - Every [async def] is run to completion by a single-threaded event loop;
      a coroutine is a computation in the monad [M] below, which threads the
      database, the log of outside-visible events, and Python exceptions.
    - [with closing(db()) as conn: ...] is one unit that either raises
      [sqlite3.Error] on entry (decided by the environment) or runs its
      statements and commits them.
    - The column [created_at] is never read and is left out, and so are
      the handlers [/help], [/focus] and [/week] and the inline keyboards. *)

From stdpp Require Import gmap strings list sorting.
From Stdlib Require Import ZArith String Ascii DecimalString DecimalPos Lia.

Open Scope string_scope.
Open Scope Z_scope.

(** ** Rows *)

Record User := { user_id : Z; tz : string }.

Record Task := {
  t_id : Z;
  t_user_id : Z;
  t_title : string;
  t_day : Z;
  t_due_time : option string;
  t_priority : string;
  t_tags : string;
  t_status : string
}.

(** A row of [sends]: [(user_id, kind, day, hour)], the table's primary key. *)
Definition SendKey : Type := Z * string * Z * Z.

Record DB := {
  users : list User;          (* in rowid (= user_id) order *)
  tasks : list Task;          (* in rowid (= id) order *)
  tasks_seq : Z;              (* sqlite_sequence entry of AUTOINCREMENT *)
  sends : gset SendKey
}.

Record datetime := {
  dt_date : Z;
  dt_hour : Z;
  dt_minute : Z;
  dt_second : Z;
  dt_microsecond : Z
}.

(** [datetime.now(zone)] for each zone name, at the instant of one handler
    or tick invocation. *)
Definition Clock : Type := string -> datetime.

(** ** The outside world *)

Inductive Exn :=
| SqliteError
| ZoneInfoNotFoundError
| ValueError
| OverflowError
| TelegramError (msg : string).

(** [str(e)] for the handler of [send_message_job].  Inside its [try] only
    [bot.send_message] raises, and that exception brings its text; the
    other classes never get there and are shown by their names. *)
Definition exn_str (e : Exn) : string :=
  match e with
  | TelegramError msg => msg
  | SqliteError => "sqlite3.Error"
  | ZoneInfoNotFoundError => "ZoneInfoNotFoundError"
  | ValueError => "ValueError"
  | OverflowError => "OverflowError"
  end.

(** What the character database ([unicodedata]) of the interpreter says of
    a code point: no digit; a digit without a decimal value (superscripts,
    circled digits, ...); or a decimal digit with its value. *)
Inductive Numeric := NoDigit | OtherDigit | DecimalDigit (value : Z).

Inductive Event :=
| EvSend (chat_id : Z) (text : string) (delivered : bool) (* bot.send_message *)
| EvReply (chat_id : Z) (text : string)                   (* message.reply *)
| EvPrint (text : string)                                 (* print *)
| EvInsert (row : Task)                                   (* INSERT INTO tasks *)
| EvMark (key : SendKey) (inserted : bool).               (* INSERT OR IGNORE INTO sends *)

Record Env := {
  DEFAULT_TZ : string;
  ZoneInfo_ok : string -> bool;  (* does ZoneInfo(key) construct? *)
  db_fails : nat -> bool;        (* does the n-th database block raise? *)
  send_fails : nat -> bool;      (* does the n-th bot.send_message raise? *)
  send_error : nat -> string;    (* [str(e)] of the exception it raises *)
  numeric : N -> Numeric         (* the character database beyond ASCII *)
}.

Record World := {
  db : DB;
  db_calls : nat;
  send_calls : nat;
  trace : list Event             (* oldest first *)
}.

Definition set_db (f : DB -> DB) (w : World) : World :=
  {| db := f (db w); db_calls := db_calls w;
     send_calls := send_calls w; trace := trace w |}.

Definition tick_db (w : World) : World :=
  {| db := db w; db_calls := S (db_calls w);
     send_calls := send_calls w; trace := trace w |}.

Definition tick_send (w : World) : World :=
  {| db := db w; db_calls := db_calls w;
     send_calls := S (send_calls w); trace := trace w |}.

Definition emit_all (es : list Event) (w : World) : World :=
  {| db := db w; db_calls := db_calls w;
     send_calls := send_calls w; trace := trace w ++ es |}.

(** ** The monad of handlers and jobs *)

Inductive Res (A : Type) := Ok (a : A) | Raise (e : Exn).
Arguments Ok {A} a.
Arguments Raise {A} e.

Definition M (A : Type) : Type := World -> Res A * World.

Definition ret {A} (a : A) : M A := fun w => (Ok a, w).

Definition raise {A} (e : Exn) : M A := fun w => (Raise e, w).

Definition bind {A B} (m : M A) (k : A -> M B) : M B := fun w =>
  match m w with
  | (Ok a, w') => k a w'
  | (Raise e, w') => (Raise e, w')
  end.

Declare Scope m_scope.
Delimit Scope m_scope with M.
Notation "'let*' x ':=' m 'in' k" := (bind m (fun x => k))
  (at level 10, x pattern, m at level 100, k at level 200) : m_scope.
Notation "m '>>' k" := (bind m (fun _ => k))
  (at level 62, right associativity) : m_scope.
Open Scope m_scope.

(** [try: m  except Exception as e: h] *)
Definition try_except {A} (m : M A) (h : Exn -> M A) : M A := fun w =>
  match m w with
  | (Ok a, w') => (Ok a, w')
  | (Raise e, w') => h e w'
  end.

(** [for x in xs: body x] *)
Fixpoint for_each {A} (xs : list A) (body : A -> M unit) : M unit :=
  match xs with
  | [] => ret tt
  | x :: xs' => body x >> for_each xs' body
  end.

Definition emit (e : Event) : M unit := fun w => (Ok tt, emit_all [e] w).

Definition emits (es : list Event) : M unit := fun w => (Ok tt, emit_all es w).

(** One SQL statement, as a function on the database. *)
Definition sql {A} (f : DB -> A * DB) : M A := fun w =>
  let '(a, d) := f (db w) in (Ok a, set_db (fun _ => d) w).

Definition query {A} (f : DB -> A) : M A := fun w => (Ok (f (db w)), w).

(** ** Strings *)

Definition is_empty (s : string) : bool :=
  match s with EmptyString => true | _ => false end.

(** A continuation byte (10xxxxxx) of UTF-8. *)
Definition is_cont (c : ascii) : bool :=
  let n := N_of_ascii c in ((128 <=? n) && (n <? 192))%N.

Definition starts_cont (s : string) : bool :=
  match s with String c _ => is_cont c | EmptyString => false end.

(** The characters of a string: each byte that is not a continuation byte
    starts a character, the continuation bytes after it belong to it.  On
    the UTF-8 text of a Python [str] these are its code points. *)
Fixpoint chars (s : string) : list string :=
  match s with
  | EmptyString => []
  | String c s' =>
      match chars s' with
      | g :: gs => if starts_cont g then String c g :: gs
                   else String c "" :: g :: gs
      | [] => [String c ""]
      end
  end.

Fixpoint code_point_go (s : string) (acc : N) : N :=
  match s with
  | EmptyString => acc
  | String c s' => code_point_go s' (64 * acc + (N_of_ascii c - 128))
  end.

(** [ord(ch)]: the code point that the bytes of a character encode. *)
Definition code_point (ch : string) : N :=
  match ch with
  | EmptyString => 0
  | String c r =>
      let n := N_of_ascii c in
      code_point_go r (if n <? 128 then n else if n <? 224 then n - 192
                       else if n <? 240 then n - 224 else n - 240)
  end%N.

(** [ch.isspace()]: the whitespace of [str.split()] and [str.strip()]. *)
Definition is_space (ch : string) : bool :=
  let n := code_point ch in
  ((0x9 <=? n) && (n <=? 0xD) || (0x1C <=? n) && (n <=? 0x20)
   || (n =? 0x85) || (n =? 0xA0) || (n =? 0x1680)
   || (0x2000 <=? n) && (n <=? 0x200A) || (n =? 0x2028) || (n =? 0x2029)
   || (n =? 0x202F) || (n =? 0x205F) || (n =? 0x3000))%N.

(** [s.split()]: maximal runs of non-whitespace characters. *)
Fixpoint split_go (l : list string) (cur : string) : list string :=
  match l with
  | [] => if is_empty cur then [] else [cur]
  | ch :: l' =>
      if is_space ch
      then (if is_empty cur then split_go l' "" else cur :: split_go l' "")
      else split_go l' (cur ++ ch)
  end.

Definition split (s : string) : list string := split_go (chars s) "".

Fixpoint lstrip (l : list string) : list string :=
  match l with
  | ch :: l' => if is_space ch then lstrip l' else l
  | [] => []
  end.

Fixpoint rstrip (l : list string) : list string :=
  match l with
  | ch :: l' =>
      match rstrip l' with
      | [] => if is_space ch then [] else [ch]
      | r => ch :: r
      end
  | [] => []
  end.

(** [s.strip()] *)
Definition strip (s : string) : string :=
  String.concat "" (rstrip (lstrip (chars s))).

(** [s.startswith(p)] *)
Fixpoint startswith (p s : string) : bool :=
  match p with
  | EmptyString => true
  | String a p' =>
      match s with
      | String b s' => Ascii.eqb a b && startswith p' s'
      | EmptyString => false
      end
  end.

(** [s[1:]] for a string that starts with an ASCII character. *)
Definition from1 (s : string) : string :=
  match s with String _ r => r | EmptyString => EmptyString end.

(** The numeric class of a character: fixed on ASCII, read from the
    character database beyond it. *)
Definition numeric_of (env : Env) (ch : string) : Numeric :=
  let n := code_point ch in
  if (n <? 128)%N
  then (if ((48 <=? n) && (n <=? 57))%N
        then DecimalDigit (Z.of_N n - 48) else NoDigit)
  else numeric env n.

(** [ch.isdigit()] *)
Definition is_digit_char (env : Env) (ch : string) : bool :=
  match numeric_of env ch with NoDigit => false | _ => true end.

(** [s.isdigit()]: at least one character, and all of them digits. *)
Definition isdigit (env : Env) (s : string) : bool :=
  negb (is_empty s) && forallb (is_digit_char env) (chars s).

Fixpoint int_go (env : Env) (l : list string) (acc : Z) : option Z :=
  match l with
  | [] => Some acc
  | ch :: l' =>
      match numeric_of env ch with
      | DecimalDigit v => int_go env l' (10 * acc + v)
      | _ => None
      end
  end.

(** [int(s)] for a string that passed [isdigit]: the value in base 10 when
    every character is a decimal digit, [None] for [ValueError] otherwise.
    (The length limit of [int] on newer interpreters, 4300 digits, is above
    the length of a Telegram message.) *)
Definition int (env : Env) (s : string) : option Z := int_go env (chars s) 0.

(** [str(n)] *)
Definition str (n : Z) : string := NilZero.string_of_int (Z.to_int n).

Definition nl : string := String (ascii_of_nat 10) EmptyString.

(** Truthiness of an [Optional[str]]. *)
Definition truthy (o : option string) : bool :=
  match o with Some s => negb (is_empty s) | None => false end.

Definition or_empty (o : option string) : string :=
  match o with Some s => s | None => "" end.

(** ** SQL statements *)

(** [SELECT user_id, tz FROM users WHERE user_id=?] *)
Definition select_user (uid : Z) (d : DB) : option User :=
  List.find (fun u => bool_decide (user_id u = uid)) (users d).

Fixpoint insert_user_row (u : User) (l : list User) : list User :=
  match l with
  | [] => [u]
  | v :: l' =>
      if user_id u <? user_id v then u :: l else v :: insert_user_row u l'
  end.

Definition with_users (us : list User) (d : DB) : DB :=
  {| users := us; tasks := tasks d; tasks_seq := tasks_seq d; sends := sends d |}.

Definition with_tasks (ts : list Task) (d : DB) : DB :=
  {| users := users d; tasks := ts; tasks_seq := tasks_seq d; sends := sends d |}.

(** [INSERT INTO users(user_id, tz) VALUES (?, ?)] *)
Definition insert_user (uid : Z) (z : string) (d : DB) : DB :=
  with_users (insert_user_row {| user_id := uid; tz := z |} (users d)) d.

(** [INSERT INTO users ... ON CONFLICT(user_id) DO UPDATE SET tz=excluded.tz] *)
Definition upsert_tz (uid : Z) (z : string) (d : DB) : DB :=
  match select_user uid d with
  | Some _ =>
      with_users
        (List.map (fun u => if bool_decide (user_id u = uid)
                            then {| user_id := uid; tz := z |} else u)
                  (users d)) d
  | None => insert_user uid z d
  end.

Definition max_rowid (l : list Task) : Z :=
  foldr (fun t m => Z.max (t_id t) m) 0 l.

(** AUTOINCREMENT: one more than the largest rowid that ever existed. *)
Definition next_rowid (d : DB) : Z :=
  Z.max (tasks_seq d) (max_rowid (tasks d)) + 1.

(** [INSERT INTO tasks(user_id, title, day, due_time, priority, tags)
     VALUES (?,?,?,?,?,?)]; [status] takes its default ['open']. *)
Definition insert_task (uid : Z) (title : string) (day : Z)
    (due_time : option string) (priority tags : string) (d : DB) : Task * DB :=
  let t := {| t_id := next_rowid d; t_user_id := uid; t_title := title;
              t_day := day; t_due_time := due_time; t_priority := priority;
              t_tags := tags; t_status := "open" |} in
  (t, {| users := users d; tasks := tasks d ++ [t];
         tasks_seq := t_id t; sends := sends d |}).

(** [CASE priority WHEN 'high' THEN 0 WHEN 'med' THEN 1 ELSE 2 END] *)
Definition priority_rank (p : string) : Z :=
  if String.eqb p "high" then 0 else if String.eqb p "med" then 1 else 2.

(** [COALESCE(due_time,'99:99')] *)
Definition coalesce_due (o : option string) : string :=
  match o with Some s => s | None => "99:99" end.

(** The two-column sort key of [/list] and of the digest; TEXT values are
    compared byte-wise (BINARY collation). *)
Definition key_le (a b : Task) : bool :=
  let ra := priority_rank (t_priority a) in
  let rb := priority_rank (t_priority b) in
  (ra <? rb) ||
  ((ra =? rb) && String.leb (coalesce_due (t_due_time a)) (coalesce_due (t_due_time b))).

Definition id_le (a b : Task) : bool := t_id a <=? t_id b.

Fixpoint insert_sorted {A} (le : A -> A -> bool) (x : A) (l : list A) : list A :=
  match l with
  | [] => [x]
  | y :: l' => if le x y then x :: l else y :: insert_sorted le x l'
  end.

(** [ORDER BY]: rows come out of the table scan in rowid order and are
    sorted on the key.  SQL leaves the order of rows with equal keys open;
    here they keep their scan order (a stable sort). *)
Definition order_by {A} (le : A -> A -> bool) (l : list A) : list A :=
  foldr (insert_sorted le) [] l.

(** [SELECT * FROM tasks WHERE user_id=? AND day=?] *)
Definition tasks_on (uid day : Z) (d : DB) : list Task :=
  filter (fun t => t_user_id t = uid /\ t_day t = day) (tasks d).

(** [... WHERE user_id=? AND day=? AND status='open'] *)
Definition open_tasks_on (uid day : Z) (d : DB) : list Task :=
  filter (fun t => t_user_id t = uid /\ t_day t = day /\ t_status t = "open")
         (tasks d).

(** [... WHERE user_id=? AND day=? ORDER BY CASE priority ... END,
     COALESCE(due_time,'99:99')] *)
Definition tasks_ordered (uid day : Z) (d : DB) : list Task :=
  order_by key_le (tasks_on uid day d).

Definition set_done (task_id : Z) (t : Task) : Task :=
  if bool_decide (t_id t = task_id)
  then {| t_id := t_id t; t_user_id := t_user_id t; t_title := t_title t;
          t_day := t_day t; t_due_time := t_due_time t;
          t_priority := t_priority t; t_tags := t_tags t; t_status := "done" |}
  else t.

(** [UPDATE tasks SET status='done' WHERE id=?] *)
Definition update_done (task_id : Z) (d : DB) : DB :=
  with_tasks (List.map (set_done task_id) (tasks d)) d.

(** [INSERT OR IGNORE INTO sends(user_id, kind, day, hour) VALUES (?,?,?,?)] *)
Definition insert_send (k : SendKey) (d : DB) : DB :=
  {| users := users d; tasks := tasks d; tasks_seq := tasks_seq d;
     sends := {[ k ]} ∪ sends d |}.

(** The result is the statement's row count: was the row new? *)
Definition insert_or_ignore_send (k : SendKey) (d : DB) : bool * DB :=
  (negb (bool_decide (k ∈ sends d)), insert_send k d).

(** ** Message texts *)

(** [fmt_task] *)
Definition fmt_task (row : Task) : string :=
  let pr := if String.eqb (t_priority row) "low" then "⬇️"
            else if String.eqb (t_priority row) "med" then "⚪"
            else if String.eqb (t_priority row) "high" then "⬆️"
            else "⚪" in
  let due := if truthy (t_due_time row)
             then " @ " ++ or_empty (t_due_time row) else "" in
  let tags := if is_empty (t_tags row) then "" else " " ++ t_tags row in
  let status := if String.eqb (t_status row) "done" then "✅"
                else if String.eqb (t_status row) "snoozed" then "😴"
                else "⬜" in
  status ++ " " ++ pr ++ " " ++ t_title row ++ due ++ tags
         ++ " (#" ++ str (t_id row) ++ ")".

Definition carry_text (n : nat) : string :=
  "↪️ Carried over " ++ str (Z.of_nat n) ++ " unfinished task(s) from yesterday.".

Definition prompt_text : string :=
  "📝 What would you like to add for tomorrow? Use /tomorrow <task>.".

Definition digest_text (y_open rows : list Task) : string :=
  let s1 := match y_open with
            | [] => []
            | _ => ["⏮️ Yesterday (still open — copied to today):" ++ nl
                    ++ String.concat nl (List.map fmt_task y_open)]
            end in
  let s2 := match rows with
            | [] => ["☀️ Today:" ++ nl
                     ++ "(no tasks) — Use /add or /tomorrow to plan."]
            | _ => ["☀️ Today:" ++ nl
                    ++ String.concat nl (List.map fmt_task rows)]
            end in
  String.concat (nl ++ nl) (s1 ++ s2)%list.

Definition done_reply : string := "Nice! Marked ✅".
Definition done_usage : string := "Usage: /done <task_id>".
Definition tz_usage : string :=
  "Usage: /tz Continent/City  (e.g., /tz America/Los_Angeles)".
Definition tz_unrecognized : string :=
  "That timezone isn’t recognized. Try like America/New_York or Asia/Kathmandu".
Definition tz_set_reply (z : string) : string :=
  "Timezone set to " ++ z ++ ". I’ll schedule reminders accordingly.".

(** [parse_task_args]: the loop over the tokens, then the joins. *)
Definition parse_step (acc : list string * list string * string * option string)
    (tok : string) : list string * list string * string * option string :=
  let '(title, tags, priority, due_time) := acc in
  if startswith "#" tok then (title, (tags ++ [tok])%list, priority, due_time)
  else if startswith "!" tok then (title, tags, from1 tok, due_time)
  else if startswith "@" tok then (title, tags, priority, Some (from1 tok))
  else ((title ++ [tok])%list, tags, priority, due_time).

Definition parse_tokens (toks : list string)
    : string * string * string * option string :=
  let '(title, tags, priority, due_time) :=
    fold_left parse_step toks ([], [], "med", None) in
  (strip (String.concat " " title), String.concat " " tags, priority, due_time).

Definition parse_task_args (args : option string)
    : string * string * string * option string :=
  parse_tokens (split (or_empty args)).

(** ** Handlers and jobs *)

Section Bot.

Context (env : Env) (clock : Clock).

(** [with closing(db()) as conn: body; conn.commit()] *)
Definition closing_db {A} (body : M A) : M A := fun w =>
  if db_fails env (db_calls w)
  then (Raise SqliteError, tick_db w)
  else body (tick_db w).

Definition get_user (uid : Z) : M User :=
  closing_db (
    let* row := query (select_user uid) in
    match row with
    | Some u => ret u
    | None =>
        sql (fun d => (tt, insert_user uid (DEFAULT_TZ env) d)) >>
        ret {| user_id := uid; tz := DEFAULT_TZ env |}
    end).

Definition set_tz (uid : Z) (z : string) : M unit :=
  closing_db (sql (fun d => (tt, upsert_tz uid z d))).

Definition now_local (u : User) : M datetime :=
  if ZoneInfo_ok env (tz u) then ret (clock (tz u))
  else raise ZoneInfoNotFoundError.

Definition today_local (u : User) : M Z :=
  let* n := now_local u in ret (dt_date n).

Definition reply (chat : Z) (text : string) : M unit := emit (EvReply chat text).

(** [bot.send_message(chat_id=..., text=...)] *)
Definition bot_send_message (chat : Z) (text : string) : M unit := fun w =>
  if send_fails env (send_calls w)
  then (Raise (TelegramError (send_error env (send_calls w))),
        emit_all [EvSend chat text false] (tick_send w))
  else (Ok tt, emit_all [EvSend chat text true] (tick_send w)).

Definition send_message_job (uid : Z) (text : string) : M unit :=
  try_except (bot_send_message uid text)
             (fun e => emit (EvPrint ("send_message_job error: " ++ exn_str e))).

Definition cmd_add (uid : Z) (args : option string) : M unit :=
  let* u := get_user uid in
  if negb (truthy args)
  then reply uid "Usage: /add Finish module #study !high @18:00"
  else
    let '(title, tags, priority, due_time) := parse_task_args args in
    if is_empty title
    then reply uid "Please include a task title. Example: /add Finish module"
    else
      closing_db (
        let* today := today_local u in
        let* row := sql (insert_task (user_id u) title today
                                     due_time priority tags) in
        emit (EvInsert row)) >>
      reply uid ("Added for today: **" ++ title ++ "**").

Definition cmd_tomorrow (uid : Z) (args : option string) : M unit :=
  let* u := get_user uid in
  if negb (truthy args)
  then reply uid "Usage: /tomorrow Gym @07:00"
  else
    let '(title, tags, priority, due_time) := parse_task_args args in
    if is_empty title
    then reply uid "Please include a task title. Example: /tomorrow Gym"
    else
      closing_db (
        let* today := today_local u in
        let* row := sql (insert_task (user_id u) title (today + 1)
                                     due_time priority tags) in
        emit (EvInsert row)) >>
      reply uid ("Queued for tomorrow: **" ++ title ++ "**").

Definition cmd_list (uid : Z) : M unit :=
  let* u := get_user uid in
  let* rows := closing_db (
    let* today := today_local u in
    query (tasks_ordered (user_id u) today)) in
  match rows with
  | [] => reply uid "No tasks for today. Use /add or the buttons below."
  | _ => reply uid (String.concat nl (List.map fmt_task rows))
  end.

Definition cmd_done (uid : Z) (args : option string) : M unit :=
  if negb (truthy args) || negb (isdigit env (or_empty args))
  then reply uid done_usage
  else
    let* task_id := match int env (or_empty args) with
                    | Some n => ret n
                    | None => raise ValueError
                    end in
    closing_db (
      (* binding the parameter: SQLite integers are 64-bit *)
      if 2 ^ 63 <=? task_id then raise OverflowError
      else sql (fun d => (tt, update_done task_id d))) >>
    reply uid done_reply.

Definition cmd_tz (uid : Z) (args : option string) : M unit :=
  if negb (truthy args) then reply uid tz_usage
  else if ZoneInfo_ok env (or_empty args)
  then set_tz uid (or_empty args) >> reply uid (tz_set_reply (or_empty args))
  else reply uid tz_unrecognized.

Definition was_sent (uid : Z) (kind : string) (local_day local_hour : Z) : M bool :=
  closing_db (query (fun d => bool_decide ((uid, kind, local_day, local_hour) ∈ sends d))).

Definition mark_sent (uid : Z) (kind : string) (local_day local_hour : Z) : M unit :=
  closing_db (
    let k := (uid, kind, local_day, local_hour) in
    let* inserted := sql (insert_or_ignore_send k) in
    emit (EvMark k inserted)).

Definition do_carry_over (u : User) (local_now : datetime) : M unit :=
  let* sent := was_sent (user_id u) "carry" (dt_date local_now) 8 in
  if sent then ret tt
  else
    let yday := dt_date local_now - 1 in
    let* open_rows := closing_db (
      let* open_rows := query (open_tasks_on (user_id u) yday) in
      for_each open_rows (fun r =>
        let* row := sql (insert_task (user_id u) (t_title r) (dt_date local_now)
                                     (t_due_time r) (t_priority r) (t_tags r)) in
        emit (EvInsert row)) >>
      ret open_rows) in
    match open_rows with
    | [] => ret tt
    | _ => send_message_job (user_id u) (carry_text (List.length open_rows))
    end >>
    mark_sent (user_id u) "carry" (dt_date local_now) 8.

Definition do_daily_digest (u : User) (local_now : datetime) : M unit :=
  if negb (dt_hour local_now =? 8) then ret tt
  else
    let* sent := was_sent (user_id u) "digest" (dt_date local_now) 8 in
    if sent then ret tt
    else
      let yday := dt_date local_now - 1 in
      let* y_open := closing_db (
        query (fun d => order_by id_le (open_tasks_on (user_id u) yday d))) in
      do_carry_over u local_now >>
      let* rows := closing_db (
        query (tasks_ordered (user_id u) (dt_date local_now))) in
      send_message_job (user_id u) (digest_text y_open rows) >>
      mark_sent (user_id u) "digest" (dt_date local_now) 8.

Definition prompt_hours : list Z := [10; 13; 16; 19; 22].

Definition do_tomorrow_prompt (u : User) (local_now : datetime) : M unit :=
  let h := dt_hour local_now in
  if negb (bool_decide (h ∈ prompt_hours)) then ret tt
  else
    let* sent := was_sent (user_id u) "prompt" (dt_date local_now) h in
    if sent then ret tt
    else
      send_message_job (user_id u) prompt_text >>
      mark_sent (user_id u) "prompt" (dt_date local_now) h.

(** [dt.replace(minute=0, second=0, microsecond=0)] *)
Definition truncate_hour (n : datetime) : datetime :=
  {| dt_date := dt_date n; dt_hour := dt_hour n;
     dt_minute := 0; dt_second := 0; dt_microsecond := 0 |}.

(** The body of the [for u in users] loop of [hourly_tick]. *)
Definition tick_user (u : User) : M unit :=
  let* n := now_local u in
  let local_now := truncate_hour n in
  do_daily_digest u local_now >>
  do_tomorrow_prompt u local_now.

Definition hourly_tick : M unit :=
  let* us := closing_db (query users) in
  for_each us tick_user.

End Bot.

(** The scheduler fires [hourly_tick] once per cron trigger; an exception
    escaping a run is logged by the scheduler and does not stop later runs. *)
Fixpoint run_ticks (env : Env) (clocks : list Clock) (w : World) : World :=
  match clocks with
  | [] => w
  | c :: cs => run_ticks env cs (snd (hourly_tick env c w))
  end.

(** * Specification vocabulary *)

Definition mkWorld (d : DB) (n s : nat) (t : list Event) : World :=
  {| db := d; db_calls := n; send_calls := s; trace := t |}.

(** The rows created by the insertion loop of [do_carry_over], with the
    database after it. *)
Fixpoint copy_rows (uid day : Z) (rows : list Task) (d : DB) : list Task * DB :=
  match rows with
  | [] => ([], d)
  | r :: rs =>
      let '(t, d1) := insert_task uid (t_title r) day (t_due_time r)
                                  (t_priority r) (t_tags r) d in
      let '(ts, d2) := copy_rows uid day rs d1 in
      (t :: ts, d2)
  end.

(** The events of one [send_message_job] that is the [n]-th delivery attempt. *)
Definition send_events (env : Env) (n : nat) (chat : Z) (text : string) : list Event :=
  if send_fails env n
  then [EvSend chat text false;
        EvPrint ("send_message_job error: " ++ send_error env n)]
  else [EvSend chat text true].

Definition carry_key (u : User) (n : datetime) : SendKey :=
  (user_id u, "carry", dt_date n, 8).
Definition digest_key (u : User) (n : datetime) : SendKey :=
  (user_id u, "digest", dt_date n, 8).
Definition prompt_key (u : User) (n : datetime) : SendKey :=
  (user_id u, "prompt", dt_date n, dt_hour n).

Definition notice_events (env : Env) (n : nat) (chat : Z) (rows : list Task) : list Event :=
  match rows with
  | [] => []
  | _ => send_events env n chat (carry_text (List.length rows))
  end.

Definition notice_calls (rows : list Task) (n : nat) : nat :=
  match rows with [] => n | _ => S n end.

(** ** Counting ledger insertions and deliveries *)

(** Which scheduled send a delivered text belongs to. *)
Definition kind_of_text (text : string) : option string :=
  if startswith "↪️ Carried over " text then Some "carry"
  else if String.eqb text prompt_text then Some "prompt"
  else if startswith "⏮️ Yesterday" text || startswith "☀️ Today:" text
       then Some "digest"
  else None.

(** [mark_sent] put the row [k] into the ledger. *)
Definition is_mark (k : SendKey) (e : Event) : bool :=
  match e with
  | EvMark k' true => bool_decide (k' = k)
  | _ => false
  end.

(** A message of the given kind reached chat [uid]. *)
Definition is_delivery (uid : Z) (kind : string) (e : Event) : bool :=
  match e with
  | EvSend c text true => bool_decide (c = uid /\ kind_of_text text = Some kind)
  | _ => false
  end.

Definition occurrences (p : Event -> bool) (l : list Event) : nat :=
  List.length (List.filter p l).

(** From [w] to [w'] the slot [(uid, kind, day, hour)] was served at most
    once, and only if it had not been served before. *)
Definition slot_step (uid : Z) (kind : string) (day hour : Z) (w w' : World) : Prop :=
  users (db w') = users (db w) /\
  sends (db w) ⊆ sends (db w') /\
  exists ev, trace w' = (trace w ++ ev)%list /\
    (occurrences (is_mark (uid, kind, day, hour)) ev <= 1)%nat /\
    (occurrences (is_delivery uid kind) ev <= 1)%nat /\
    ((uid, kind, day, hour) ∈ sends (db w) ->
       occurrences (is_mark (uid, kind, day, hour)) ev = 0%nat /\
       occurrences (is_delivery uid kind) ev = 0%nat) /\
    (0 < occurrences (is_mark (uid, kind, day, hour)) ev
         + occurrences (is_delivery uid kind) ev ->
       (uid, kind, day, hour) ∈ sends (db w'))%nat.

(** The wall clock shows [day], [hour] in the zone of user [uid]. *)
Definition in_slot (uid day hour : Z) (clock : Clock) (u : User) : Prop :=
  user_id u = uid ->
  dt_date (clock (tz u)) = day /\ dt_hour (clock (tz u)) = hour.

(** ** Concrete environments and databases *)

(** The decimal digits beyond ASCII in Unicode 14, the character database
    of Python 3.11: the code points of the zeros, each followed by its
    digits one to nine. *)
Definition decimal_zeros : list N :=
  [0x660; 0x6F0; 0x7C0; 0x966; 0x9E6; 0xA66; 0xAE6; 0xB66; 0xBE6; 0xC66;
   0xCE6; 0xD66; 0xDE6; 0xE50; 0xED0; 0xF20; 0x1040; 0x1090; 0x17E0; 0x1810;
   0x1946; 0x19D0; 0x1A80; 0x1A90; 0x1B50; 0x1BB0; 0x1C40; 0x1C50; 0xA620;
   0xA8D0; 0xA900; 0xA9D0; 0xA9F0; 0xAA50; 0xABF0; 0xFF10; 0x104A0; 0x10D30;
   0x11066; 0x110F0; 0x11136; 0x111D0; 0x112F0; 0x11450; 0x114D0; 0x11650;
   0x116C0; 0x11730; 0x118E0; 0x11950; 0x11C50; 0x11D50; 0x11DA0; 0x16A60;
   0x16AC0; 0x16B50; 0x1D7CE; 0x1D7D8; 0x1D7E2; 0x1D7EC; 0x1D7F6; 0x1E140;
   0x1E2F0; 0x1E950; 0x1FBF0]%N.

(** Its digits without a decimal value (superscripts, subscripts, circled
    and dotted digits, ...), as ranges. *)
Definition other_digits : list (N * N) :=
  [(0xB2, 0xB3); (0xB9, 0xB9); (0x1369, 0x1371); (0x19DA, 0x19DA);
   (0x2070, 0x2070); (0x2074, 0x2079); (0x2080, 0x2089); (0x2460, 0x2468);
   (0x2474, 0x247C); (0x2488, 0x2490); (0x24EA, 0x24EA); (0x24F5, 0x24FD);
   (0x24FF, 0x24FF); (0x2776, 0x277E); (0x2780, 0x2788); (0x278A, 0x2792);
   (0x10A40, 0x10A43); (0x10E60, 0x10E68); (0x11052, 0x1105A);
   (0x1F100, 0x1F10A)]%N.

Definition unicode_14 (n : N) : Numeric :=
  match List.find (fun z => (z <=? n) && (n <=? z + 9))%N decimal_zeros with
  | Some z => DecimalDigit (Z.of_N (n - z))
  | None =>
      if existsb (fun r => (r.1 <=? n) && (n <=? r.2))%N other_digits
      then OtherDigit else NoDigit
  end.

(** What Telegram answers when the user has blocked the bot. *)
Definition blocked : string :=
  "Telegram server says - Forbidden: bot was blocked by the user".

(** U+00A0 NO-BREAK SPACE and U+3000 IDEOGRAPHIC SPACE. *)
Definition no_break_space : string :=
  String (ascii_of_N 0xC2) (String (ascii_of_N 0xA0) "").
Definition ideographic_space : string :=
  String (ascii_of_N 0xE3) (String (ascii_of_N 0x80) (String (ascii_of_N 0x80) "")).

Definition env_ok : Env :=
  {| DEFAULT_TZ := "America/Los_Angeles"; ZoneInfo_ok := fun _ => true;
     db_fails := fun _ => false; send_fails := fun _ => false;
     send_error := fun _ => blocked; numeric := unicode_14 |}.

(** The store fails in database block number [k] of the run (the first
    has number 0) and nowhere else; the notifier works. *)
Definition env_fault_at (k : nat) : Env :=
  {| DEFAULT_TZ := "America/Los_Angeles"; ZoneInfo_ok := fun _ => true;
     db_fails := fun n => Nat.eqb n k; send_fails := fun _ => false;
     send_error := fun _ => blocked; numeric := unicode_14 |}.

Definition at_hour (d h : Z) : Clock := fun _ =>
  {| dt_date := d; dt_hour := h; dt_minute := 0; dt_second := 2;
     dt_microsecond := 15 |}.

Definition db_one_user : DB :=
  {| users := [{| user_id := 7; tz := "Asia/Kathmandu" |}];
     tasks := []; tasks_seq := 0; sends := ∅ |}.

Definition world_one_user : World := mkWorld db_one_user 0 0 [].


(** ** Carry-over *)

(** The largest rowid [tasks] has ever held. *)
Definition rowid_bound (d : DB) : Z := Z.max (tasks_seq d) (max_rowid (tasks d)).

(** Row [n] is the carry-over copy of row [s] for user [uid] on [today]. *)
Definition copied_from (uid today : Z) (s n : Task) : Prop :=
  t_title n = t_title s /\ t_due_time n = t_due_time s /\
  t_priority n = t_priority s /\ t_tags n = t_tags s /\
  t_status n = "open" /\ t_day n = today /\ t_user_id n = uid.

(** "[mark_sent] for [k] runs before any notification is sent": every
    delivery attempt in [ev] is preceded by the ledger insertion. *)
Definition marked_before_notifying (k : SendKey) (ev : list Event) : Prop :=
  forall pre c text b post,
    ev = (pre ++ EvSend c text b :: post)%list ->
    exists b', EvMark k b' ∈ pre.

Definition user7 : User := {| user_id := 7; tz := "Asia/Kathmandu" |}.

Definition task_milk : Task :=
  {| t_id := 1; t_user_id := 7; t_title := "Buy milk"; t_day := 100;
     t_due_time := None; t_priority := "med"; t_tags := "#home";
     t_status := "open" |}.

Definition task_report : Task :=
  {| t_id := 2; t_user_id := 7; t_title := "Report"; t_day := 100;
     t_due_time := Some "17:30"; t_priority := "high"; t_tags := "";
     t_status := "done" |}.

Definition task_call : Task :=
  {| t_id := 3; t_user_id := 7; t_title := "Call Mom"; t_day := 101;
     t_due_time := Some "18:00"; t_priority := "high"; t_tags := "";
     t_status := "open" |}.

(** One user, one open and one finished task from day 100, one task for
    day 101, nothing sent yet. *)
Definition world_morning : World :=
  mkWorld {| users := [user7]; tasks := [task_milk; task_report; task_call];
             tasks_seq := 3; sends := ∅ |} 0 0 [].

Definition eight : datetime := truncate_hour (at_hour 101 8 "Asia/Kathmandu").

(** A notifier whose first delivery attempt fails and later ones succeed. *)
Definition env_flaky : Env :=
  {| DEFAULT_TZ := "America/Los_Angeles"; ZoneInfo_ok := fun _ => true;
     db_fails := fun _ => false; send_fails := fun n => Nat.eqb n 0;
     send_error := fun _ => blocked; numeric := unicode_14 |}.

(** ** Commands *)

(** An environment that knows two zones only. *)
Definition env_two_zones : Env :=
  {| DEFAULT_TZ := "America/Los_Angeles";
     ZoneInfo_ok := fun z => String.eqb z "America/Los_Angeles"
                             || String.eqb z "Asia/Kathmandu";
     db_fails := fun _ => false; send_fails := fun _ => false;
     send_error := fun _ => blocked; numeric := unicode_14 |}.

(** The row [get_user] returns: the stored one, or the default it creates. *)
Definition user_row (env : Env) (uid : Z) (d : DB) : User :=
  match select_user uid d with
  | Some u => u
  | None => {| user_id := uid; tz := DEFAULT_TZ env |}
  end.

(** The [users] table after [get_user]. *)
Definition db_with_user (env : Env) (uid : Z) (d : DB) : DB :=
  match select_user uid d with
  | Some _ => d
  | None => insert_user uid (DEFAULT_TZ env) d
  end.

(** The four components of the result of [parse_task_args] (and of the
    accumulator of its loop). *)
Definition parsed_title {A B C D} (p : A * B * C * D) : A := p.1.1.1.
Definition parsed_tags {A B C D} (p : A * B * C * D) : B := p.1.1.2.
Definition parsed_priority {A B C D} (p : A * B * C * D) : C := p.1.2.
Definition parsed_due_time {A B C D} (p : A * B * C * D) : D := p.2.

(** ** Storage faults *)

(** The second database block of the run raises. *)
Definition env_db_fault : Env :=
  {| DEFAULT_TZ := "America/Los_Angeles"; ZoneInfo_ok := fun _ => true;
     db_fails := fun n => Nat.eqb n 1; send_fails := fun _ => false;
     send_error := fun _ => blocked; numeric := unicode_14 |}.

Definition user9 : User := {| user_id := 9; tz := "America/New_York" |}.

Definition world_two_users : World :=
  mkWorld {| users := [user7; user9]; tasks := []; tasks_seq := 0; sends := ∅ |}
          0 0 [].

(** ** Listing order *)

(** The sort key as a relation: rank first, then the due text. *)
Definition key_before (a b : Task) : Prop :=
  priority_rank (t_priority a) < priority_rank (t_priority b) \/
  (priority_rank (t_priority a) = priority_rank (t_priority b) /\
   String.leb (coalesce_due (t_due_time a)) (coalesce_due (t_due_time b)) = true).

(** Two rows tie on the sort key. *)
Definition same_key (a b : Task) : Prop :=
  priority_rank (t_priority a) = priority_rank (t_priority b) /\
  coalesce_due (t_due_time a) = coalesce_due (t_due_time b).

(** An ASCII digit. *)
Definition is_digit (c : ascii) : bool :=
  let n := N_of_ascii c in ((48 <=? n) && (n <=? 57))%N.

Definition digit_of (c : ascii) : option Z :=
  if is_digit c then Some (Z.of_N (N_of_ascii c) - 48) else None.

(** Minutes since midnight of a zero-padded "HH:MM" between 00:00 and 23:59. *)
Definition hhmm (s : string) : option Z :=
  match s with
  | String a (String b (String c (String d (String e EmptyString)))) =>
      match digit_of a, digit_of b, digit_of d, digit_of e with
      | Some x, Some y, Some z, Some v =>
          if Ascii.eqb c ":" && (10 * x + y <=? 23) && (10 * z + v <=? 59)
          then Some (60 * (10 * x + y) + (10 * z + v))
          else None
      | _, _, _, _ => None
      end
  | _ => None
  end.

(** The due time of the row, if any, is a zero-padded "HH:MM". *)
Definition well_timed (t : Task) : Prop :=
  match t_due_time t with
  | Some s => hhmm s <> None
  | None => True
  end.

(** [x] is not later in the day than [y]. *)
Definition clock_le (x y : string) : Prop :=
  match hhmm x, hhmm y with
  | Some m, Some n => m <= n
  | _, _ => False
  end.

(** The ordering law within one priority: a due time before a later due
    time, and every due time before none. *)
Definition due_before (earlier : string -> string -> Prop)
    (a b : option string) : Prop :=
  match a, b with
  | Some x, Some y => earlier x y
  | Some _, None => True
  | None, Some _ => False
  | None, None => True
  end.

(** Row [a] may be listed before row [b]. *)
Definition listed_before (earlier : string -> string -> Prop) (a b : Task) : Prop :=
  priority_rank (t_priority a) < priority_rank (t_priority b) \/
  (priority_rank (t_priority a) = priority_rank (t_priority b) /\
   due_before earlier (t_due_time a) (t_due_time b)).

(** User 7 types [/add Gym @9:00] and then [/add Read]. *)
Definition world_gym : World :=
  (cmd_add env_ok (at_hour 100 7) 7 (Some "Read")
     (cmd_add env_ok (at_hour 100 7) 7 (Some "Gym @9:00") world_one_user).2).2.

#[global] Instance same_key_dec (a b : Task) : Decision (same_key a b).
Proof. unfold same_key. apply _. Defined.

Definition task_gym : Task :=
  {| t_id := 1; t_user_id := 7; t_title := "Gym"; t_day := 100;
     t_due_time := Some "9:00"; t_priority := "med"; t_tags := "";
     t_status := "open" |}.

Definition task_read : Task :=
  {| t_id := 2; t_user_id := 7; t_title := "Read"; t_day := 100;
     t_due_time := None; t_priority := "med"; t_tags := "";
     t_status := "open" |}.

(** * Further handlers and vocabulary *)

(** [cmd_start]: registers the sender and reports the stored zone. *)
Definition cmd_start (env : Env) (uid : Z) : M unit :=
  let* u := get_user env uid in
  reply uid
    ("👋 I’m your productive assistant!" ++ nl ++ nl
     ++ "• I’ll ping you at 10/13/16/19/22 to plan **tomorrow**." ++ nl
     ++ "• At 08:00 I’ll send your **Today** list and carry over unfinished items." ++ nl
     ++ "• Use /add, /list, /done, /tomorrow, /tz, /focus, /week, /help." ++ nl ++ nl
     ++ "Your timezone is **" ++ tz u ++ "** (change via /tz <Area/City>).").

(** The primary key of [users]: rows in strictly increasing [user_id]. *)
Definition users_sorted (d : DB) : Prop :=
  StronglySorted (fun a b => user_id a < user_id b) (users d).

(** Rowids of [tasks] strictly increase along the table. *)
Definition task_ids_increasing (d : DB) : Prop :=
  StronglySorted (fun a b => t_id a < t_id b) (tasks d).

(** The branch of the loop of [parse_task_args] that a token takes. *)
Definition is_tag (tok : string) : bool := startswith "#" tok.
Definition is_bang (tok : string) : bool :=
  negb (startswith "#" tok) && startswith "!" tok.
Definition is_at (tok : string) : bool :=
  negb (startswith "#" tok) && negb (startswith "!" tok) && startswith "@" tok.
Definition is_word (tok : string) : bool :=
  negb (startswith "#" tok) && negb (startswith "!" tok)
  && negb (startswith "@" tok).

Definition no_space (s : string) : bool :=
  forallb (fun ch => negb (is_space ch)) (chars s).

Fixpoint all_cont (s : string) : bool :=
  match s with
  | EmptyString => true
  | String c s' => is_cont c && all_cont s'
  end.

(** The shape of a character as [chars] cuts it: one byte, then
    continuation bytes only. *)
Definition is_char (g : string) : bool :=
  match g with String _ r => all_cont r | EmptyString => false end.

(** A token as [split] produces them: not empty, no whitespace inside. *)
Definition is_token (tok : string) : Prop :=
  is_empty tok = false /\ no_space tok = true.

(** ** Sequences of updates and ticks *)

(** One update routed by the dispatcher to its handler, or one firing of
    the cron job. *)
Inductive Op :=
| OpStart (uid : Z)
| OpAdd (uid : Z) (args : option string)
| OpTomorrow (uid : Z) (args : option string)
| OpList (uid : Z)
| OpDone (uid : Z) (args : option string)
| OpTz (uid : Z) (args : option string)
| OpTick.

Definition run_op (env : Env) (clock : Clock) (o : Op) : M unit :=
  match o with
  | OpStart uid => cmd_start env uid
  | OpAdd uid args => cmd_add env clock uid args
  | OpTomorrow uid args => cmd_tomorrow env clock uid args
  | OpList uid => cmd_list env clock uid
  | OpDone uid args => cmd_done env uid args
  | OpTz uid args => cmd_tz env uid args
  | OpTick => hourly_tick env clock
  end.

(** Handlers and ticks run one after another, each at its own instant; an
    exception is logged by the dispatcher or the scheduler and the next
    operation runs on the state left behind. *)
Fixpoint run_ops (env : Env) (ops : list (Clock * Op)) (w : World) : World :=
  match ops with
  | [] => w
  | (clock, o) :: ops' => run_ops env ops' (run_op env clock o w).2
  end.

(** The slots that the jobs write: the digest and the carry-over at 8, the
    prompt at its five hours. *)
Definition scheduled (kind : string) (hour : Z) : Prop :=
  (kind = "digest" /\ hour = 8) \/ (kind = "carry" /\ hour = 8) \/
  (kind = "prompt" /\ hour ∈ prompt_hours).

(** The world after the two steps of [mark_sent] for the row [k]. *)
Definition marked (k : SendKey) (w : World) : World :=
  emit_all [EvMark k (negb (bool_decide (k ∈ sends (db w))))]
           (set_db (insert_send k) w).

(** The world after one [INSERT INTO tasks] and its log entry. *)
Definition task_added (uid : Z) (title : string) (day : Z)
    (due_time : option string) (priority tags : string) (w : World) : World :=
  emit_all [EvInsert (insert_task uid title day due_time priority tags (db w)).1]
    (set_db (fun d => (insert_task uid title day due_time priority tags d).2) w).

(** The steps a tick takes for the users [us] of its snapshot, as
    conditions on a property [I] of the world that they are to keep. *)
Record tick_atoms (I : World -> Prop) (us : list User) : Prop := {
  ta_stable : forall w w', db w' = db w -> trace w' = trace w -> I w -> I w';
  ta_task : forall w u title day due priority tags,
    u ∈ us -> users (db w) = us -> I w ->
    I (task_added (user_id u) title day due priority tags w);
  ta_mark : forall w u kind day hour,
    u ∈ us -> scheduled kind hour -> users (db w) = us -> I w ->
    I (marked (user_id u, kind, day, hour) w);
  ta_send : forall w u text b,
    u ∈ us -> users (db w) = us -> I w -> I (emit_all [EvSend (user_id u) text b] w);
  ta_print : forall w text, users (db w) = us -> I w -> I (emit_all [EvPrint text] w)
}.

(** The steps of all handlers and jobs, as conditions on a property [I]. *)
Record op_atoms (env : Env) (I : World -> Prop) : Prop := {
  oa_stable : forall w w', db w' = db w -> trace w' = trace w -> I w -> I w';
  oa_insert_user : forall w uid,
    select_user uid (db w) = None -> I w ->
    I (set_db (insert_user uid (DEFAULT_TZ env)) w);
  oa_upsert_tz : forall w uid z,
    ZoneInfo_ok env z = true -> is_empty z = false -> I w ->
    I (set_db (upsert_tz uid z) w);
  oa_task : forall w uid title day due priority tags,
    select_user uid (db w) <> None -> I w ->
    I (task_added uid title day due priority tags w);
  oa_update_done : forall w k, I w -> I (set_db (update_done k) w);
  oa_mark : forall w uid kind day hour,
    select_user uid (db w) <> None -> scheduled kind hour -> I w ->
    I (marked (uid, kind, day, hour) w);
  oa_send : forall w uid text b,
    select_user uid (db w) <> None -> I w -> I (emit_all [EvSend uid text b] w);
  oa_print : forall w text, I w -> I (emit_all [EvPrint text] w);
  oa_reply : forall w uid text, I w -> I (emit_all [EvReply uid text] w)
}.

(** Started in a state of [P], [m] ends, normally or with an exception, in
    a result and a state of [Q]. *)
Definition spec {A} (P : World -> Prop) (m : M A)
    (Q : Res A -> World -> Prop) : Prop :=
  forall w, P w -> Q (m w).1 (m w).2.

(** [m] keeps [J] in every outcome, normal or exceptional. *)
Definition keeps {A} (J : World -> Prop) (m : M A) : Prop :=
  forall w, J w -> J (m w).2.

Definition key_user (k : SendKey) : Z := k.1.1.1.
Definition key_kind (k : SendKey) : string := k.1.1.2.
Definition key_hour (k : SendKey) : Z := k.2.

(** Both primary keys hold. *)
Definition keys_unique (w : World) : Prop :=
  users_sorted (db w) /\ task_ids_increasing (db w).

(** Row [t'] is row [t] later on: every column but [status] is the same,
    and [status] is the same or has become "done". *)
Definition evolves (t t' : Task) : Prop :=
  t_id t' = t_id t /\ t_user_id t' = t_user_id t /\ t_title t' = t_title t /\
  t_day t' = t_day t /\ t_due_time t' = t_due_time t /\
  t_priority t' = t_priority t /\ t_tags t' = t_tags t /\
  (t_status t' = t_status t \/ t_status t' = "done").

(** World [w] is a later state of [w0] in which nothing was deleted: users,
    task rows (in place, possibly done by now, followed by newer rows),
    ledger rows and log entries of [w0] are all still there. *)
Definition extends (w0 w : World) : Prop :=
  (forall uid, select_user uid (db w0) <> None -> select_user uid (db w) <> None) /\
  (exists old new, tasks (db w) = (old ++ new)%list /\
                   Forall2 evolves (tasks (db w0)) old) /\
  sends (db w0) ⊆ sends (db w) /\
  (exists ev, trace w = (trace w0 ++ ev)%list).

(** Only values the code writes are stored: statuses "open" and "done",
    ledger rows of scheduled slots, zones that are the default or valid. *)
Definition values_valid (env : Env) (w : World) : Prop :=
  Forall (fun t => t_status t = "open" \/ t_status t = "done") (tasks (db w)) /\
  (forall k, k ∈ sends (db w) -> scheduled (key_kind k) (key_hour k)) /\
  Forall (fun u => tz u = DEFAULT_TZ env \/ ZoneInfo_ok env (tz u) = true)
         (users (db w)).

(** Every task and every ledger row belongs to a user of the table. *)
Definition owners_registered (w : World) : Prop :=
  Forall (fun t => select_user (t_user_id t) (db w) <> None) (tasks (db w)) /\
  (forall k, k ∈ sends (db w) -> select_user (key_user k) (db w) <> None).

(** The id belongs to one of the users [us]. *)
Definition listed (us : list User) (uid : Z) : Prop :=
  exists u, u ∈ us /\ user_id u = uid.

(** An entry that a tick over the users [us] may add to the log. *)
Definition tick_event (us : list User) (e : Event) : Prop :=
  match e with
  | EvSend c _ _ => listed us c
  | EvReply _ _ => False
  | EvPrint _ => True
  | EvInsert r => listed us (t_user_id r) /\ t_status r = "open"
  | EvMark k _ => listed us (key_user k) /\ scheduled (key_kind k) (key_hour k)
  end.

(** What a tick over the users [us] may have made of the world [w0]. *)
Definition tick_frame (us : list User) (w0 w : World) : Prop :=
  (exists new, tasks (db w) = (tasks (db w0) ++ new)%list /\
     Forall (fun t => listed us (t_user_id t) /\ t_status t = "open") new) /\
  tasks_seq (db w0) <= tasks_seq (db w) /\
  sends (db w0) ⊆ sends (db w) /\
  (forall k, k ∈ sends (db w) ->
     k ∈ sends (db w0) \/
     (listed us (key_user k) /\ scheduled (key_kind k) (key_hour k))) /\
  (exists ev, trace w = (trace w0 ++ ev)%list /\ Forall (tick_event us) ev).

(** The empty database of a fresh installation. *)
Definition world_empty : World :=
  mkWorld {| users := []; tasks := []; tasks_seq := 0; sends := ∅ |} 0 0 [].

(** A day in the life of the bot: the digest tick, a newcomer's [/add],
    someone else's [/done], a zone change and the 13:00 tick. *)
Definition ops_day : list (Clock * Op) :=
  [(at_hour 101 8, OpTick);
   (at_hour 101 9, OpAdd 9 (Some "Gym !high @07:00"));
   (at_hour 101 9, OpDone 9 (Some "1"));
   (at_hour 101 9, OpTz 7 (Some "Europe/Paris"));
   (at_hour 101 13, OpTick)].

(** The sixth database block of the run raises. *)
Definition env_db_fault_late : Env :=
  {| DEFAULT_TZ := "America/Los_Angeles"; ZoneInfo_ok := fun _ => true;
     db_fails := fun n => Nat.eqb n 5; send_fails := fun _ => false;
     send_error := fun _ => blocked; numeric := unicode_14 |}.

(** The digest run of the morning breaks off after the carry-over. *)
Definition world_half_done : World :=
  (do_daily_digest env_db_fault_late user7 eight world_morning).2.
(** * Verification *)

(** ** What the jobs compute when the store answers *)

Lemma copy_rows_sends uid day rows d :
  sends (copy_rows uid day rows d).2 = sends d.
Proof.
  revert d; induction rows as [|r rs IH]; intros d; simpl; [done|].
  destruct (copy_rows uid day rs _) as [ts d2] eqn:E; simpl.
  specialize (IH (insert_task uid (t_title r) day (t_due_time r)
                              (t_priority r) (t_tags r) d).2).
  simpl in IH. rewrite E in IH. exact IH.
Qed.

Lemma copy_rows_users uid day rows d :
  users (copy_rows uid day rows d).2 = users d.
Proof.
  revert d; induction rows as [|r rs IH]; intros d; simpl; [done|].
  destruct (copy_rows uid day rs _) as [ts d2] eqn:E; simpl.
  specialize (IH (insert_task uid (t_title r) day (t_due_time r)
                              (t_priority r) (t_tags r) d).2).
  simpl in IH. rewrite E in IH. exact IH.
Qed.

Lemma copy_rows_tasks uid day rows d :
  tasks (copy_rows uid day rows d).2 = (tasks d ++ (copy_rows uid day rows d).1)%list.
Proof.
  revert d; induction rows as [|r rs IH]; intros d; simpl.
  - by rewrite app_nil_r.
  - destruct (copy_rows uid day rs _) as [ts d2] eqn:E; simpl.
    specialize (IH (insert_task uid (t_title r) day (t_due_time r)
                                (t_priority r) (t_tags r) d).2).
    simpl in IH. rewrite E in IH. simpl in IH. rewrite IH.
    by rewrite <- app_assoc.
Qed.

Lemma copy_rows_length uid day rows d :
  List.length (copy_rows uid day rows d).1 = List.length rows.
Proof.
  revert d; induction rows as [|r rs IH]; intros d; simpl; [done|].
  destruct (copy_rows uid day rs _) as [ts d2] eqn:E; simpl.
  specialize (IH (insert_task uid (t_title r) day (t_due_time r)
                              (t_priority r) (t_tags r) d).2).
  simpl in IH. rewrite E in IH. simpl in IH. by rewrite IH.
Qed.

Lemma bind_ok {A B} (m : M A) (k : A -> M B) w a w' :
  m w = (Ok a, w') -> bind m k w = k a w'.
Proof. intros H. unfold bind. by rewrite H. Qed.

Ltac mstep tac := etrans; [eapply bind_ok; tac|]; cbv beta.

Section Runs.

Context (env : Env) (clock : Clock).
Hypothesis Hdb : forall n, db_fails env n = false.

Lemma closing_db_run {A} (body : M A) w :
  closing_db env body w = body (tick_db w).
Proof. unfold closing_db. by rewrite Hdb. Qed.

Lemma was_sent_run uid kind d h w :
  was_sent env uid kind d h w
  = (Ok (bool_decide ((uid, kind, d, h) ∈ sends (db w))), tick_db w).
Proof. unfold was_sent. by rewrite closing_db_run. Qed.

Lemma mark_sent_run uid kind d h w :
  mark_sent env uid kind d h w
  = (Ok tt,
     mkWorld (insert_send (uid, kind, d, h) (db w)) (S (db_calls w)) (send_calls w)
             (trace w ++ [EvMark (uid, kind, d, h)
                            (negb (bool_decide ((uid, kind, d, h) ∈ sends (db w))))])).
Proof. unfold mark_sent. by rewrite closing_db_run. Qed.

Lemma send_message_job_run uid text w :
  send_message_job env uid text w
  = (Ok tt,
     mkWorld (db w) (db_calls w) (S (send_calls w))
             (trace w ++ send_events env (send_calls w) uid text)).
Proof.
  unfold send_message_job, try_except, bot_send_message, send_events.
  destruct (send_fails env (send_calls w)); simpl; [|done].
  unfold emit, emit_all, mkWorld; simpl. by rewrite <- app_assoc.
Qed.

Lemma copy_loop_run uid day rows w :
  for_each rows (fun r =>
    let* row := sql (insert_task uid (t_title r) day (t_due_time r)
                                 (t_priority r) (t_tags r)) in
    emit (EvInsert row)) w
  = (Ok tt,
     mkWorld (copy_rows uid day rows (db w)).2 (db_calls w) (send_calls w)
             (trace w ++ List.map EvInsert (copy_rows uid day rows (db w)).1)).
Proof.
  revert w; induction rows as [|r rs IH]; intros w.
  - simpl. unfold ret, mkWorld. rewrite app_nil_r. by destruct w.
  - cbn [for_each]. unfold bind at 1. unfold bind at 1. unfold sql at 1.
    cbn [insert_task]. unfold emit at 1. rewrite IH. cbn.
    destruct (copy_rows uid day rs _) as [ts d2]. cbn.
    unfold mkWorld. by rewrite <- app_assoc.
Qed.

Lemma do_carry_over_skip u ln w :
  carry_key u ln ∈ sends (db w) ->
  do_carry_over env u ln w = (Ok tt, tick_db w).
Proof.
  intros Hin. unfold do_carry_over, bind. rewrite was_sent_run by done.
  fold (carry_key u ln). by rewrite bool_decide_eq_true_2.
Qed.

Lemma do_carry_over_run u ln w :
  carry_key u ln ∉ sends (db w) ->
  let rows := open_tasks_on (user_id u) (dt_date ln - 1) (db w) in
  let cr := copy_rows (user_id u) (dt_date ln) rows (db w) in
  do_carry_over env u ln w
  = (Ok tt,
     mkWorld (insert_send (carry_key u ln) cr.2)
             (S (S (S (db_calls w)))) (notice_calls rows (send_calls w))
             (trace w ++ List.map EvInsert cr.1
                ++ notice_events env (send_calls w) (user_id u) rows
                ++ [EvMark (carry_key u ln) true])).
Proof.
  intros Hin rows cr. unfold do_carry_over.
  mstep ltac:(apply was_sent_run; done). fold (carry_key u ln).
  rewrite bool_decide_eq_false_2 by done.
  mstep ltac:(rewrite closing_db_run by done;
              mstep ltac:(reflexivity); mstep ltac:(apply copy_loop_run);
              reflexivity).
  cbn [db tick_db]. fold rows. fold cr.
  assert (Hk : carry_key u ln ∉ sends cr.2)
    by (unfold cr; by rewrite copy_rows_sends).
  unfold notice_calls, notice_events.
  destruct rows as [|r rs] eqn:E.
  - mstep ltac:(reflexivity). rewrite mark_sent_run by done.
    fold (carry_key u ln). cbn [db mkWorld db_calls send_calls trace].
    rewrite bool_decide_eq_false_2 by done. simpl. unfold mkWorld.
    by rewrite app_nil_r.
  - mstep ltac:(apply send_message_job_run; done).
    rewrite mark_sent_run by done.
    fold (carry_key u ln). cbn [db mkWorld db_calls send_calls trace].
    rewrite bool_decide_eq_false_2 by done. simpl negb.
    unfold mkWorld. f_equal. f_equal. by rewrite <- !app_assoc.
Qed.

Lemma do_carry_over_ok u ln w :
  (do_carry_over env u ln w).1 = Ok tt.
Proof.
  destruct (decide (carry_key u ln ∈ sends (db w))) as [H|H].
  - by rewrite do_carry_over_skip.
  - by rewrite do_carry_over_run.
Qed.

Lemma do_carry_over_eq u ln w :
  do_carry_over env u ln w = (Ok tt, (do_carry_over env u ln w).2).
Proof.
  pose proof (do_carry_over_ok u ln w) as H.
  destruct (do_carry_over env u ln w) as [r w']. simpl in *. by subst.
Qed.

Lemma do_daily_digest_off u ln w :
  dt_hour ln <> 8 -> do_daily_digest env u ln w = (Ok tt, w).
Proof.
  intros H. unfold do_daily_digest.
  destruct (Z.eqb_spec (dt_hour ln) 8); [done|]. done.
Qed.

Lemma do_daily_digest_skip u ln w :
  dt_hour ln = 8 -> digest_key u ln ∈ sends (db w) ->
  do_daily_digest env u ln w = (Ok tt, tick_db w).
Proof.
  intros H Hin. unfold do_daily_digest. rewrite H. cbn [Z.eqb Pos.eqb negb].
  mstep ltac:(apply was_sent_run; done). fold (digest_key u ln).
  by rewrite bool_decide_eq_true_2.
Qed.

Lemma do_daily_digest_run u ln w :
  dt_hour ln = 8 -> digest_key u ln ∉ sends (db w) ->
  let y_open := order_by id_le (open_tasks_on (user_id u) (dt_date ln - 1) (db w)) in
  let w1 := (do_carry_over env u ln (tick_db (tick_db w))).2 in
  let rows := tasks_ordered (user_id u) (dt_date ln) (db w1) in
  do_daily_digest env u ln w
  = (Ok tt,
     mkWorld (insert_send (digest_key u ln) (db w1))
             (S (S (db_calls w1))) (S (send_calls w1))
             (trace w1
                ++ send_events env (send_calls w1) (user_id u) (digest_text y_open rows)
                ++ [EvMark (digest_key u ln)
                      (negb (bool_decide (digest_key u ln ∈ sends (db w1))))])).
Proof.
  intros H Hin y_open w1 rows. unfold do_daily_digest.
  rewrite H. cbn [Z.eqb Pos.eqb negb].
  mstep ltac:(apply was_sent_run; done). fold (digest_key u ln).
  rewrite bool_decide_eq_false_2 by done.
  mstep ltac:(rewrite closing_db_run by done; reflexivity).
  cbn [db tick_db]. fold y_open.
  mstep ltac:(apply do_carry_over_eq). fold w1.
  mstep ltac:(rewrite closing_db_run by done; reflexivity).
  cbn [db tick_db]. fold rows.
  mstep ltac:(apply send_message_job_run; done).
  rewrite mark_sent_run by done. fold (digest_key u ln).
  cbn [db mkWorld db_calls send_calls trace tick_db].
  unfold mkWorld. f_equal. f_equal. by rewrite <- app_assoc.
Qed.

Lemma do_tomorrow_prompt_off u ln w :
  dt_hour ln ∉ prompt_hours -> do_tomorrow_prompt env u ln w = (Ok tt, w).
Proof.
  intros H. unfold do_tomorrow_prompt. by rewrite bool_decide_eq_false_2.
Qed.

Lemma do_tomorrow_prompt_skip u ln w :
  dt_hour ln ∈ prompt_hours -> prompt_key u ln ∈ sends (db w) ->
  do_tomorrow_prompt env u ln w = (Ok tt, tick_db w).
Proof.
  intros H Hin. unfold do_tomorrow_prompt.
  rewrite bool_decide_eq_true_2 by done. cbn [negb].
  mstep ltac:(apply was_sent_run; done). fold (prompt_key u ln).
  by rewrite bool_decide_eq_true_2.
Qed.

Lemma do_tomorrow_prompt_run u ln w :
  dt_hour ln ∈ prompt_hours -> prompt_key u ln ∉ sends (db w) ->
  do_tomorrow_prompt env u ln w
  = (Ok tt,
     mkWorld (insert_send (prompt_key u ln) (db w))
             (S (S (db_calls w))) (S (send_calls w))
             (trace w
                ++ send_events env (send_calls w) (user_id u) prompt_text
                ++ [EvMark (prompt_key u ln) true])).
Proof.
  intros H Hin. unfold do_tomorrow_prompt.
  rewrite bool_decide_eq_true_2 by done. cbn [negb].
  mstep ltac:(apply was_sent_run; done). fold (prompt_key u ln).
  rewrite bool_decide_eq_false_2 by done.
  mstep ltac:(apply send_message_job_run; done).
  rewrite mark_sent_run by done. fold (prompt_key u ln).
  cbn [db mkWorld db_calls send_calls trace tick_db].
  rewrite bool_decide_eq_false_2 by done.
  unfold mkWorld. cbn [negb]. f_equal. f_equal. by rewrite <- app_assoc.
Qed.

Lemma do_daily_digest_eq u ln w :
  do_daily_digest env u ln w = (Ok tt, (do_daily_digest env u ln w).2).
Proof.
  destruct (decide (dt_hour ln = 8)) as [E|N].
  - destruct (decide (digest_key u ln ∈ sends (db w))).
    + by rewrite do_daily_digest_skip.
    + by rewrite do_daily_digest_run.
  - by rewrite do_daily_digest_off.
Qed.

Lemma do_tomorrow_prompt_eq u ln w :
  do_tomorrow_prompt env u ln w = (Ok tt, (do_tomorrow_prompt env u ln w).2).
Proof.
  destruct (decide (dt_hour ln ∈ prompt_hours)) as [E|N].
  - destruct (decide (prompt_key u ln ∈ sends (db w))).
    + by rewrite do_tomorrow_prompt_skip.
    + by rewrite do_tomorrow_prompt_run.
  - by rewrite do_tomorrow_prompt_off.
Qed.

End Runs.

(** ** At most one send per slot *)

Lemma occurrences_app p l1 l2 :
  occurrences p (l1 ++ l2)%list = (occurrences p l1 + occurrences p l2)%nat.
Proof. unfold occurrences. by rewrite List.filter_app, length_app. Qed.

Lemma kind_of_carry_text n : kind_of_text (carry_text n) = Some "carry".
Proof. reflexivity. Qed.

Lemma kind_of_prompt_text : kind_of_text prompt_text = Some "prompt".
Proof. reflexivity. Qed.

Lemma kind_of_digest_text y rows : kind_of_text (digest_text y rows) = Some "digest".
Proof. destruct y, rows; reflexivity. Qed.

Section Slot.

Context (uid : Z) (kind : string) (day hour : Z).
Context (env : Env) (clock : Clock).

Local Notation slot := (uid, kind, day, hour).
Local Notation marks := (occurrences (is_mark slot)).
Local Notation deliveries := (occurrences (is_delivery uid kind)).
Local Notation step := (slot_step uid kind day hour).
Local Notation due := (in_slot uid day hour clock).

Lemma slot_step_quiet w w' ev :
  users (db w') = users (db w) -> sends (db w) ⊆ sends (db w') ->
  trace w' = (trace w ++ ev)%list ->
  marks ev = 0%nat -> deliveries ev = 0%nat ->
  step w w'.
Proof.
  intros Hu Hs Ht Hm Hd. split; [done|]. split; [done|].
  exists ev. rewrite Hm, Hd. repeat split; try done; lia.
Qed.

Lemma slot_step_same w w' :
  db w' = db w -> trace w' = trace w -> step w w'.
Proof.
  intros Hd Ht. apply (slot_step_quiet w w' []); rewrite ?Hd; try done.
  by rewrite app_nil_r.
Qed.

Lemma slot_step_trans w1 w2 w3 :
  step w1 w2 -> step w2 w3 -> step w1 w3.
Proof.
  intros (Hu1 & Hs1 & ev1 & Ht1 & Hm1 & Hd1 & Hz1 & Hi1)
         (Hu2 & Hs2 & ev2 & Ht2 & Hm2 & Hd2 & Hz2 & Hi2).
  split; [congruence|]. split; [set_solver|].
  exists (ev1 ++ ev2)%list. split; [by rewrite Ht2, Ht1, <- app_assoc|].
  rewrite !occurrences_app.
  destruct (decide (slot ∈ sends (db w2))) as [Hin|Hout].
  - destruct (Hz2 Hin) as [E1 E2]. rewrite E1, E2.
    split_and!; [lia|lia| |].
    + intros H. destruct (Hz1 H); lia.
    + intros _. set_solver.
  - assert (occurrences (is_mark slot) ev1 = 0%nat /\
            occurrences (is_delivery uid kind) ev1 = 0%nat) as [E1 E2].
    { destruct (occurrences (is_mark slot) ev1),
               (occurrences (is_delivery uid kind) ev1);
        try done; exfalso; apply Hout, Hi1; lia. }
    rewrite E1, E2. simpl. split_and!; [done|done| |done].
    intros H. apply Hz2. set_solver.
Qed.

Lemma marks_send_events n c text : marks (send_events env n c text) = 0%nat.
Proof. unfold send_events. by destruct (send_fails env n). Qed.

Lemma deliveries_send_events_le n c text :
  (deliveries (send_events env n c text) <= 1)%nat.
Proof.
  unfold send_events, occurrences.
  destruct (send_fails env n); simpl; [lia|]. case_bool_decide; simpl; lia.
Qed.

Lemma deliveries_send_events_other n c text :
  ~ (c = uid /\ kind_of_text text = Some kind) ->
  deliveries (send_events env n c text) = 0%nat.
Proof.
  intros H. unfold send_events, occurrences.
  destruct (send_fails env n); simpl; [done|].
  by rewrite bool_decide_eq_false_2.
Qed.

Lemma marks_inserts rows : marks (List.map EvInsert rows) = 0%nat.
Proof. induction rows; [done|]. unfold occurrences in *. simpl. done. Qed.

Lemma deliveries_inserts rows : deliveries (List.map EvInsert rows) = 0%nat.
Proof. induction rows; [done|]. unfold occurrences in *. simpl. done. Qed.

Lemma marks_app l1 l2 : marks (l1 ++ l2)%list = (marks l1 + marks l2)%nat.
Proof. apply occurrences_app. Qed.

Lemma deliveries_app l1 l2 :
  deliveries (l1 ++ l2)%list = (deliveries l1 + deliveries l2)%nat.
Proof. apply occurrences_app. Qed.

Lemma marks_mark k' :
  marks [EvMark k' true] = if bool_decide (k' = slot) then 1%nat else 0%nat.
Proof. unfold occurrences. simpl. by case_bool_decide. Qed.

Lemma deliveries_mark k' b : deliveries [EvMark k' b] = 0%nat.
Proof. done. Qed.

(** One guarded send: the events [sev] of the job, then the ledger row. *)
Lemma slot_step_fire w w' c kd d h sev :
  users (db w') = users (db w) ->
  sends (db w') = {[ (c, kd, d, h) ]} ∪ sends (db w) ->
  trace w' = (trace w ++ sev ++ [EvMark (c, kd, d, h) true])%list ->
  marks sev = 0%nat -> (deliveries sev <= 1)%nat ->
  (~ (c = uid /\ kd = kind) -> deliveries sev = 0%nat) ->
  (c = uid -> kd = kind -> d = day /\ h = hour) ->
  (c, kd, d, h) ∉ sends (db w) ->
  step w w'.
Proof.
  intros Hu Hs Ht Hm Hle Hother Hslot Hout.
  split; [done|]. split; [set_solver|].
  eexists. split; [exact Ht|].
  rewrite marks_app, deliveries_app, Hm, marks_mark, deliveries_mark.
  case_bool_decide as E.
  - split_and!; [lia|lia| |].
    + intros Hin. rewrite <- E in Hin. done.
    + intros _. rewrite Hs, <- E. set_solver.
  - rewrite Hother.
    + split_and!; [lia|lia|by intros; split; lia|lia].
    + intros [-> ->]. destruct Hslot as [-> ->]; [done|done|]. by apply E.
Qed.

Hypothesis Hdb : forall n, db_fails env n = false.

Lemma send_events_other c kd n text :
  kind_of_text text = Some kd -> ~ (c = uid /\ kd = kind) ->
  deliveries (send_events env n c text) = 0%nat.
Proof.
  intros Hk H. apply deliveries_send_events_other.
  intros [-> Hk']. rewrite Hk in Hk'. injection Hk' as ->. by apply H.
Qed.

Lemma carry_slot u ln w :
  (user_id u = uid -> dt_date ln = day /\ 8 = hour) ->
  step w (do_carry_over env u ln w).2.
Proof.
  intros Hslot. destruct (decide (carry_key u ln ∈ sends (db w))) as [Hin|Hout].
  - rewrite do_carry_over_skip by done. by apply slot_step_same.
  - rewrite do_carry_over_run by done. cbn [snd].
    set (rows := open_tasks_on _ _ _). set (cr := copy_rows _ _ _ _).
    eapply (slot_step_fire _ _ (user_id u) "carry" (dt_date ln) 8
              (List.map EvInsert cr.1
               ++ notice_events env (send_calls w) (user_id u) rows)%list).
    + cbn. apply copy_rows_users.
    + cbn. unfold cr. by rewrite copy_rows_sends.
    + cbn. by rewrite <- app_assoc.
    + rewrite marks_app, marks_inserts. unfold notice_events.
      destruct rows; [done|]. by rewrite marks_send_events.
    + rewrite deliveries_app, deliveries_inserts. unfold notice_events.
      destruct rows; [cbn; lia|]. apply deliveries_send_events_le.
    + intros H. rewrite deliveries_app, deliveries_inserts. unfold notice_events.
      destruct rows; [done|]. by apply (send_events_other _ "carry").
    + intros E _. by apply Hslot.
    + done.
Qed.

Lemma do_carry_over_sends u ln w :
  sends (db (do_carry_over env u ln w).2) ⊆ {[ carry_key u ln ]} ∪ sends (db w).
Proof.
  destruct (decide (carry_key u ln ∈ sends (db w))) as [Hin|Hout].
  - rewrite do_carry_over_skip by done. cbn. set_solver.
  - rewrite do_carry_over_run by done. cbn. rewrite copy_rows_sends. set_solver.
Qed.

Lemma do_carry_over_users u ln w :
  users (db (do_carry_over env u ln w).2) = users (db w).
Proof.
  destruct (decide (carry_key u ln ∈ sends (db w))) as [Hin|Hout].
  - by rewrite do_carry_over_skip.
  - rewrite do_carry_over_run by done. cbn. by rewrite copy_rows_users.
Qed.

Lemma digest_not_marked_by_carry u ln w :
  digest_key u ln ∉ sends (db w) ->
  digest_key u ln ∉ sends (db (do_carry_over env u ln w).2).
Proof.
  intros H Hin. apply do_carry_over_sends in Hin.
  apply elem_of_union in Hin as [Hin|Hin]; [|done].
  apply elem_of_singleton in Hin. discriminate Hin.
Qed.

Lemma digest_slot u ln w :
  (user_id u = uid -> dt_date ln = day /\ dt_hour ln = hour) ->
  step w (do_daily_digest env u ln w).2.
Proof.
  intros Hslot. destruct (decide (dt_hour ln = 8)) as [E|N].
  2: { rewrite do_daily_digest_off by done. by apply slot_step_same. }
  destruct (decide (digest_key u ln ∈ sends (db w))) as [Hin|Hout].
  { rewrite do_daily_digest_skip by done. by apply slot_step_same. }
  rewrite do_daily_digest_run by done. cbn [snd].
  set (w1 := (do_carry_over env u ln (tick_db (tick_db w))).2).
  assert (Hd : digest_key u ln ∉ sends (db w1))
    by (by apply digest_not_marked_by_carry).
  rewrite (bool_decide_eq_false_2 _ Hd). cbn [negb].
  apply (slot_step_trans w (tick_db (tick_db w))); [by apply slot_step_same|].
  apply (slot_step_trans _ w1).
  { apply carry_slot. intros H. destruct (Hslot H) as [? ?]. split; congruence. }
  eapply (slot_step_fire _ _ (user_id u) "digest" (dt_date ln) 8).
  - done.
  - done.
  - done.
  - apply marks_send_events.
  - apply deliveries_send_events_le.
  - apply send_events_other, kind_of_digest_text.
  - intros H _. destruct (Hslot H) as [? ?]. split; congruence.
  - done.
Qed.

Lemma prompt_slot u ln w :
  (user_id u = uid -> dt_date ln = day /\ dt_hour ln = hour) ->
  step w (do_tomorrow_prompt env u ln w).2.
Proof.
  intros Hslot. destruct (decide (dt_hour ln ∈ prompt_hours)) as [E|N].
  2: { rewrite do_tomorrow_prompt_off by done. by apply slot_step_same. }
  destruct (decide (prompt_key u ln ∈ sends (db w))) as [Hin|Hout].
  { rewrite do_tomorrow_prompt_skip by done. by apply slot_step_same. }
  rewrite do_tomorrow_prompt_run by done. cbn [snd].
  eapply (slot_step_fire _ _ (user_id u) "prompt" (dt_date ln) (dt_hour ln)).
  - done.
  - done.
  - done.
  - apply marks_send_events.
  - apply deliveries_send_events_le.
  - apply send_events_other, kind_of_prompt_text.
  - intros H _. by apply Hslot.
  - done.
Qed.

Lemma tick_user_slot u w :
  due u -> step w (tick_user env clock u w).2.
Proof.
  intros Hslot. unfold tick_user, now_local.
  destruct (ZoneInfo_ok env (tz u)); [|by apply slot_step_same].
  erewrite bind_ok by reflexivity.
  erewrite bind_ok by (by apply do_daily_digest_eq).
  eapply slot_step_trans; [apply digest_slot|apply prompt_slot]; exact Hslot.
Qed.

Lemma for_each_slot us w :
  Forall due us -> step w (for_each us (tick_user env clock) w).2.
Proof.
  intros Hall. revert w. induction Hall as [|u us Hu _ IH]; intros w.
  - by apply slot_step_same.
  - cbn [for_each]. unfold bind.
    pose proof (tick_user_slot u w Hu) as Hstep.
    destruct (tick_user env clock u w) as [[[]|e] w1]; cbn [snd] in *.
    + eapply slot_step_trans; [exact Hstep|apply IH].
    + exact Hstep.
Qed.

Lemma hourly_tick_slot w :
  Forall due (users (db w)) -> step w (hourly_tick env clock w).2.
Proof.
  intros Hall. unfold hourly_tick.
  erewrite bind_ok by (rewrite closing_db_run by done; reflexivity).
  apply (slot_step_trans w (tick_db w)); [by apply slot_step_same|].
  by apply for_each_slot.
Qed.

End Slot.

Lemma run_ticks_slot env uid kind day hour clocks w :
  (forall n, db_fails env n = false) ->
  Forall (fun c => Forall (in_slot uid day hour c) (users (db w))) clocks ->
  slot_step uid kind day hour w (run_ticks env clocks w).
Proof.
  intros Hdb Hall. revert w Hall.
  induction clocks as [|c cs IH]; intros w Hall; cbn [run_ticks].
  - by apply slot_step_same.
  - inversion Hall as [|? ? Hc Hcs]; subst.
    pose proof (hourly_tick_slot uid kind day hour env c Hdb w Hc) as Hstep.
    eapply slot_step_trans; [exact Hstep|]. apply IH.
    destruct Hstep as [Hu _]. by rewrite Hu.
Qed.





(** ** Carry-over *)

Lemma max_rowid_nonneg l : 0 <= max_rowid l.
Proof. induction l as [|t l IH]; simpl; lia. Qed.

Lemma max_rowid_app l1 l2 :
  max_rowid (l1 ++ l2) = Z.max (max_rowid l1) (max_rowid l2).
Proof.
  induction l1 as [|t l1 IH]; simpl.
  - pose proof (max_rowid_nonneg l2). lia.
  - unfold max_rowid in *. rewrite IH. lia.
Qed.

Lemma max_rowid_elem t l : t ∈ l -> t_id t <= max_rowid l.
Proof.
  induction 1 as [|? ? ? ? IH]; simpl; [lia|].
  unfold max_rowid in *. lia.
Qed.

Lemma copy_rows_copied uid day rows d :
  Forall2 (copied_from uid day) rows (copy_rows uid day rows d).1.
Proof.
  revert d; induction rows as [|r rs IH]; intros d; simpl; [constructor|].
  specialize (IH (insert_task uid (t_title r) day (t_due_time r)
                              (t_priority r) (t_tags r) d).2).
  simpl in IH.
  destruct (copy_rows uid day rs _) as [ts d2]; simpl in *.
  constructor; [|exact IH]. by repeat split.
Qed.

Lemma copy_rows_ids uid day rows d :
  Forall (fun n => rowid_bound d < t_id n) (copy_rows uid day rows d).1 /\
  StronglySorted (fun a b => t_id a < t_id b) (copy_rows uid day rows d).1.
Proof.
  revert d; induction rows as [|r rs IH]; intros d; simpl.
  { split; constructor. }
  specialize (IH (insert_task uid (t_title r) day (t_due_time r)
                              (t_priority r) (t_tags r) d).2).
  simpl in IH.
  destruct (copy_rows uid day rs _) as [ts d2]; simpl in *.
  destruct IH as [Hb Hs].
  assert (Hlt : Forall (fun n => next_rowid d < t_id n) ts).
  { eapply Forall_impl; [exact Hb|]. intros n Hn.
    unfold rowid_bound in Hn. simpl in Hn. lia. }
  split.
  - constructor; simpl.
    + unfold next_rowid, rowid_bound. lia.
    + eapply Forall_impl; [exact Hlt|]. intros n Hn.
      unfold next_rowid, rowid_bound in *. lia.
  - constructor; [exact Hs|]. exact Hlt.
Qed.

Lemma filter_all {A} (P : A -> Prop) `{!forall x, Decision (P x)} l :
  Forall P l -> filter P l = l.
Proof.
  induction 1 as [|x l Hx _ IH]; [done|].
  by rewrite filter_cons_True, IH.
Qed.

Lemma filter_none {A} (P : A -> Prop) `{!forall x, Decision (P x)} l :
  Forall (fun x => ~ P x) l -> filter P l = [].
Proof.
  induction 1 as [|x l Hx _ IH]; [done|].
  by rewrite filter_cons_False, IH.
Qed.

(** C2. Carry-over correctness.  When [do_carry_over] runs for a user
    whose "carry" slot of the day is still free (and the store answers), it
    appends one new row per open task that the user has under yesterday's
    date, in their order, and changes nothing else.  So today's rows of the
    user are the former M followed by the N new ones; yesterday's rows, the
    N open ones among them, are exactly what they were; each new row copies
    title, due_time, priority and tags of its source, is open, is dated
    today, belongs to the user, and carries an id larger than every id in
    the table before it and than the ids of the copies made before it. *)
Theorem carry_over_correct env u local_now w :
  (forall n, db_fails env n = false) ->
  carry_key u local_now ∉ sends (db w) ->
  let uid := user_id u in
  let today := dt_date local_now in
  let yday := today - 1 in
  let d := db w in
  let d' := db (do_carry_over env u local_now w).2 in
  exists new,
    tasks d' = (tasks d ++ new)%list /\
    Forall2 (copied_from uid today)
      (filter (fun t => t_user_id t = uid /\ t_day t = yday /\ t_status t = "open")
              (tasks d)) new /\
    filter (fun t => t_user_id t = uid /\ t_day t = today) (tasks d')
      = (filter (fun t => t_user_id t = uid /\ t_day t = today) (tasks d) ++ new)%list /\
    filter (fun t => t_user_id t = uid /\ t_day t = yday) (tasks d')
      = filter (fun t => t_user_id t = uid /\ t_day t = yday) (tasks d) /\
    filter (fun t => t_user_id t = uid /\ t_day t = yday /\ t_status t = "open")
           (tasks d')
      = filter (fun t => t_user_id t = uid /\ t_day t = yday /\ t_status t = "open")
               (tasks d) /\
    Forall (fun n => forall t, t ∈ tasks d -> t_id t < t_id n) new /\
    StronglySorted (fun a b => t_id a < t_id b) new.
Proof.
  intros Hdb Hfree uid today yday d d'.
  set (src := open_tasks_on uid yday d).
  exists (copy_rows uid today src d).1.
  pose proof (copy_rows_copied uid today src d) as Hcopied.
  pose proof (copy_rows_ids uid today src d) as [Hbound Hsorted].
  assert (Htasks : tasks d' = (tasks d ++ (copy_rows uid today src d).1)%list).
  { unfold d'. rewrite do_carry_over_run by done. cbn.
    apply copy_rows_tasks. }
  assert (Htoday : Forall (fun t => t_user_id t = uid /\ t_day t = today)
                          (copy_rows uid today src d).1).
  { eapply Forall2_Forall_r; [exact Hcopied|].
    apply Forall_forall. intros s _ n (_ & _ & _ & _ & _ & ? & ?). done. }
  assert (Hnot_y : Forall (fun t => ~ (t_user_id t = uid /\ t_day t = yday))
                          (copy_rows uid today src d).1).
  { eapply Forall_impl; [exact Htoday|]. intros t [_ E] [_ E']. unfold yday in *. lia. }
  split_and!.
  - exact Htasks.
  - exact Hcopied.
  - rewrite Htasks, filter_app. by rewrite (filter_all _ _ Htoday).
  - rewrite Htasks, filter_app.
    rewrite (filter_none _ _ Hnot_y). by rewrite app_nil_r.
  - rewrite Htasks, filter_app.
    assert (Hnot_o : Forall (fun t => ~ (t_user_id t = uid /\ t_day t = yday
                                         /\ t_status t = "open"))
                            (copy_rows uid today src d).1).
    { eapply Forall_impl; [exact Hnot_y|]. intros t H (? & ? & _). by apply H. }
    rewrite (filter_none _ _ Hnot_o). by rewrite app_nil_r.
  - eapply Forall_impl; [exact Hbound|]. intros n Hn t Ht.
    apply max_rowid_elem in Ht. unfold rowid_bound in Hn. lia.
  - exact Hsorted.
Qed.

(** The morning of day 101: of the three rows only "Buy milk" is open
    under day 100, and it is the one row that is copied. *)
Lemma carry_over_correct_witness :
  carry_key user7 eight ∉ sends (db world_morning) /\
  exists n,
    tasks (db (do_carry_over env_ok user7 eight world_morning).2)
      = [task_milk; task_report; task_call; n] /\
    t_title n = "Buy milk" /\ t_due_time n = None /\ t_priority n = "med" /\
    t_tags n = "#home" /\ t_status n = "open" /\ t_day n = 101 /\
    t_user_id n = 7 /\ 3 < t_id n.
Proof.
  assert (H : carry_key user7 eight ∉ sends (db world_morning))
    by apply not_elem_of_empty.
  split; [exact H|].
  destruct (carry_over_correct env_ok user7 eight world_morning
              (fun _ => eq_refl) H) as (new & Ht & Hc & _ & _ & _ & Hid & _).
  assert (Es : filter (fun t => t_user_id t = 7 /\ t_day t = 101 - 1
                                /\ t_status t = "open")
                      (tasks (db world_morning)) = [task_milk]) by reflexivity.
  change (user_id user7) with 7 in Hc. change (dt_date eight) with 101 in Hc.
  rewrite Es in Hc.
  inversion Hc as [|s n ss ns Hn Hrest]; subst.
  inversion Hrest; subst.
  destruct Hn as (H1 & H2 & H3 & H4 & H5 & H6 & H7).
  exists n. split; [exact Ht|].
  split_and!; try done.
  inversion Hid as [|? ? Hlt _]; subst.
  apply (Hlt task_call). apply list_elem_of_In. simpl. tauto.
Defined.

(** ** Order of copy, notice and ledger insertion *)

(** C4 (as amended).  When [do_carry_over] performs the copy (its slot is
    free and the store answers), the events it adds are, in this order: the
    inserted copies; then, only if at least one row was copied, the attempt
    to send the carry notice (followed by the printed error if the attempt
    fails); and last the ledger insertion for the "carry" slot. *)
Theorem carry_over_marks_last env u local_now w :
  (forall n, db_fails env n = false) ->
  carry_key u local_now ∉ sends (db w) ->
  let rows := open_tasks_on (user_id u) (dt_date local_now - 1) (db w) in
  let new := (copy_rows (user_id u) (dt_date local_now) rows (db w)).1 in
  let notice :=
    match rows with
    | [] => []
    | _ => send_events env (send_calls w) (user_id u) (carry_text (List.length rows))
    end in
  trace (do_carry_over env u local_now w).2
  = (trace w ++ List.map EvInsert new ++ notice
       ++ [EvMark (carry_key u local_now) true])%list.
Proof.
  intros Hdb Hfree rows new notice.
  rewrite do_carry_over_run by done. reflexivity.
Qed.

Lemma carry_over_marks_last_witness :
  carry_key user7 eight ∉ sends (db world_morning) /\
  trace (do_carry_over env_ok user7 eight world_morning).2
  = [EvInsert {| t_id := 4; t_user_id := 7; t_title := "Buy milk"; t_day := 101;
                 t_due_time := None; t_priority := "med"; t_tags := "#home";
                 t_status := "open" |};
     EvSend 7 "↪️ Carried over 1 unfinished task(s) from yesterday." true;
     EvMark (7, "carry", 101, 8) true].
Proof.
  assert (H : carry_key user7 eight ∉ sends (db world_morning))
    by apply not_elem_of_empty.
  split; [exact H|].
  exact (carry_over_marks_last env_ok user7 eight world_morning
           (fun _ => eq_refl) H).
Defined.

(** C4, as stated, fails: with one open task from yesterday the carry
    notice is sent while the "carry" row is not yet in the ledger. *)
Lemma carry_over_notifies_before_marking :
  ~ marked_before_notifying (7, "carry", 101, 8)
      (trace (do_carry_over env_ok user7 eight world_morning).2).
Proof.
  intros H.
  destruct (H [EvInsert {| t_id := 4; t_user_id := 7; t_title := "Buy milk";
                           t_day := 101; t_due_time := None; t_priority := "med";
                           t_tags := "#home"; t_status := "open" |}]
              7 "↪️ Carried over 1 unfinished task(s) from yesterday." true
              [EvMark (7, "carry", 101, 8) true]) as [b Hb].
  - vm_compute. reflexivity.
  - apply list_elem_of_In in Hb. simpl in Hb. destruct Hb as [Hb|[]]. discriminate Hb.
Qed.

(** ** Retries *)

Section Retries.

Context (env : Env) (clock : Clock).
Hypothesis Hdb : forall n, db_fails env n = false.

Lemma do_carry_over_marked u ln w :
  carry_key u ln ∈ sends (db (do_carry_over env u ln w).2).
Proof.
  destruct (decide (carry_key u ln ∈ sends (db w))) as [Hin|Hout].
  - by rewrite do_carry_over_skip.
  - rewrite do_carry_over_run by done. cbn. set_solver.
Qed.

Lemma do_daily_digest_marked u ln w :
  dt_hour ln = 8 ->
  digest_key u ln ∈ sends (db (do_daily_digest env u ln w).2) /\
  (digest_key u ln ∉ sends (db w) ->
   carry_key u ln ∈ sends (db (do_daily_digest env u ln w).2)).
Proof.
  intros E. destruct (decide (digest_key u ln ∈ sends (db w))) as [Hin|Hout].
  - rewrite do_daily_digest_skip by done. done.
  - rewrite do_daily_digest_run by done. cbn.
    pose proof (do_carry_over_marked u ln (tick_db (tick_db w))).
    split; [|intros _]; set_solver.
Qed.

Lemma do_tomorrow_prompt_marked u ln w :
  dt_hour ln ∈ prompt_hours ->
  prompt_key u ln ∈ sends (db (do_tomorrow_prompt env u ln w).2).
Proof.
  intros E. destruct (decide (prompt_key u ln ∈ sends (db w))) as [Hin|Hout].
  - by rewrite do_tomorrow_prompt_skip.
  - rewrite do_tomorrow_prompt_run by done. cbn. set_solver.
Qed.

Lemma do_tomorrow_prompt_sends u ln w :
  sends (db w) ⊆ sends (db (do_tomorrow_prompt env u ln w).2).
Proof.
  destruct (decide (dt_hour ln ∈ prompt_hours)) as [E|N].
  - destruct (decide (prompt_key u ln ∈ sends (db w))) as [Hin|Hout].
    + by rewrite do_tomorrow_prompt_skip.
    + rewrite do_tomorrow_prompt_run by done. cbn. set_solver.
  - by rewrite do_tomorrow_prompt_off.
Qed.

Lemma tick_user_run u w :
  ZoneInfo_ok env (tz u) = true ->
  let ln := truncate_hour (clock (tz u)) in
  tick_user env clock u w
  = (Ok tt, (do_tomorrow_prompt env u ln (do_daily_digest env u ln w).2).2).
Proof.
  intros Hz ln. unfold tick_user, now_local. rewrite Hz.
  erewrite bind_ok by reflexivity.
  erewrite bind_ok by (by apply do_daily_digest_eq).
  by apply do_tomorrow_prompt_eq.
Qed.

End Retries.

Lemma eight_not_prompt_hour h : h = 8 -> h ∉ prompt_hours.
Proof.
  intros -> H. apply list_elem_of_In in H. simpl in H.
  repeat (destruct H as [H|H]; [discriminate H|]). exact H.
Qed.





(** ** Commands *)

(** C7. Invalid-timezone atomicity.  For every user and every string that
    [ZoneInfo] rejects, [/tz] returns normally, leaves the whole database,
    hence the stored timezone, the tasks and the send ledger, as it was
    (it does not even open it), and its only effect is one reply carrying
    an error message: the usage line for an empty argument, the
    "not recognized" line otherwise. *)
Theorem invalid_timezone_changes_nothing env uid s w :
  ZoneInfo_ok env s = false ->
  let r := cmd_tz env uid (Some s) w in
  r.1 = Ok tt /\
  db r.2 = db w /\ db_calls r.2 = db_calls w /\
  exists msg, trace r.2 = (trace w ++ [EvReply uid msg])%list /\
              (msg = tz_usage \/ msg = tz_unrecognized).
Proof.
  intros Hbad r. unfold r, cmd_tz. cbn [truthy or_empty].
  destruct (is_empty s); cbn [negb].
  - split_and!; try done. exists tz_usage. split; [done|by left].
  - rewrite Hbad. split_and!; try done.
    exists tz_unrecognized. split; [done|by right].
Qed.

Lemma invalid_timezone_changes_nothing_witness :
  let r := cmd_tz env_two_zones 7 (Some "Mars/Olympus") world_morning in
  ZoneInfo_ok env_two_zones "Mars/Olympus" = false /\
  db r.2 = db world_morning /\
  trace r.2 = [EvReply 7 tz_unrecognized].
Proof.
  intros r.
  destruct (invalid_timezone_changes_nothing env_two_zones 7 "Mars/Olympus"
              world_morning eq_refl) as (_ & Hd & _ & _).
  split; [reflexivity|]. split; [exact Hd|]. reflexivity.
Defined.

Lemma elem_of_map_set_done k t l :
  t ∈ l -> set_done k t ∈ List.map (set_done k) l.
Proof. intros H. apply list_elem_of_In, in_map, list_elem_of_In, H. Qed.

Lemma map_set_done_id k l :
  (forall t, t ∈ l -> t_id t <> k) -> List.map (set_done k) l = l.
Proof.
  induction l as [|t l IH]; intros H; [done|]. simpl.
  rewrite IH by (intros t' Ht'; apply H; by right).
  unfold set_done. rewrite bool_decide_eq_false_2; [done|].
  apply H. by left.
Qed.

Lemma isdigit_truthy env s : isdigit env s = true -> truthy (Some s) = true.
Proof. unfold isdigit. simpl. by destruct (is_empty s). Qed.

(** [/done] with an id that SQLite can bind. *)
Lemma cmd_done_run env x args k w :
  (forall n, db_fails env n = false) ->
  isdigit env args = true -> int env args = Some k -> k < 2 ^ 63 ->
  cmd_done env x (Some args) w
  = (Ok tt, mkWorld (update_done k (db w)) (S (db_calls w)) (send_calls w)
                    (trace w ++ [EvReply x done_reply])).
Proof.
  intros Hdb Hdig Hint Hk. unfold cmd_done.
  rewrite (isdigit_truthy _ _ Hdig). cbn [or_empty].
  rewrite Hdig, Hint. cbn [negb orb].
  erewrite bind_ok by reflexivity.
  erewrite bind_ok.
  2:{ rewrite closing_db_run by done.
      destruct (Z.leb_spec (2 ^ 63) k); [lia|]. reflexivity. }
  reflexivity.
Qed.

(** [/done] with a number that does not fit a 64-bit integer. *)
Lemma cmd_done_overflow env x args k w :
  (forall n, db_fails env n = false) ->
  isdigit env args = true -> int env args = Some k -> 2 ^ 63 <= k ->
  cmd_done env x (Some args) w = (Raise OverflowError, tick_db w).
Proof.
  intros Hdb Hdig Hint Hk. unfold cmd_done.
  rewrite (isdigit_truthy _ _ Hdig). cbn [or_empty].
  rewrite Hdig, Hint. cbn [negb orb].
  erewrite bind_ok by reflexivity.
  unfold bind. rewrite closing_db_run by done.
  destruct (Z.leb_spec (2 ^ 63) k); [reflexivity|lia].
Qed.




Lemma select_user_id uid d u : select_user uid d = Some u -> user_id u = uid.
Proof.
  unfold select_user. intros H. apply List.find_some in H as [_ H].
  by apply bool_decide_eq_true in H.
Qed.

Lemma user_row_id env uid d : user_id (user_row env uid d) = uid.
Proof.
  unfold user_row. destruct (select_user uid d) as [u|] eqn:E; [|done].
  by apply select_user_id in E.
Qed.

Lemma db_with_user_tasks env uid d :
  tasks (db_with_user env uid d) = tasks d /\
  tasks_seq (db_with_user env uid d) = tasks_seq d /\
  sends (db_with_user env uid d) = sends d.
Proof. unfold db_with_user. by destruct (select_user uid d). Qed.

Lemma parse_step_keeps_priority acc tok :
  startswith "!" tok = false ->
  parsed_priority (parse_step acc tok) = parsed_priority acc.
Proof.
  intros H. destruct acc as [[[title tags] priority] due]. unfold parse_step.
  rewrite H. by destruct (startswith "#" tok), (startswith "@" tok).
Qed.

Lemma parse_step_takes_priority acc s :
  parsed_priority (parse_step acc (String "!" s)) = s.
Proof. by destruct acc as [[[title tags] priority] due]. Qed.

Lemma fold_parse_keeps_priority toks acc :
  Forall (fun tok => startswith "!" tok = false) toks ->
  parsed_priority (fold_left parse_step toks acc) = parsed_priority acc.
Proof.
  intros H. revert acc. induction H as [|tok toks Htok _ IH]; intros acc; [done|].
  simpl. rewrite IH. by apply parse_step_keeps_priority.
Qed.

Lemma parse_tokens_priority pre s post :
  Forall (fun tok => startswith "!" tok = false) post ->
  parsed_priority (parse_tokens (pre ++ String "!" s :: post)) = s.
Proof.
  intros H. unfold parse_tokens.
  destruct (fold_left parse_step _ _) as [[[title tags] priority] due] eqn:E.
  change priority with (parsed_priority (title, tags, priority, due)).
  rewrite <- E, fold_left_app. simpl.
  rewrite fold_parse_keeps_priority by done.
  apply parse_step_takes_priority.
Qed.

Lemma priority_rank_other s :
  s <> "high" -> s <> "med" -> priority_rank s = 2.
Proof.
  intros H1 H2. unfold priority_rank.
  apply String.eqb_neq in H1, H2. by rewrite H1, H2.
Qed.

Section Add.

Context (env : Env) (clock : Clock).
Hypothesis Hdb : forall n, db_fails env n = false.

Lemma get_user_run uid w :
  get_user env uid w
  = (Ok (user_row env uid (db w)),
     mkWorld (db_with_user env uid (db w)) (S (db_calls w)) (send_calls w) (trace w)).
Proof.
  unfold get_user. rewrite closing_db_run by done.
  erewrite bind_ok by reflexivity. unfold user_row, db_with_user.
  cbn [db tick_db]. by destruct (select_user uid (db w)).
Qed.

(** The row that [/add] or [/tomorrow] appends for the parse result [p]. *)
Lemma add_appends_row uid args w (offset : Z) :
  truthy args = true ->
  let p := parse_task_args args in
  is_empty (parsed_title p) = false ->
  ZoneInfo_ok env (tz (user_row env uid (db w))) = true ->
  let day := dt_date (clock (tz (user_row env uid (db w)))) in
  let row d :=
    {| t_id := next_rowid (db w); t_user_id := uid; t_title := parsed_title p;
       t_day := d; t_due_time := parsed_due_time p;
       t_priority := parsed_priority p; t_tags := parsed_tags p;
       t_status := "open" |} in
  tasks (db (cmd_add env clock uid args w).2) = (tasks (db w) ++ [row day])%list /\
  tasks (db (cmd_tomorrow env clock uid args w).2)
    = (tasks (db w) ++ [row (day + 1)])%list.
Proof.
  intros Hargs p Htitle Hz day row.
  destruct (db_with_user_tasks env uid (db w)) as (Ht & Hs & _).
  assert (Hnext : next_rowid (db_with_user env uid (db w)) = next_rowid (db w))
    by (unfold next_rowid; by rewrite Ht, Hs).
  unfold cmd_add, cmd_tomorrow.
  erewrite !bind_ok by apply get_user_run.
  rewrite Hargs. cbn [negb]. fold p.
  destruct p as [[[title tags] priority] due] eqn:Ep.
  unfold parsed_title, parsed_tags, parsed_priority, parsed_due_time in *.
  cbn [fst snd] in *. rewrite Htitle.
  split.
  - erewrite bind_ok.
    2:{ rewrite closing_db_run by done. unfold today_local, now_local.
        rewrite Hz. reflexivity. }
    cbn. rewrite Hnext, Ht, user_row_id. done.
  - erewrite bind_ok.
    2:{ rewrite closing_db_run by done. unfold today_local, now_local.
        rewrite Hz. reflexivity. }
    cbn. rewrite Hnext, Ht, user_row_id. done.
Qed.

End Add.

Lemma split_nonempty args : split args <> [] -> truthy (Some args) = true.
Proof. destruct args; [by intros []|done]. Qed.




(** ** Storage faults during a tick *)

Lemma for_each_raise {A} (body : A -> M unit) xs1 x xs2 w w1 e w2 :
  for_each xs1 body w = (Ok tt, w1) ->
  body x w1 = (Raise e, w2) ->
  for_each (xs1 ++ x :: xs2) body w = (Raise e, w2).
Proof.
  revert w. induction xs1 as [|y ys IH]; intros w H1 H2.
  - injection H1 as <-. cbn [app for_each]. unfold bind. by rewrite H2.
  - cbn [app for_each] in *. unfold bind in *.
    destruct (body y w) as [[[]|e'] w'] eqn:E; [|discriminate H1].
    by apply IH.
Qed.




(** ** Listing order *)

Lemma ascii_compare_N a b :
  Ascii.compare a b = N.compare (N_of_ascii a) (N_of_ascii b).
Proof. reflexivity. Qed.

Lemma string_compare_refl s : String.compare s s = Eq.
Proof.
  induction s as [|c s IH]; simpl; [done|].
  rewrite ascii_compare_N, N.compare_refl. exact IH.
Qed.

Lemma string_compare_le_trans a b c :
  String.compare a b <> Gt -> String.compare b c <> Gt -> String.compare a c <> Gt.
Proof.
  revert b c. induction a as [|x a IH]; intros [|y b] [|z c]; simpl; try done.
  rewrite !ascii_compare_N.
  destruct (N.compare_spec (N_of_ascii x) (N_of_ascii y)) as [Exy|Lxy|Gxy];
  destruct (N.compare_spec (N_of_ascii y) (N_of_ascii z)) as [Eyz|Lyz|Gyz];
  destruct (N.compare_spec (N_of_ascii x) (N_of_ascii z)) as [Exz|Lxz|Gxz];
    try done; try lia.
  apply IH.
Qed.

Lemma string_leb_refl s : String.leb s s = true.
Proof. unfold String.leb. by rewrite string_compare_refl. Qed.

Lemma string_leb_trans a b c :
  String.leb a b = true -> String.leb b c = true -> String.leb a c = true.
Proof.
  unfold String.leb. intros H1 H2.
  pose proof (string_compare_le_trans a b c) as H.
  destruct (String.compare a b), (String.compare b c), (String.compare a c);
    try done; exfalso; by apply H.
Qed.

Lemma key_le_before a b : key_le a b = true <-> key_before a b.
Proof.
  unfold key_le, key_before. rewrite orb_true_iff, andb_true_iff.
  rewrite Z.ltb_lt, Z.eqb_eq. done.
Qed.

Lemma key_before_total a b : key_before a b \/ key_before b a.
Proof.
  unfold key_before.
  destruct (Z.lt_trichotomy (priority_rank (t_priority a))
                            (priority_rank (t_priority b))) as [H|[H|H]].
  - by left; left.
  - destruct (String.leb_total (coalesce_due (t_due_time a))
                               (coalesce_due (t_due_time b))); [left|right]; by right.
  - by right; left.
Qed.

Lemma key_before_trans a b c : key_before a b -> key_before b c -> key_before a c.
Proof.
  unfold key_before. intros [H1|[H1 L1]] [H2|[H2 L2]].
  - left. lia.
  - left. lia.
  - left. lia.
  - right. split; [lia|]. by eapply string_leb_trans.
Qed.

Lemma same_key_before a b : same_key a b -> key_before a b.
Proof.
  intros [H1 H2]. right. split; [done|]. rewrite H2. apply string_leb_refl.
Qed.

Section Sorting.

Context {A : Type} (le : A -> A -> bool).

Lemma insert_sorted_perm x l : insert_sorted le x l ≡ₚ x :: l.
Proof.
  induction l as [|y l IH]; simpl; [done|].
  destruct (le x y); [done|]. rewrite IH. apply Permutation_swap.
Qed.

Lemma order_by_perm l : order_by le l ≡ₚ l.
Proof.
  induction l as [|x l IH]; simpl; [done|].
  unfold order_by in *. by rewrite insert_sorted_perm, IH.
Qed.

Hypothesis le_total : forall a b, le a b = true \/ le b a = true.
Hypothesis le_trans : forall a b c, le a b = true -> le b c = true -> le a c = true.

Lemma insert_sorted_sorted x l :
  StronglySorted (fun a b => le a b = true) l ->
  StronglySorted (fun a b => le a b = true) (insert_sorted le x l).
Proof.
  induction 1 as [|y l Hs IH Hy]; simpl.
  - repeat constructor.
  - destruct (le x y) eqn:E.
    + constructor; [by constructor|].
      constructor; [done|]. eapply Forall_impl; [exact Hy|].
      intros z Hz. by eapply le_trans.
    + constructor; [exact IH|].
      rewrite insert_sorted_perm. constructor; [|exact Hy].
      destruct (le_total x y) as [H|H]; [congruence|done].
Qed.

Lemma order_by_sorted l : StronglySorted (fun a b => le a b = true) (order_by le l).
Proof.
  induction l as [|x l IH]; simpl; [constructor|].
  by apply insert_sorted_sorted.
Qed.

(** Stability: rows that tie on the key keep their relative order. *)
Lemma insert_sorted_filter (P : A -> Prop) `{!forall x, Decision (P x)} x l :
  (forall y, P x -> P y -> le x y = true) ->
  filter P (insert_sorted le x l) = filter P (x :: l).
Proof.
  intros Htie. induction l as [|y l IH]; simpl; [done|].
  destruct (le x y) eqn:E; [done|].
  rewrite filter_cons, IH, !filter_cons.
  destruct (decide (P y)) as [Py|Py]; [|done].
  destruct (decide (P x)) as [Px|Px]; [|done].
  rewrite (Htie y Px Py) in E. discriminate E.
Qed.

Lemma order_by_filter (P : A -> Prop) `{!forall x, Decision (P x)} l :
  (forall x y, P x -> P y -> le x y = true) ->
  filter P (order_by le l) = filter P l.
Proof.
  intros Htie. induction l as [|x l IH]; simpl; [done|].
  unfold order_by in *. rewrite insert_sorted_filter by (by apply Htie).
  by rewrite !filter_cons, IH.
Qed.

End Sorting.

Lemma digit_of_bounds c v :
  digit_of c = Some v -> Z.of_N (N_of_ascii c) = v + 48 /\ 0 <= v <= 9.
Proof.
  unfold digit_of, is_digit. intros H.
  destruct ((48 <=? N_of_ascii c)%N && (N_of_ascii c <=? 57)%N) eqn:E; [|done].
  injection H as <-. apply andb_true_iff in E as [E1 E2].
  apply N.leb_le in E1, E2. lia.
Qed.

(** Shape of a well-formed "HH:MM". *)
Lemma hhmm_inv s m :
  hhmm s = Some m ->
  exists a b d e x y z v,
    s = String a (String b (String ":" (String d (String e EmptyString)))) /\
    digit_of a = Some x /\ digit_of b = Some y /\
    digit_of d = Some z /\ digit_of e = Some v /\
    10 * x + y <= 23 /\ 10 * z + v <= 59 /\
    m = 60 * (10 * x + y) + (10 * z + v).
Proof.
  destruct s as [|a [|b [|c [|d [|e [|? ?]]]]]]; try done. simpl.
  destruct (digit_of a) as [x|] eqn:Ea; [|done].
  destruct (digit_of b) as [y|] eqn:Eb; [|done].
  destruct (digit_of d) as [z|] eqn:Ed; [|done].
  destruct (digit_of e) as [v|] eqn:Ee; [|done].
  destruct (Ascii.eqb_spec c ":"%char) as [->|]; [|done]. cbn [andb].
  destruct (Z.leb_spec (10 * x + y) 23); [|done].
  destruct (Z.leb_spec (10 * z + v) 59); [|done].
  intros [= <-]. exists a, b, d, e, x, y, z, v. by split_and!.
Qed.

Lemma hhmm_leb s1 s2 m n :
  hhmm s1 = Some m -> hhmm s2 = Some n ->
  String.leb s1 s2 = true -> m <= n.
Proof.
  intros H1 H2.
  apply hhmm_inv in H1 as (a1 & b1 & d1 & e1 & x1 & y1 & z1 & v1 & -> & Ha1 & Hb1
                           & Hd1 & He1 & Hh1 & Hm1 & ->).
  apply hhmm_inv in H2 as (a2 & b2 & d2 & e2 & x2 & y2 & z2 & v2 & -> & Ha2 & Hb2
                           & Hd2 & He2 & Hh2 & Hm2 & ->).
  apply digit_of_bounds in Ha1, Hb1, Hd1, He1, Ha2, Hb2, Hd2, He2.
  unfold String.leb. cbn [String.compare]. rewrite !ascii_compare_N.
  rewrite N.compare_refl.
  destruct (N.compare_spec (N_of_ascii a1) (N_of_ascii a2));
  destruct (N.compare_spec (N_of_ascii b1) (N_of_ascii b2));
  destruct (N.compare_spec (N_of_ascii d1) (N_of_ascii d2));
  destruct (N.compare_spec (N_of_ascii e1) (N_of_ascii e2));
    intros ?; try done; lia.
Qed.

Lemma hhmm_before_sentinel s m : hhmm s = Some m -> String.leb "99:99" s = false.
Proof.
  intros H.
  apply hhmm_inv in H as (a & b & d & e & x & y & z & v & -> & Ha & Hb
                          & Hd & He & Hh & Hm & ->).
  apply digit_of_bounds in Ha, Hb.
  unfold String.leb. cbn [String.compare]. rewrite ascii_compare_N.
  destruct (N.compare_spec (N_of_ascii "9") (N_of_ascii a)) as [E|L|G];
    [| |done]; cbn in *; lia.
Qed.

Lemma strongly_sorted_impl {A} (R1 R2 : A -> A -> Prop) l :
  (forall a b, R1 a b -> R2 a b) -> StronglySorted R1 l -> StronglySorted R2 l.
Proof.
  intros H. induction 1 as [|a l Hs IH Ha]; constructor; [exact IH|].
  eapply Forall_impl; [exact Ha|]. intros b. apply H.
Qed.

Lemma key_before_listed a b :
  well_timed a -> well_timed b -> key_before a b -> listed_before clock_le a b.
Proof.
  unfold well_timed, key_before, listed_before.
  intros Wa Wb [H|[H L]]; [by left|]. right. split; [done|].
  destruct (t_due_time a) as [x|], (t_due_time b) as [y|]; simpl in *; try done.
  - unfold clock_le.
    destruct (hhmm x) as [m|] eqn:Ex; [|done].
    destruct (hhmm y) as [n|] eqn:Ey; [|done].
    by eapply hhmm_leb.
  - destruct (hhmm y) as [n|] eqn:Ey; [|done].
    apply hhmm_before_sentinel in Ey. congruence.
Qed.

(** C6 (as amended).  The list that the digest and [/list] show for a user
    and a day holds exactly that user's rows of that day, sorted on the
    key (priority rank with high = 0, med = 1 and everything else 2; then
    the due_time text compared byte-wise, a missing due_time counting as
    "99:99"); rows that tie on the key stay in table (insertion) order.
    When every due_time of the day is a zero-padded "HH:MM", this is the
    ordering law: high before med before the rest, and within a rank an
    earlier due time before a later one and tasks without due time last. *)
Theorem list_order_law uid day d :
  let rows := tasks_ordered uid day d in
  rows ≡ₚ tasks_on uid day d /\
  StronglySorted key_before rows /\
  (forall t, filter (same_key t) rows = filter (same_key t) (tasks_on uid day d)) /\
  (Forall well_timed (tasks_on uid day d) ->
   StronglySorted (listed_before clock_le) rows).
Proof.
  intros rows.
  assert (Hperm : rows ≡ₚ tasks_on uid day d) by apply order_by_perm.
  assert (Hsorted : StronglySorted key_before rows).
  { apply (strongly_sorted_impl (fun a b => key_le a b = true)).
    - intros a b. apply key_le_before.
    - apply order_by_sorted.
      + intros a b.
        destruct (key_before_total a b); [left|right]; by apply key_le_before.
      + intros a b c ?%key_le_before ?%key_le_before.
        apply key_le_before. by eapply key_before_trans. }
  split_and!; [exact Hperm|exact Hsorted| |].
  - intros t. apply order_by_filter. intros x y [Hx1 Hx2] [Hy1 Hy2].
    apply key_le_before, same_key_before. split; congruence.
  - intros Hwt. rewrite <- Hperm in Hwt.
    clear Hperm. induction Hsorted as [|a l Hs IH Ha]; [constructor|].
    inversion Hwt as [|? ? Wa Wl]; subst.
    constructor; [by apply IH|].
    apply Forall_forall. intros b Hb.
    rewrite Forall_forall in Ha, Wl. apply key_before_listed; auto.
Qed.

Lemma list_order_law_witness :
  Forall well_timed (tasks_on 7 100 (db world_morning)) /\
  tasks_ordered 7 100 (db world_morning) = [task_report; task_milk] /\
  StronglySorted (listed_before clock_le) (tasks_ordered 7 100 (db world_morning)).
Proof.
  assert (H : Forall well_timed (tasks_on 7 100 (db world_morning))).
  { repeat constructor. discriminate. }
  split; [exact H|]. split; [reflexivity|].
  apply (list_order_law 7 100 (db world_morning)). exact H.
Defined.

(** C6, as stated, fails: after [/add Gym @9:00] and [/add Read], both of
    priority med, the list shows "Read", which has no due time, before
    "Gym", which has one ("9:00" sorts after "99:99" byte-wise).  The law is
    broken whatever order is taken between two due times. *)
Lemma task_without_due_time_listed_first :
  tasks (db world_gym) = [task_gym; task_read] /\
  tasks_ordered 7 100 (db world_gym) = [task_read; task_gym] /\
  ~ StronglySorted (listed_before (fun _ _ => True))
      (tasks_ordered 7 100 (db world_gym)).
Proof.
  assert (E : tasks_ordered 7 100 (db world_gym) = [task_read; task_gym])
    by (vm_compute; reflexivity).
  split; [vm_compute; reflexivity|]. split; [exact E|].
  rewrite E. intros H. inversion H as [|? ? _ Hall]; subst.
  inversion Hall as [|? ? Hb _]; subst.
  destruct Hb as [Hb|[_ Hb]].
  - vm_compute in Hb. discriminate Hb.
  - exact Hb.
Qed.

(** * Further properties *)

(** ** The users table *)

Lemma select_user_none uid d :
  select_user uid d = None <-> (forall v, v ∈ users d -> user_id v <> uid).
Proof.
  unfold select_user. split.
  - intros H v Hv E. apply list_elem_of_In in Hv.
    apply (List.find_none _ _ H) in Hv. by rewrite bool_decide_eq_true_2 in Hv.
  - intros H. induction (users d) as [|v l IH]; [done|]. simpl.
    rewrite bool_decide_eq_false_2 by (apply H; by left).
    apply IH. intros v' Hv'. apply H. by right.
Qed.

Lemma find_insert_user_row uid z l uid' :
  List.find (fun u => bool_decide (user_id u = uid)) l = None ->
  List.find (fun u => bool_decide (user_id u = uid'))
            (insert_user_row {| user_id := uid; tz := z |} l)
  = if bool_decide (uid = uid') then Some {| user_id := uid; tz := z |}
    else List.find (fun u => bool_decide (user_id u = uid')) l.
Proof.
  induction l as [|v l IH]; simpl; intros Hnone.
  - by case_bool_decide.
  - destruct (bool_decide (user_id v = uid)) eqn:Ev; [done|].
    apply bool_decide_eq_false in Ev.
    destruct (uid <? user_id v); simpl.
    + by case_bool_decide.
    + rewrite (IH Hnone).
      case_bool_decide as E1; [|done]. rewrite <- E1.
      by rewrite bool_decide_eq_false_2.
Qed.

Lemma find_upsert_map uid z l uid' :
  List.find (fun u => bool_decide (user_id u = uid'))
    (List.map (fun u => if bool_decide (user_id u = uid)
                        then {| user_id := uid; tz := z |} else u) l)
  = if bool_decide (uid = uid')
    then match List.find (fun u => bool_decide (user_id u = uid)) l with
         | Some _ => Some {| user_id := uid; tz := z |}
         | None => None
         end
    else List.find (fun u => bool_decide (user_id u = uid')) l.
Proof.
  induction l as [|v l IH].
  - simpl. by destruct (bool_decide (uid = uid')).
  - cbn [List.find List.map]. rewrite IH. clear IH.
    destruct (List.find _ l);
      repeat (case_bool_decide; cbn [user_id] in * ); simplify_eq; done.
Qed.

Lemma select_user_insert uid z d uid' :
  select_user uid d = None ->
  select_user uid' (insert_user uid z d)
  = if bool_decide (uid = uid') then Some {| user_id := uid; tz := z |}
    else select_user uid' d.
Proof. intros H. unfold select_user, insert_user. simpl. by apply find_insert_user_row. Qed.

Lemma select_user_upsert uid z d uid' :
  select_user uid' (upsert_tz uid z d)
  = if bool_decide (uid = uid') then Some {| user_id := uid; tz := z |}
    else select_user uid' d.
Proof.
  unfold upsert_tz. destruct (select_user uid d) as [v|] eqn:E.
  - unfold select_user in *. simpl. rewrite find_upsert_map, E. done.
  - by apply select_user_insert.
Qed.

Lemma select_user_db_with_user env uid d uid' :
  select_user uid' (db_with_user env uid d)
  = if bool_decide (uid = uid') then Some (user_row env uid d)
    else select_user uid' d.
Proof.
  unfold db_with_user, user_row. destruct (select_user uid d) as [v|] eqn:E.
  - case_bool_decide; [by subst|done].
  - by apply select_user_insert.
Qed.

(** X1. [get_user] returns the sender's row, creating it with the default
    zone on first contact (store answering).  Afterwards the table holds
    exactly the returned row for that id, every other user's row is as
    before, tasks, ledger and log are untouched, an existing row is never
    changed, and asking again returns the same row without changing the
    database. *)
Theorem get_user_registers_once env uid w :
  (forall n, db_fails env n = false) ->
  let r := get_user env uid w in
  exists u,
    r.1 = Ok u /\ user_id u = uid /\
    select_user uid (db r.2) = Some u /\
    (forall v, select_user uid (db w) = Some v -> u = v /\ db r.2 = db w) /\
    (select_user uid (db w) = None -> tz u = DEFAULT_TZ env) /\
    (forall uid', uid' <> uid -> select_user uid' (db r.2) = select_user uid' (db w)) /\
    tasks (db r.2) = tasks (db w) /\ sends (db r.2) = sends (db w) /\
    trace r.2 = trace w /\
    (get_user env uid r.2).1 = Ok u /\ db (get_user env uid r.2).2 = db r.2.
Proof.
  intros Hdb r. exists (user_row env uid (db w)).
  unfold r. rewrite !get_user_run by done. cbn.
  destruct (db_with_user_tasks env uid (db w)) as (Ht & _ & Hs).
  assert (Hsel : select_user uid (db_with_user env uid (db w))
                 = Some (user_row env uid (db w))).
  { rewrite select_user_db_with_user. by rewrite bool_decide_eq_true_2. }
  split_and!; try done.
  - apply user_row_id.
  - intros v Hv. unfold user_row, db_with_user. by rewrite Hv.
  - intros Hn. unfold user_row. by rewrite Hn.
  - intros uid' Hne. rewrite select_user_db_with_user.
    by rewrite bool_decide_eq_false_2.
  - unfold user_row at 1. by rewrite Hsel.
  - unfold db_with_user at 1. by rewrite Hsel.
Qed.

Lemma get_user_registers_once_witness :
  let r := get_user env_ok 9 world_morning in
  exists u, r.1 = Ok u /\ user_id u = 9 /\ tz u = "America/Los_Angeles" /\
            select_user 9 (db r.2) = Some u /\
            select_user 7 (db r.2) = Some user7.
Proof.
  intros r.
  destruct (get_user_registers_once env_ok 9 world_morning (fun _ => eq_refl))
    as (u & H1 & H2 & H3 & _ & H5 & H6 & _).
  exists u. split_and!; [exact H1|exact H2|by apply H5|exact H3|].
  rewrite H6 by done. reflexivity.
Defined.

Lemma select_user_elem uid d u : select_user uid d = Some u -> u ∈ users d.
Proof.
  unfold select_user. intros H. apply List.find_some in H as [H _].
  by apply list_elem_of_In.
Qed.

(** X2. [/tz] with a zone that [ZoneInfo] accepts stores it (store
    answering): the sender's row, created if it was missing, now carries
    that zone, so [get_user] and the next tick read it; every other user's
    row, the tasks, and the ledger are untouched, and the only reply
    confirms the zone. *)
Theorem valid_timezone_is_stored env uid z w :
  (forall n, db_fails env n = false) ->
  is_empty z = false -> ZoneInfo_ok env z = true ->
  let r := cmd_tz env uid (Some z) w in
  let row := {| user_id := uid; tz := z |} in
  r.1 = Ok tt /\
  select_user uid (db r.2) = Some row /\ row ∈ users (db r.2) /\
  (get_user env uid r.2).1 = Ok row /\
  (forall uid', uid' <> uid -> select_user uid' (db r.2) = select_user uid' (db w)) /\
  tasks (db r.2) = tasks (db w) /\ sends (db r.2) = sends (db w) /\
  trace r.2 = (trace w ++ [EvReply uid (tz_set_reply z)])%list.
Proof.
  intros Hdb Hz Hok r row.
  assert (Hr : r = (Ok tt, mkWorld (upsert_tz uid z (db w)) (S (db_calls w))
                             (send_calls w)
                             (trace w ++ [EvReply uid (tz_set_reply z)]))).
  { unfold r, cmd_tz. cbn [truthy or_empty]. rewrite Hz, Hok. cbn [negb].
    unfold set_tz. erewrite bind_ok by (rewrite closing_db_run by done; reflexivity).
    reflexivity. }
  assert (Hsel : select_user uid (upsert_tz uid z (db w)) = Some row).
  { rewrite select_user_upsert. by rewrite bool_decide_eq_true_2. }
  rewrite Hr. cbn [fst snd db trace mkWorld].
  split_and!; try done.
  - by apply select_user_elem in Hsel.
  - rewrite get_user_run by done. cbn. unfold user_row. by rewrite Hsel.
  - intros uid' Hne. rewrite select_user_upsert.
    by rewrite bool_decide_eq_false_2.
  - unfold upsert_tz, insert_user. by destruct (select_user uid (db w)).
  - unfold upsert_tz, insert_user. by destruct (select_user uid (db w)).
Qed.

Lemma valid_timezone_is_stored_witness :
  let r := cmd_tz env_two_zones 7 (Some "America/Los_Angeles") world_morning in
  users (db r.2) = [{| user_id := 7; tz := "America/Los_Angeles" |}] /\
  (get_user env_two_zones 7 r.2).1
    = Ok {| user_id := 7; tz := "America/Los_Angeles" |}.
Proof.
  intros r.
  destruct (valid_timezone_is_stored env_two_zones 7 "America/Los_Angeles"
              world_morning (fun _ => eq_refl) eq_refl eq_refl)
    as (_ & _ & _ & H & _).
  split; [reflexivity|exact H].
Defined.

(** ** Parsing the text of [/add] and [/tomorrow] *)

Lemma last_cons {A} (x : A) l d : List.last (x :: l) d = List.last l x.
Proof.
  revert x d. induction l as [|y l IH]; intros x d; [done|].
  change (List.last (x :: y :: l) d) with (List.last (y :: l) d).
  by rewrite !IH.
Qed.

Lemma fold_parse_by_kind toks title tags priority due :
  fold_left parse_step toks (title, tags, priority, due)
  = ((title ++ List.filter is_word toks)%list,
     (tags ++ List.filter is_tag toks)%list,
     List.last (List.map from1 (List.filter is_bang toks)) priority,
     List.last (List.map (fun t => Some (from1 t)) (List.filter is_at toks)) due).
Proof.
  revert title tags priority due.
  induction toks as [|tok toks IH]; intros title tags priority due.
  - simpl. by rewrite !app_nil_r.
  - cbn [fold_left List.filter]. unfold parse_step at 2.
    unfold is_word, is_tag, is_bang, is_at.
    destruct (startswith "#" tok); cbn [negb andb].
    { rewrite IH. by rewrite <- app_assoc. }
    destruct (startswith "!" tok); cbn [negb andb].
    { rewrite IH. cbn [List.map]. by rewrite last_cons. }
    destruct (startswith "@" tok); cbn [negb andb].
    { rewrite IH. cbn [List.map]. by rewrite last_cons. }
    rewrite IH. by rewrite <- app_assoc.
Qed.

(** X3. [parse_task_args] sorts the whitespace-separated tokens by their
    first character: tokens starting with # are the tags, joined by single
    spaces in their order; the priority is the text after ! of the last
    token starting with !, and "med" when there is none; the due time is
    the text after the at-sign of the last token starting with it, and
    missing when there is none; all other tokens, joined by single spaces,
    are the title.  A missing or blank argument gives the empty title. *)
Theorem parse_task_args_by_kind args :
  let toks := split (or_empty args) in
  parse_task_args args
  = (strip (String.concat " " (List.filter is_word toks)),
     String.concat " " (List.filter is_tag toks),
     List.last (List.map from1 (List.filter is_bang toks)) "med",
     List.last (List.map (fun t => Some (from1 t)) (List.filter is_at toks)) None)
  /\ (truthy args = false -> parse_task_args args = ("", "", "med", None)).
Proof.
  intros toks. split.
  - unfold parse_task_args, parse_tokens. fold toks.
    by rewrite fold_parse_by_kind.
  - intros H. destruct args as [[|c s]|]; try done.
Qed.

(** *** Characters *)

Lemma chars_cons c s :
  chars (String c s)
  = match chars s with
    | g :: gs => if starts_cont g then String c g :: gs
                 else String c "" :: g :: gs
    | [] => [String c ""]
    end.
Proof. reflexivity. Qed.

Lemma chars_nil s : chars s = [] -> s = "".
Proof.
  destruct s as [|c s]; [done|]. cbn [chars].
  destruct (chars s) as [|g gs]; [done|]. by destruct (starts_cont g).
Qed.

Lemma chars_head s : starts_cont (List.hd "" (chars s)) = starts_cont s.
Proof.
  destruct s as [|c s]; [done|]. cbn [chars].
  destruct (chars s) as [|g gs]; [done|]. by destruct (starts_cont g).
Qed.

Lemma chars_app a b :
  starts_cont b = false -> chars (a ++ b) = (chars a ++ chars b)%list.
Proof.
  intros Hb. induction a as [|c a IH]; [done|].
  change (String c a ++ b) with (String c (a ++ b)). cbn [chars]. rewrite IH.
  destruct (chars a) as [|g gs] eqn:Ea; [|cbn [app]; by destruct (starts_cont g)].
  apply chars_nil in Ea. subst a. cbn [app chars].
  pose proof (chars_head b) as Hh. rewrite Hb in Hh.
  destruct (chars b) as [|g gs]; [done|]. cbn [List.hd] in Hh. by rewrite Hh.
Qed.

Lemma chars_char_go c r : all_cont r = true -> chars (String c r) = [String c r].
Proof.
  revert c. induction r as [|d r IH]; intros c H; [done|].
  cbn [all_cont] in H. apply andb_true_iff in H as [Hd Hr].
  rewrite chars_cons, (IH d Hr). cbn [starts_cont]. by rewrite Hd.
Qed.

Lemma chars_char g : is_char g = true -> chars g = [g].
Proof. destruct g as [|c r]; [done|]. apply chars_char_go. Qed.

Lemma is_char_nonempty g : is_char g = true -> is_empty g = false.
Proof. by destruct g. Qed.

Lemma concat_cons x xs : String.concat "" (x :: xs) = x ++ String.concat "" xs.
Proof.
  destruct xs as [|y ys]; [|done]. cbn [String.concat].
  induction x as [|c x IH]; [done|].
  change (String c x = String c (x ++ "")). by f_equal.
Qed.

Lemma concat_chars s : String.concat "" (chars s) = s.
Proof.
  induction s as [|c s IH]; [done|]. cbn [chars].
  destruct (chars s) as [|g gs].
  - cbn in IH. by subst s.
  - rewrite concat_cons in IH. destruct (starts_cont g).
    + rewrite concat_cons. change (String c (g ++ String.concat "" gs) = String c s).
      by f_equal.
    + rewrite !concat_cons. change (String c (g ++ String.concat "" gs) = String c s).
      by f_equal.
Qed.

(** What [chars] returns: characters, of which only the first may start
    with a stray continuation byte. *)
Lemma chars_shape s :
  Forall (fun g => is_char g = true) (chars s) /\
  Forall (fun g => starts_cont g = false) (List.tl (chars s)).
Proof.
  induction s as [|c s [IH1 IH2]]; [by split|]. cbn [chars].
  destruct (chars s) as [|g gs]; [by repeat constructor|].
  inversion IH1 as [|? ? Hg Hgs]; subst.
  destruct (starts_cont g) eqn:Eg; cbn [List.tl] in *.
  - split; [|done]. constructor; [|done].
    destruct g as [|d r]; [done|]. cbn [is_char all_cont starts_cont] in *.
    by rewrite Eg, Hg.
  - split; [by repeat constructor|]. by constructor.
Qed.

(** *** Tokens *)

Lemma is_empty_app a b : is_empty (a ++ b) = is_empty a && is_empty b.
Proof. by destruct a. Qed.

Lemma starts_cont_app a b :
  is_empty a = false -> starts_cont (a ++ b) = starts_cont a.
Proof. by destruct a. Qed.

Lemma chars_snoc cur ch :
  is_char ch = true -> is_empty cur = true \/ starts_cont ch = false ->
  chars (cur ++ ch) = (chars cur ++ [ch])%list.
Proof.
  intros Hch [Hc|Hc].
  - destruct cur; [|discriminate Hc]. change (chars ch = [ch]). by apply chars_char.
  - rewrite chars_app by done. by rewrite (chars_char ch Hch).
Qed.

Lemma split_go_tokens l cur :
  Forall (fun g => is_char g = true) l ->
  Forall (fun g => starts_cont g = false) (if is_empty cur then List.tl l else l) ->
  no_space cur = true ->
  Forall is_token (split_go l cur).
Proof.
  revert cur. induction l as [|ch l IH]; intros cur Hl Hc Hcur; cbn [split_go].
  - destruct (is_empty cur) eqn:E; [constructor|]. by repeat constructor.
  - inversion Hl as [|? ? Hch Hl']; subst.
    assert (Hl'c : Forall (fun g => starts_cont g = false) l).
    { destruct (is_empty cur); [done|]. by inversion Hc. }
    destruct (is_space ch) eqn:Ec.
    + destruct (is_empty cur) eqn:E.
      * apply IH; [done| |done]. cbn. by apply Forall_tail.
      * constructor; [done|]. apply IH; [done| |done]. cbn. by apply Forall_tail.
    + apply IH; [done| |].
      * rewrite is_empty_app, (is_char_nonempty _ Hch), andb_false_r. done.
      * unfold no_space in *. rewrite chars_snoc.
        -- rewrite forallb_app, Hcur. cbn. by rewrite Ec.
        -- done.
        -- destruct (is_empty cur) eqn:E; [by left|right]. by inversion Hc.
Qed.

Lemma split_tokens s : Forall is_token (split s).
Proof.
  destruct (chars_shape s) as [H1 H2]. by apply split_go_tokens.
Qed.

(** Past the first character every token starts on a character boundary. *)
Lemma split_go_clean l cur :
  Forall (fun g => is_char g = true) l ->
  Forall (fun g => starts_cont g = false) l ->
  starts_cont cur = false ->
  Forall (fun tok => starts_cont tok = false) (split_go l cur).
Proof.
  revert cur. induction l as [|ch l IH]; intros cur Hl Hc Hcur; cbn [split_go].
  - destruct (is_empty cur); by repeat constructor.
  - inversion Hl; inversion Hc; subst.
    destruct (is_space ch).
    + destruct (is_empty cur); [by apply IH|]. constructor; [done|]. by apply IH.
    + apply IH; [done..|]. destruct cur as [|c cur]; [done|]. done.
Qed.

Lemma split_go_tail_clean l cur :
  Forall (fun g => is_char g = true) l ->
  Forall (fun g => starts_cont g = false) (if is_empty cur then List.tl l else l) ->
  Forall (fun tok => starts_cont tok = false) (List.tl (split_go l cur)).
Proof.
  revert cur. induction l as [|ch l IH]; intros cur Hl Hc; cbn [split_go].
  - by destruct (is_empty cur).
  - inversion Hl as [|? ? Hch Hl']; subst.
    assert (Hl'c : Forall (fun g => starts_cont g = false) l).
    { destruct (is_empty cur); [done|]. by inversion Hc. }
    destruct (is_space ch).
    + destruct (is_empty cur).
      * apply Forall_tail. by apply split_go_clean.
      * cbn [List.tl]. by apply split_go_clean.
    + apply IH; [done|].
      by rewrite is_empty_app, (is_char_nonempty _ Hch), andb_false_r.
Qed.

Lemma split_tail_clean s :
  Forall (fun tok => starts_cont tok = false) (List.tl (split s)).
Proof.
  destruct (chars_shape s) as [H1 H2]. by apply split_go_tail_clean.
Qed.

Lemma Forall_tail_filter {A} (P : A -> Prop) (f : A -> bool) l :
  Forall P (List.tl l) -> Forall P (List.tl (List.filter f l)).
Proof.
  destruct l as [|x l]; [done|]. cbn [List.tl List.filter]. intros H.
  assert (Hf : Forall P (List.filter f l)).
  { apply Forall_forall. intros y Hy. rewrite Forall_forall in H. apply H.
    apply list_elem_of_In in Hy. apply List.filter_In in Hy as [Hy _].
    by apply list_elem_of_In. }
  destruct (f x); [done|]. by apply Forall_tail.
Qed.

Lemma concat_tokens_nonempty toks :
  Forall is_token toks -> toks <> [] -> is_empty (String.concat " " toks) = false.
Proof.
  intros H Hne. destruct H as [|tok toks [Htok _] _]; [done|].
  destruct tok as [|c tok]; [done|]. by destruct toks.
Qed.

(** *** The joined title needs no stripping *)

(** A list of characters that ends in one that is no whitespace. *)
Lemma rstrip_id l x : is_space x = false -> rstrip (l ++ [x]) = (l ++ [x])%list.
Proof.
  intros H. induction l as [|g l IH]; cbn [rstrip app].
  - by rewrite H.
  - rewrite IH. by destruct l.
Qed.

Lemma lstrip_id g l : is_space g = false -> lstrip (g :: l) = g :: l.
Proof. intros H. cbn. by rewrite H. Qed.

Lemma token_head tok :
  is_token tok -> exists g l, chars tok = g :: l /\ is_space g = false.
Proof.
  intros [Hne Hns]. unfold no_space in Hns.
  destruct (chars tok) as [|g l] eqn:E.
  - apply chars_nil in E. by subst.
  - exists g, l. split; [done|]. cbn in Hns.
    apply andb_true_iff in Hns as [Hg _]. by apply negb_true_iff.
Qed.

Lemma token_last tok :
  is_token tok -> exists l x, chars tok = (l ++ [x])%list /\ is_space x = false.
Proof.
  intros [Hne Hns]. unfold no_space in Hns.
  destruct (chars tok) as [|g gs _] eqn:E using rev_ind.
  - apply chars_nil in E. by subst.
  - exists gs, g. split; [done|].
    rewrite forallb_app in Hns. apply andb_true_iff in Hns as [_ Hg].
    cbn in Hg. rewrite andb_true_r in Hg. by apply negb_true_iff.
Qed.

Lemma chars_join w ws :
  Forall (fun tok => is_empty tok = false /\ starts_cont tok = false) ws ->
  chars (String.concat " " (w :: ws))
  = (chars w ++ List.flat_map (fun x => " " :: chars x) ws)%list.
Proof.
  revert w. induction ws as [|w' ws IH]; intros w H.
  - cbn. by rewrite app_nil_r.
  - inversion H as [|? ? [Hne Hc] Hws]; subst.
    change (String.concat " " (w :: w' :: ws))
      with (w ++ String " " (String.concat " " (w' :: ws))).
    rewrite chars_app by done. f_equal.
    change (String " " (String.concat " " (w' :: ws)))
      with (" " ++ String.concat " " (w' :: ws)).
    rewrite chars_app.
    + rewrite IH by done. reflexivity.
    + destruct ws; [done|]. cbn [String.concat]. by rewrite starts_cont_app.
Qed.

Lemma joined_last ws :
  Forall is_token ws -> ws <> [] ->
  exists l x, List.flat_map (fun x => " " :: chars x) ws = (l ++ [x])%list /\
              is_space x = false.
Proof.
  induction 1 as [|w ws Hw Hws IH]; intros Hne; [done|]. cbn [List.flat_map].
  destruct ws as [|w' ws'].
  - destruct (token_last w Hw) as (l & x & E & Hx).
    exists (" " :: l), x. cbn. by rewrite app_nil_r, E.
  - destruct IH as (l & x & E & Hx); [done|].
    exists (" " :: chars w ++ l)%list, x. split; [|done].
    rewrite E. cbn. by rewrite <- app_assoc.
Qed.

Lemma strip_concat_tokens toks :
  Forall is_token toks ->
  Forall (fun tok => starts_cont tok = false) (List.tl toks) ->
  strip (String.concat " " toks) = String.concat " " toks.
Proof.
  intros Ht Hc. destruct toks as [|w ws]; [done|].
  inversion Ht as [|? ? Hw Hws]; subst. cbn [List.tl] in Hc.
  assert (Hj := chars_join w ws).
  rewrite <- (concat_chars (String.concat " " (w :: ws))) at 2.
  unfold strip. f_equal. rewrite Hj.
  2:{ apply Forall_forall. intros tok Htok. split.
      - rewrite Forall_forall in Hws. by apply Hws.
      - rewrite Forall_forall in Hc. by apply Hc. }
  destruct (token_head w Hw) as (g & l & E & Hg). rewrite E.
  cbn [app]. rewrite lstrip_id by done.
  destruct ws as [|w' ws'].
  - cbn [List.flat_map]. rewrite app_nil_r, <- E.
    destruct (token_last w Hw) as (l1 & x & E1 & Hx). rewrite E1.
    by apply rstrip_id.
  - destruct (joined_last (w' :: ws') Hws) as (l1 & x & E1 & Hx); [done|].
    rewrite E1. rewrite app_assoc.
    change (g :: (l ++ l1) ++ [x])%list with ((g :: l ++ l1) ++ [x])%list.
    by apply rstrip_id.
Qed.

Lemma Forall_filter_bool {A} (P : A -> Prop) (f : A -> bool) l :
  Forall P l -> Forall P (List.filter f l).
Proof.
  induction 1 as [|x l Hx _ IH]; simpl; [constructor|].
  destruct (f x); [by constructor|done].
Qed.

(** X4. The title that [/add] and [/tomorrow] store is made of the tokens
    that start with none of #, ! and the at-sign, joined by single spaces:
    runs of whitespace in the message collapse and [strip] has nothing left
    to remove.  The title is empty, and the command refused, exactly when
    there is no such token. *)
Theorem title_is_the_plain_words args :
  let words := List.filter is_word (split (or_empty args)) in
  parsed_title (parse_task_args args) = String.concat " " words /\
  (is_empty (parsed_title (parse_task_args args)) = true <-> words = []) /\
  Forall is_token words.
Proof.
  intros words.
  assert (Hw : Forall is_token words)
    by (apply Forall_filter_bool, split_tokens).
  destruct (parse_task_args_by_kind args) as [-> _]. fold words.
  unfold parsed_title. cbn [fst].
  rewrite strip_concat_tokens
    by (done || apply Forall_tail_filter, split_tail_clean).
  split_and!; [done| |done].
  split.
  - intros H. destruct (decide (words = [])) as [E|N]; [done|].
    by rewrite concat_tokens_nonempty in H.
  - by intros ->.
Qed.

(** A no-break space separates tokens like any other whitespace. *)
Lemma parse_task_args_by_kind_witness :
  parse_task_args (Some ("x !a" ++ no_break_space ++ "b #t  @9:00"))
  = ("x b", "#t", "a", Some "9:00").
Proof.
  destruct (parse_task_args_by_kind
              (Some ("x !a" ++ no_break_space ++ "b #t  @9:00"))) as [-> _].
  reflexivity.
Defined.

Lemma title_is_the_plain_words_witness :
  parsed_title (parse_task_args (Some ("牛乳を買う" ++ ideographic_space ++ "!high")))
  = "牛乳を買う" /\
  parsed_title (parse_task_args (Some ("!high" ++ ideographic_space ++ "Gym")))
  = "Gym" /\
  is_empty (parsed_title (parse_task_args (Some ("#a " ++ no_break_space ++ "#b"))))
  = true.
Proof.
  split_and!.
  - destruct (title_is_the_plain_words
                (Some ("牛乳を買う" ++ ideographic_space ++ "!high"))) as [-> _].
    reflexivity.
  - destruct (title_is_the_plain_words
                (Some ("!high" ++ ideographic_space ++ "Gym"))) as [-> _].
    reflexivity.
  - destruct (title_is_the_plain_words
                (Some ("#a " ++ no_break_space ++ "#b"))) as (_ & H & _).
    apply H. reflexivity.
Defined.

(** ** Commands: refusals and read-only paths *)

Section MoreCommands.

Context (env : Env) (clock : Clock).
Hypothesis Hdb : forall n, db_fails env n = false.

(** X5. [/add] and [/tomorrow] without a title store no task (store
    answering): with a missing or empty argument the reply is the usage
    line, with tokens but no title it is the request for a title; tasks,
    rowid sequence and ledger are as before.  The sender is registered all
    the same, because [get_user] runs first. *)
Theorem add_without_title_stores_nothing uid args w :
  is_empty (parsed_title (parse_task_args args)) = true ->
  let ra := cmd_add env clock uid args w in
  let rt := cmd_tomorrow env clock uid args w in
  ra.1 = Ok tt /\ rt.1 = Ok tt /\
  db ra.2 = db_with_user env uid (db w) /\ db rt.2 = db_with_user env uid (db w) /\
  tasks (db ra.2) = tasks (db w) /\ tasks_seq (db ra.2) = tasks_seq (db w) /\
  sends (db ra.2) = sends (db w) /\
  select_user uid (db ra.2) = Some (user_row env uid (db w)) /\
  trace ra.2
  = (trace w ++ [EvReply uid
       (if truthy args
        then "Please include a task title. Example: /add Finish module"
        else "Usage: /add Finish module #study !high @18:00")])%list /\
  trace rt.2
  = (trace w ++ [EvReply uid
       (if truthy args
        then "Please include a task title. Example: /tomorrow Gym"
        else "Usage: /tomorrow Gym @07:00")])%list.
Proof.
  intros Htitle ra rt.
  destruct (db_with_user_tasks env uid (db w)) as (Ht & Hs & Hl).
  assert (Hsel : select_user uid (db_with_user env uid (db w))
                 = Some (user_row env uid (db w))).
  { rewrite select_user_db_with_user. by rewrite bool_decide_eq_true_2. }
  unfold ra, rt, cmd_add, cmd_tomorrow.
  erewrite !bind_ok by (by apply get_user_run).
  destruct (parse_task_args args) as [[[title tags] priority] due].
  unfold parsed_title in Htitle. cbn [fst] in Htitle. rewrite Htitle.
  destruct (truthy args); cbn [negb]; by split_and!.
Qed.

(** X6. [/list] is read-only on tasks and ledger (store and zone
    answering): it sends one reply, the fixed "no tasks" line when the
    sender has no row for today, otherwise one [fmt_task] line per row of
    today in the order of the listing, and every row of today is listed. *)
Theorem list_shows_today uid w :
  ZoneInfo_ok env (tz (user_row env uid (db w))) = true ->
  let today := dt_date (clock (tz (user_row env uid (db w)))) in
  let rows := tasks_ordered uid today (db w) in
  let r := cmd_list env clock uid w in
  r.1 = Ok tt /\
  tasks (db r.2) = tasks (db w) /\ sends (db r.2) = sends (db w) /\
  trace r.2
  = (trace w ++ [EvReply uid
       match tasks_on uid today (db w) with
       | [] => "No tasks for today. Use /add or the buttons below."
       | _ => String.concat nl (List.map fmt_task rows)
       end])%list /\
  rows ≡ₚ tasks_on uid today (db w).
Proof.
  intros Hz today rows r.
  destruct (db_with_user_tasks env uid (db w)) as (Ht & Hs & Hl).
  assert (Hperm : rows ≡ₚ tasks_on uid today (db w)) by apply order_by_perm.
  assert (Hrows : tasks_ordered (user_id (user_row env uid (db w))) today
                    (db_with_user env uid (db w)) = rows).
  { unfold rows, tasks_ordered, tasks_on. by rewrite user_row_id, Ht. }
  unfold r, cmd_list.
  erewrite bind_ok by (by apply get_user_run).
  erewrite bind_ok.
  2:{ rewrite closing_db_run by done. unfold today_local, now_local.
      rewrite Hz. reflexivity. }
  cbn [db mkWorld tick_db]. fold today. rewrite Hrows.
  destruct rows as [|t rows'] eqn:E.
  - apply Permutation_nil_l in Hperm. rewrite <- Hperm. by split_and!.
  - destruct (tasks_on uid today (db w)) as [|t' l'] eqn:E'.
    + by apply Permutation_nil_r in Hperm.
    + by split_and!.
Qed.


(** X8. [/done] with a missing argument or one that [str.isdigit] rejects
    (it holds a sign, a space, a letter, or is empty) does nothing but
    reply with the usage line: the database is not even opened.  Which
    characters beyond ASCII count as digits is up to the character
    database of the interpreter. *)
Theorem done_refuses_non_digits x args w :
  truthy args = false \/ isdigit env (or_empty args) = false ->
  cmd_done env x args w = (Ok tt, emit_all [EvReply x done_usage] w).
Proof.
  intros H. unfold cmd_done.
  destruct H as [-> | ->]; cbn [negb orb]; [done|]. by rewrite orb_true_r.
Qed.

End MoreCommands.

Lemma filter_open_set_done uid day k l :
  filter (fun t => t_user_id t = uid /\ t_day t = day /\ t_status t = "open")
         (List.map (set_done k) l)
  = filter (fun t => t_id t <> k)
      (filter (fun t => t_user_id t = uid /\ t_day t = day /\ t_status t = "open") l).
Proof.
  induction l as [|t l IH]; [done|]. cbn [List.map].
  destruct (decide (t_id t = k)) as [E|N].
  - rewrite (filter_cons_False _ (set_done k t)).
    2:{ unfold set_done. rewrite bool_decide_eq_true_2 by done.
        by intros (_ & _ & ?). }
    rewrite IH.
    destruct (decide (t_user_id t = uid /\ t_day t = day /\ t_status t = "open"))
      as [P|P].
    + rewrite (filter_cons_True _ t) by done.
      by rewrite filter_cons_False by (intros ?; done).
    + by rewrite (filter_cons_False _ t) by done.
  - assert (Et : set_done k t = t)
      by (unfold set_done; by rewrite bool_decide_eq_false_2).
    rewrite Et.
    destruct (decide (t_user_id t = uid /\ t_day t = day /\ t_status t = "open"))
      as [P|P].
    + rewrite !(filter_cons_True _ t) by done. by rewrite IH.
    + by rewrite !(filter_cons_False _ t) by done.
Qed.

Lemma set_done_idem k t : set_done k (set_done k t) = set_done k t.
Proof.
  unfold set_done. destruct (bool_decide (t_id t = k)) eqn:E; simpl; by rewrite E.
Qed.

(** X9. What [/done] leaves behind (store answering, the ids of the table
    in the range of SQLite's integers): a row with the given id is no
    longer open, so for every user and day the open rows, the ones the next
    carry-over copies and the digest lists under "Yesterday", are the
    former open rows without that id; the table keeps its length and its
    ids; a second [/done] with the same id changes nothing more. *)
Theorem done_removes_from_open env x args k w :
  (forall n, db_fails env n = false) ->
  isdigit env args = true -> int env args = Some k ->
  (forall t, t ∈ tasks (db w) -> t_id t < 2 ^ 63) ->
  let w1 := (cmd_done env x (Some args) w).2 in
  (forall uid day,
     open_tasks_on uid day (db w1)
     = filter (fun t => t_id t <> k) (open_tasks_on uid day (db w))) /\
  List.map t_id (tasks (db w1)) = List.map t_id (tasks (db w)) /\
  tasks (db (cmd_done env x (Some args) w1).2) = tasks (db w1).
Proof.
  intros Hdb Hdig Hint Hids w1.
  destruct (Z.lt_ge_cases k (2 ^ 63)) as [Hk|Hk].
  - assert (Ht : tasks (db w1) = List.map (set_done k) (tasks (db w)))
      by (unfold w1; by rewrite (cmd_done_run env x args k w)).
    assert (Ht2 : tasks (db (cmd_done env x (Some args) w1).2)
                  = List.map (set_done k) (tasks (db w1)))
      by (by rewrite (cmd_done_run env x args k w1)).
    split_and!.
    + intros uid day. unfold open_tasks_on. rewrite Ht. apply filter_open_set_done.
    + rewrite Ht, List.map_map. apply List.map_ext. intros t.
      unfold set_done. by destruct (bool_decide (t_id t = k)).
    + rewrite Ht2, Ht, List.map_map. apply List.map_ext, set_done_idem.
  - assert (Ew : w1 = tick_db w)
      by (unfold w1; by rewrite (cmd_done_overflow env x args k w)).
    rewrite Ew. split_and!.
    + intros uid day. cbn [db tick_db]. symmetry. apply filter_all.
      apply Forall_forall. intros t Ht.
      apply list_elem_of_filter in Ht as [_ Ht]. specialize (Hids t Ht). lia.
    + done.
    + by rewrite (cmd_done_overflow env x args k (tick_db w)).
Qed.

Lemma add_without_title_stores_nothing_witness :
  let ra := cmd_add env_ok (at_hour 101 9) 7 (Some "#home !high") world_morning in
  is_empty (parsed_title (parse_task_args (Some "#home !high"))) = true /\
  tasks (db ra.2) = tasks (db world_morning) /\
  trace ra.2
  = [EvReply 7 "Please include a task title. Example: /add Finish module"].
Proof.
  intros ra.
  destruct (add_without_title_stores_nothing env_ok (at_hour 101 9)
              (fun _ => eq_refl) 7 (Some "#home !high") world_morning eq_refl)
    as (_ & _ & _ & _ & Ht & _ & _ & _ & Hr & _).
  split; [reflexivity|]. split; [exact Ht|exact Hr].
Defined.

Lemma list_shows_today_witness :
  let r := cmd_list env_ok (at_hour 101 9) 7 world_morning in
  ZoneInfo_ok env_ok (tz (user_row env_ok 7 (db world_morning))) = true /\
  tasks (db r.2) = tasks (db world_morning) /\
  trace r.2 = [EvReply 7 (fmt_task task_call)].
Proof.
  intros r.
  destruct (list_shows_today env_ok (at_hour 101 9) (fun _ => eq_refl) 7
              world_morning eq_refl) as (_ & Ht & _ & Hr & _).
  split; [reflexivity|]. split; [exact Ht|exact Hr].
Defined.


Lemma done_refuses_non_digits_witness :
  isdigit env_ok "-3" = false /\
  cmd_done env_ok 7 (Some "-3") world_morning
  = (Ok tt, emit_all [EvReply 7 done_usage] world_morning).
Proof.
  split; [reflexivity|].
  apply (done_refuses_non_digits env_ok 7 (Some "-3") world_morning).
  right. reflexivity.
Defined.

Lemma done_removes_from_open_witness :
  let w1 := (cmd_done env_ok 9 (Some "1") world_morning).2 in
  isdigit env_ok "1" = true /\ int env_ok "1" = Some 1 /\
  open_tasks_on 7 100 (db world_morning) = [task_milk] /\
  open_tasks_on 7 100 (db w1) = [].
Proof.
  intros w1.
  assert (Hids : forall t, t ∈ tasks (db world_morning) -> t_id t < 2 ^ 63).
  { intros t Ht. apply list_elem_of_In in Ht. simpl in Ht.
    destruct Ht as [<-|[<-|[<-|[]]]]; reflexivity. }
  destruct (done_removes_from_open env_ok 9 "1" 1 world_morning
              (fun _ => eq_refl) eq_refl eq_refl Hids) as (Ho & _ & _).
  split; [reflexivity|]. split; [reflexivity|]. split; [reflexivity|].
  unfold w1. rewrite (Ho 7 100). reflexivity.
Defined.

(** ** What every outcome of a tick keeps *)

Lemma keeps_ret {A} J (a : A) : keeps J (ret a).
Proof. by intros w H. Qed.

Lemma keeps_raise {A} J e : keeps J (@raise A e).
Proof. by intros w H. Qed.

Lemma keeps_bind {A B} J (m : M A) (k : A -> M B) :
  keeps J m -> (forall a, keeps J (k a)) -> keeps J (bind m k).
Proof.
  intros Hm Hk w H. unfold bind. specialize (Hm w H).
  destruct (m w) as [[a|e] w1]; cbn [snd] in *; [by apply Hk|done].
Qed.

Lemma keeps_try_except {A} J (m : M A) h :
  keeps J m -> (forall e, keeps J (h e)) -> keeps J (try_except m h).
Proof.
  intros Hm Hh w H. unfold try_except. specialize (Hm w H).
  destruct (m w) as [[a|e] w1]; cbn [snd] in *; [done|by apply Hh].
Qed.

Lemma keeps_for_each {A} J (xs : list A) body :
  (forall x, x ∈ xs -> keeps J (body x)) -> keeps J (for_each xs body).
Proof.
  induction xs as [|x xs IH]; intros Hb; cbn [for_each].
  - apply keeps_ret.
  - apply keeps_bind; [apply Hb; by left|].
    intros _. apply IH. intros y Hy. apply Hb. by right.
Qed.

Lemma keeps_query {A} J (f : DB -> A) : keeps J (query f).
Proof. by intros w H. Qed.

Section Stable.

Context (env : Env) (J : World -> Prop).
Hypothesis J_stable : forall w w', db w' = db w -> trace w' = trace w -> J w -> J w'.

Lemma keeps_closing_db {A} (body : M A) : keeps J body -> keeps J (closing_db env body).
Proof.
  intros Hb w H. unfold closing_db.
  assert (H' : J (tick_db w)) by (by apply (J_stable w)).
  destruct (db_fails env (db_calls w)); [done|by apply Hb].
Qed.

Lemma keeps_was_sent uid kind d h : keeps J (was_sent env uid kind d h).
Proof. apply keeps_closing_db, keeps_query. Qed.

Lemma keeps_send_message_job uid text :
  (forall w b, J w -> J (emit_all [EvSend uid text b] w)) ->
  (forall w t, J w -> J (emit_all [EvPrint t] w)) ->
  keeps J (send_message_job env uid text).
Proof.
  intros Hs Hp w H. unfold send_message_job, try_except, bot_send_message.
  assert (H' : J (tick_send w)) by (by apply (J_stable w)).
  destruct (send_fails env (send_calls w)); cbn [snd].
  - unfold emit. cbn [snd]. by apply Hp, Hs.
  - by apply Hs.
Qed.

Lemma keeps_mark_sent uid kind d h :
  (forall w, J w -> J (marked (uid, kind, d, h) w)) ->
  keeps J (mark_sent env uid kind d h).
Proof.
  intros Hm. apply keeps_closing_db. intros w H. by apply Hm.
Qed.

Lemma keeps_insert_task uid title day due priority tags :
  (forall w, J w -> J (task_added uid title day due priority tags w)) ->
  keeps J (let* row := sql (insert_task uid title day due priority tags) in
           emit (EvInsert row)).
Proof. intros Ht w H. by apply Ht. Qed.

End Stable.

Lemma select_user_listed u d : u ∈ users d -> select_user (user_id u) d <> None.
Proof.
  intros Hu H. by apply (proj1 (select_user_none _ _) H u).
Qed.

Section Tick.

Context (env : Env) (clock : Clock) (I : World -> Prop) (us : list User).
Hypothesis atoms : tick_atoms I us.

Local Notation J := (fun w => users (db w) = us /\ I w).

Lemma tick_J_stable w w' : db w' = db w -> trace w' = trace w -> J w -> J w'.
Proof.
  intros Hd Ht [Hu Hi]. split; [by rewrite Hd|]. by apply (ta_stable I us atoms w).
Qed.

Lemma keeps_job_send u text :
  u ∈ us -> keeps J (send_message_job env (user_id u) text).
Proof.
  intros Hu. apply keeps_send_message_job.
  - apply tick_J_stable.
  - intros w b [E Hi]. split; [done|]. by apply (ta_send I us atoms).
  - intros w t [E Hi]. split; [done|]. by apply (ta_print I us atoms).
Qed.

Lemma keeps_job_mark u kind d h :
  u ∈ us -> scheduled kind h -> keeps J (mark_sent env (user_id u) kind d h).
Proof.
  intros Hu Hs. apply keeps_mark_sent; [apply tick_J_stable|].
  intros w [E Hi]. split; [done|]. by apply (ta_mark I us atoms).
Qed.

Lemma keeps_do_carry_over u local_now :
  u ∈ us -> keeps J (do_carry_over env u local_now).
Proof.
  intros Hu. unfold do_carry_over.
  apply keeps_bind; [apply keeps_was_sent, tick_J_stable|]. intros sent.
  destruct sent; [apply keeps_ret|].
  apply keeps_bind.
  { apply keeps_closing_db; [apply tick_J_stable|].
    apply keeps_bind; [apply keeps_query|]. intros rows.
    apply keeps_bind; [|intros _; apply keeps_ret].
    apply keeps_for_each. intros r _. apply keeps_insert_task.
    intros w [E Hi]. split; [done|]. by apply (ta_task I us atoms). }
  intros rows. apply keeps_bind.
  - destruct rows; [apply keeps_ret|by apply keeps_job_send].
  - intros _. apply keeps_job_mark; [done|]. right. by left.
Qed.

Lemma keeps_do_daily_digest u local_now :
  u ∈ us -> keeps J (do_daily_digest env u local_now).
Proof.
  intros Hu. unfold do_daily_digest.
  destruct (negb (dt_hour local_now =? 8)); [apply keeps_ret|].
  apply keeps_bind; [apply keeps_was_sent, tick_J_stable|]. intros sent.
  destruct sent; [apply keeps_ret|].
  apply keeps_bind; [apply keeps_closing_db; [apply tick_J_stable|apply keeps_query]|].
  intros y_open. apply keeps_bind; [by apply keeps_do_carry_over|]. intros _.
  apply keeps_bind; [apply keeps_closing_db; [apply tick_J_stable|apply keeps_query]|].
  intros rows. apply keeps_bind; [by apply keeps_job_send|]. intros _.
  apply keeps_job_mark; [done|]. by left.
Qed.

Lemma keeps_do_tomorrow_prompt u local_now :
  u ∈ us -> keeps J (do_tomorrow_prompt env u local_now).
Proof.
  intros Hu. unfold do_tomorrow_prompt.
  destruct (decide (dt_hour local_now ∈ prompt_hours)) as [Hh|Hh].
  2:{ rewrite bool_decide_eq_false_2 by done. apply keeps_ret. }
  rewrite bool_decide_eq_true_2 by done. cbn [negb].
  apply keeps_bind; [apply keeps_was_sent, tick_J_stable|]. intros sent.
  destruct sent; [apply keeps_ret|].
  apply keeps_bind; [by apply keeps_job_send|]. intros _.
  apply keeps_job_mark; [done|]. right. by right.
Qed.

Lemma keeps_tick_user u : u ∈ us -> keeps J (tick_user env clock u).
Proof.
  intros Hu. unfold tick_user, now_local.
  apply keeps_bind.
  { destruct (ZoneInfo_ok env (tz u)); [apply keeps_ret|apply keeps_raise]. }
  intros n. apply keeps_bind; [by apply keeps_do_daily_digest|].
  intros _. by apply keeps_do_tomorrow_prompt.
Qed.

Lemma hourly_tick_keeps w :
  users (db w) = us -> I w ->
  users (db (hourly_tick env clock w).2) = us /\ I (hourly_tick env clock w).2.
Proof.
  intros E Hi. unfold hourly_tick, bind, closing_db.
  assert (H' : J (tick_db w)) by (by apply (tick_J_stable w)).
  destruct (db_fails env (db_calls w)); [done|].
  cbn [query fst snd db tick_db]. rewrite E.
  apply (keeps_for_each J us (tick_user env clock)); [|done].
  intros u Hu. by apply keeps_tick_user.
Qed.

End Tick.

(** ** What every handler and job keeps *)

Lemma keeps_today_local env clock J u : keeps J (today_local env clock u).
Proof.
  unfold today_local, now_local. apply keeps_bind; [|intros; apply keeps_ret].
  destruct (ZoneInfo_ok env (tz u)); [apply keeps_ret|apply keeps_raise].
Qed.

Section Ops.

Context (env : Env) (I : World -> Prop).
Hypothesis atoms : op_atoms env I.

Lemma op_tick_atoms us : tick_atoms I us.
Proof.
  split.
  - apply (oa_stable env I atoms).
  - intros w u title day due priority tags Hu E Hi.
    apply (oa_task env I atoms); [|done].
    apply select_user_listed. by rewrite E.
  - intros w u kind day hour Hu Hs E Hi.
    apply (oa_mark env I atoms); [|done|done].
    apply select_user_listed. by rewrite E.
  - intros w u text b Hu E Hi.
    apply (oa_send env I atoms); [|done].
    apply select_user_listed. by rewrite E.
  - intros w text _ Hi. by apply (oa_print env I atoms).
Qed.

Lemma keeps_reply uid text : keeps I (reply uid text).
Proof. intros w H. by apply (oa_reply env I atoms). Qed.

Lemma keeps_cmd_done uid args : keeps I (cmd_done env uid args).
Proof.
  unfold cmd_done.
  destruct (negb (truthy args) || negb (isdigit env (or_empty args)));
    [apply keeps_reply|].
  apply keeps_bind.
  { destruct (int env (or_empty args)); [apply keeps_ret|apply keeps_raise]. }
  intros k. apply keeps_bind; [|intros _; apply keeps_reply].
  apply keeps_closing_db; [apply (oa_stable env I atoms)|].
  destruct (2 ^ 63 <=? k); [apply keeps_raise|].
  intros w H. by apply (oa_update_done env I atoms).
Qed.

Lemma keeps_cmd_tz uid args : keeps I (cmd_tz env uid args).
Proof.
  unfold cmd_tz. destruct (truthy args) eqn:Ht; cbn [negb]; [|apply keeps_reply].
  destruct (ZoneInfo_ok env (or_empty args)) eqn:Hz; [|apply keeps_reply].
  apply keeps_bind; [|intros _; apply keeps_reply].
  unfold set_tz. apply keeps_closing_db; [apply (oa_stable env I atoms)|].
  intros w H. apply (oa_upsert_tz env I atoms); [done| |done].
  destruct args as [s|]; [|done]. simpl in *. by destruct (is_empty s).
Qed.

(** After [get_user], the sender has a row. *)
Lemma get_user_keeps uid w :
  I w ->
  I (get_user env uid w).2 /\
  forall u, (get_user env uid w).1 = Ok u ->
    user_id u = uid /\ select_user uid (db (get_user env uid w).2) <> None.
Proof.
  intros Hi. unfold get_user, closing_db.
  assert (H' : I (tick_db w)) by (by apply (oa_stable env I atoms w)).
  destruct (db_fails env (db_calls w)); [by split|].
  unfold bind, query. cbn [db tick_db].
  destruct (select_user uid (db w)) as [v|] eqn:E; cbn [fst snd].
  - split; [done|]. intros u [= <-]. split; [by apply select_user_id in E|].
    cbn. by rewrite E.
  - split.
    + by apply (oa_insert_user env I atoms (tick_db w)).
    + intros u [= <-]. split; [done|].
      change (select_user uid (insert_user uid (DEFAULT_TZ env) (db w)) <> None).
      rewrite select_user_insert by done. by rewrite bool_decide_eq_true_2.
Qed.

Local Notation Jc uid := (fun w => I w /\ select_user uid (db w) <> None).

Lemma Jc_stable uid w w' :
  db w' = db w -> trace w' = trace w -> Jc uid w -> Jc uid w'.
Proof.
  intros Hd Ht [Hi Hs]. split; [by apply (oa_stable env I atoms w)|by rewrite Hd].
Qed.

Lemma keeps_Jc_reply uid c text : keeps (Jc uid) (reply c text).
Proof. intros w [Hi Hs]. split; [by apply (oa_reply env I atoms)|done]. Qed.

Lemma keeps_Jc_insert clock uid u title (offset : Z) due priority tags :
  user_id u = uid ->
  keeps (Jc uid)
    (closing_db env (
       let* today := today_local env clock u in
       let* row := sql (insert_task (user_id u) title (today + offset)
                                    due priority tags) in
       emit (EvInsert row))).
Proof.
  intros Eu. apply keeps_closing_db; [apply Jc_stable|].
  apply keeps_bind; [apply keeps_today_local|]. intros today.
  apply keeps_insert_task. intros w [Hi Hs]. rewrite Eu. split; [|done].
  by apply (oa_task env I atoms).
Qed.

Lemma with_user uid w (rest : User -> M unit) :
  (forall u, user_id u = uid -> keeps (Jc uid) (rest u)) ->
  I w -> I (bind (get_user env uid) rest w).2.
Proof.
  intros Hrest Hi. destruct (get_user_keeps uid w Hi) as [H1 H2].
  unfold bind. destruct (get_user env uid w) as [[u|e] w1]; cbn [fst snd] in *;
    [|done].
  destruct (H2 u eq_refl) as [Eu Hs]. by apply (Hrest u Eu).
Qed.

Lemma keeps_cmd_start uid : keeps I (cmd_start env uid).
Proof.
  intros w Hi. unfold cmd_start. apply with_user; [|done].
  intros u _. apply keeps_Jc_reply.
Qed.

Lemma keeps_cmd_add clock uid args : keeps I (cmd_add env clock uid args).
Proof.
  intros w Hi. unfold cmd_add. apply with_user; [|done]. intros u Eu.
  destruct (negb (truthy args)); [apply keeps_Jc_reply|].
  destruct (parse_task_args args) as [[[title tags] priority] due].
  destruct (is_empty title); [apply keeps_Jc_reply|].
  apply keeps_bind; [|intros _; apply keeps_Jc_reply].
  pose proof (keeps_Jc_insert clock uid u title 0 due priority tags Eu) as H.
  intros w1 H1. specialize (H w1 H1).
  unfold closing_db, bind, today_local, now_local in *.
  destruct (db_fails env (db_calls w1)); [done|].
  destruct (ZoneInfo_ok env (tz u)); [|done].
  cbn in *. by rewrite Z.add_0_r in H.
Qed.

Lemma keeps_cmd_tomorrow clock uid args : keeps I (cmd_tomorrow env clock uid args).
Proof.
  intros w Hi. unfold cmd_tomorrow. apply with_user; [|done]. intros u Eu.
  destruct (negb (truthy args)); [apply keeps_Jc_reply|].
  destruct (parse_task_args args) as [[[title tags] priority] due].
  destruct (is_empty title); [apply keeps_Jc_reply|].
  apply keeps_bind; [|intros _; apply keeps_Jc_reply].
  by apply (keeps_Jc_insert clock uid u title 1 due priority tags).
Qed.

Lemma keeps_cmd_list clock uid : keeps I (cmd_list env clock uid).
Proof.
  intros w Hi. unfold cmd_list. apply with_user; [|done]. intros u Eu.
  apply keeps_bind.
  - apply keeps_closing_db; [apply Jc_stable|].
    apply keeps_bind; [apply keeps_today_local|]. intros; apply keeps_query.
  - intros rows. destruct rows; apply keeps_Jc_reply.
Qed.

Lemma run_op_keeps clock o : keeps I (run_op env clock o).
Proof.
  destruct o; cbn [run_op].
  - apply keeps_cmd_start.
  - apply keeps_cmd_add.
  - apply keeps_cmd_tomorrow.
  - apply keeps_cmd_list.
  - apply keeps_cmd_done.
  - apply keeps_cmd_tz.
  - intros w Hi.
    by apply (hourly_tick_keeps env clock I (users (db w)) (op_tick_atoms _)).
Qed.

Lemma run_ops_keeps ops w : I w -> I (run_ops env ops w).
Proof.
  revert w. induction ops as [|[clock o] ops IH]; intros w Hi; [done|].
  cbn [run_ops]. by apply IH, run_op_keeps.
Qed.

End Ops.
(** ** Retries of the digest-hour logic, store faults included *)

Lemma spec_bind {A B} P Q R (m : M A) (k : A -> M B) :
  spec P m Q ->
  (forall e w, Q (Raise e) w -> R (Raise e) w) ->
  (forall a, spec (Q (Ok a)) (k a) R) ->
  spec P (bind m k) R.
Proof.
  intros Hm Hr Hk w H. unfold bind. specialize (Hm w H).
  destruct (m w) as [[a|e] w1]; cbn [fst snd] in *; [by apply Hk|by apply Hr].
Qed.

Lemma spec_keeps {A} J (m : M A) : keeps J m -> spec J m (fun _ => J).
Proof. intros H w Hw. by apply H. Qed.

Lemma spec_post {A} P (m : M A) (Q Q' : Res A -> World -> Prop) :
  spec P m Q -> (forall r w, Q r w -> Q' r w) -> spec P m Q'.
Proof. intros H HQ w Hw. by apply HQ, H. Qed.

Lemma spec_pre {A} (P P' : World -> Prop) (m : M A) Q :
  spec P m Q -> (forall w, P' w -> P w) -> spec P' m Q.
Proof. intros H HP w Hw. by apply H, HP. Qed.

Section Faulty.

Context (env : Env).

(** A ledger read leaves the database alone and, if it returns, tells the
    truth. *)
Lemma was_sent_spec d uid kind day h :
  spec (fun w => db w = d) (was_sent env uid kind day h)
    (fun r w' => db w' = d /\
       forall b, r = Ok b -> b = bool_decide ((uid, kind, day, h) ∈ sends d)).
Proof.
  intros w E. unfold was_sent, closing_db, query.
  destruct (db_fails env (db_calls w)); cbn [fst snd db tick_db].
  - split; [done|]. intros b Hb. discriminate Hb.
  - split; [done|]. intros b Hb. injection Hb as <-. by rewrite E.
Qed.

(** A ledger write that returns has written. *)
Lemma mark_sent_spec (J : World -> Prop) uid kind day h :
  (forall w w', db w' = db w -> trace w' = trace w -> J w -> J w') ->
  (forall w, J w -> J (marked (uid, kind, day, h) w)) ->
  spec J (mark_sent env uid kind day h)
    (fun r w' => J w' /\ (r = Ok tt -> (uid, kind, day, h) ∈ sends (db w'))).
Proof.
  intros Hst Hm w H. unfold mark_sent, closing_db.
  assert (H' : J (tick_db w)) by (by apply (Hst w)).
  destruct (db_fails env (db_calls w)); cbn [fst snd].
  - split; [done|]. intros Hr. discriminate Hr.
  - split; [by apply (Hm _ H')|]. intros _.
    cbn. set_solver.
Qed.

(** With its key in the ledger [do_carry_over] only reads the ledger. *)
Lemma do_carry_over_skips u ln w :
  carry_key u ln ∈ sends (db w) ->
  (do_carry_over env u ln w).2 = tick_db w.
Proof.
  intros Hin. unfold do_carry_over, bind, was_sent, closing_db, query.
  destruct (db_fails env (db_calls w)); [done|].
  cbn [db tick_db]. fold (carry_key u ln). by rewrite bool_decide_eq_true_2.
Qed.

Section Slot8.

Context (u : User) (ln : datetime) (w0 : World).

Local Notation uid := (user_id u).
Local Notation today := (dt_date ln).
Local Notation src :=
  (filter (fun t => t_user_id t = uid /\ t_day t = today - 1 /\ t_status t = "open")
          (tasks (db w0))).
Local Notation copies := (copy_rows uid today src (db w0)).1.

(** Before the copy, after it, after the "carry" row, after the "digest"
    row. *)
Local Notation S0 := (fun w => db w = db w0).
Local Notation S1 := (fun w => tasks (db w) = (tasks (db w0) ++ copies)%list).
Local Notation S2 := (fun w => S1 w /\ carry_key u ln ∈ sends (db w)).
Local Notation S3 := (fun w => S2 w /\ digest_key u ln ∈ sends (db w)).

Lemma S1_stable w w' : db w' = db w -> trace w' = trace w -> S1 w -> S1 w'.
Proof. intros E _ H. cbv beta in *. by rewrite E. Qed.

Lemma S2_stable w w' : db w' = db w -> trace w' = trace w -> S2 w -> S2 w'.
Proof. intros E _ H. cbv beta in *. by rewrite E. Qed.

Lemma keeps_job_send_S (J : World -> Prop) text :
  (forall w w', db w' = db w -> J w -> J w') ->
  keeps J (send_message_job env uid text).
Proof.
  intros Hst. apply keeps_send_message_job.
  - intros w w' E _. by apply Hst.
  - intros w b H. by apply (Hst w).
  - intros w t H. by apply (Hst w).
Qed.

Lemma copy_block_spec :
  spec S0
    (closing_db env (
       let* open_rows := query (open_tasks_on uid (today - 1)) in
       for_each open_rows (fun r =>
         let* row := sql (insert_task uid (t_title r) today
                                      (t_due_time r) (t_priority r) (t_tags r)) in
         emit (EvInsert row)) >>
       ret open_rows))
    (fun r w' => match r with Ok _ => S1 w' | Raise _ => S0 w' end).
Proof.
  intros w E. unfold closing_db.
  destruct (db_fails env (db_calls w)); cbn [fst snd]; [done|].
  erewrite bind_ok by reflexivity.
  erewrite bind_ok by apply copy_loop_run.
  cbn [ret fst snd db tick_db mkWorld]. rewrite E.
  unfold open_tasks_on. apply copy_rows_tasks.
Qed.

Lemma do_carry_over_spec :
  carry_key u ln ∉ sends (db w0) ->
  spec S0 (do_carry_over env u ln)
    (fun r w' => (S0 w' \/ S1 w') /\ (r = Ok tt -> S2 w')).
Proof.
  intros Hfree. unfold do_carry_over.
  eapply spec_bind; [apply was_sent_spec| |].
  { intros e w [E _]. split; [by left|]. intros H. discriminate H. }
  intros [|].
  { intros w [_ Hs]. specialize (Hs true eq_refl). fold (carry_key u ln) in Hs.
    rewrite bool_decide_eq_false_2 in Hs by done. discriminate Hs. }
  eapply spec_pre with (P := S0); [|by intros w [E _]].
  eapply spec_bind; [apply copy_block_spec| |].
  { intros e w E. split; [by left|]. intros H. discriminate H. }
  intros rows.
  eapply spec_bind.
  - apply (spec_keeps S1). destruct rows; [apply keeps_ret|].
    apply keeps_job_send_S. intros w w' E H. by rewrite E.
  - intros e w H. split; [by right|]. intros Hr. discriminate Hr.
  - intros ?. eapply spec_post.
    + apply (mark_sent_spec S1); [apply S1_stable|]. by intros w H.
    + intros r w [H1 H2]. split; [by right|]. intros Hr. split; [done|].
      by apply H2.
Qed.

Lemma do_daily_digest_spec :
  dt_hour ln = 8 ->
  digest_key u ln ∉ sends (db w0) -> carry_key u ln ∉ sends (db w0) ->
  spec S0 (do_daily_digest env u ln)
    (fun r w' => (S0 w' \/ S1 w') /\ (r = Ok tt -> S3 w')).
Proof.
  intros Eh Hd Hc. unfold do_daily_digest. rewrite Eh. cbn [Z.eqb Pos.eqb negb].
  eapply spec_bind; [apply was_sent_spec| |].
  { intros e w [E _]. split; [by left|]. intros H. discriminate H. }
  intros [|].
  { intros w [_ Hs]. specialize (Hs true eq_refl). fold (digest_key u ln) in Hs.
    rewrite bool_decide_eq_false_2 in Hs by done. discriminate Hs. }
  eapply spec_pre with (P := S0); [|by intros w [E _]].
  eapply spec_bind.
  - apply (spec_keeps S0). apply keeps_closing_db; [|apply keeps_query].
    intros w w' E _ H. by rewrite E.
  - intros e w E. split; [by left|]. intros H. discriminate H.
  - intros y_open. eapply spec_bind; [by apply do_carry_over_spec| |].
    { intros e w [H _]. split; [done|]. intros Hr. discriminate Hr. }
    intros []. eapply spec_pre with (P := S2); [|intros w [_ H]; by apply H].
    eapply spec_bind.
    + apply (spec_keeps S2). apply keeps_closing_db; [apply S2_stable|apply keeps_query].
    + intros e w [H _]. split; [by right|]. intros Hr. discriminate Hr.
    + intros rows. eapply spec_bind.
      * apply (spec_keeps S2). apply keeps_job_send_S. intros w w' E H. by rewrite E.
      * intros e w [H _]. split; [by right|]. intros Hr. discriminate Hr.
      * intros ?. eapply spec_post.
        -- apply (mark_sent_spec S2); [apply S2_stable|].
           intros w [H1 H2]. split; [done|]. cbn. set_solver.
        -- intros r w [[H1 H2] H3]. split; [by right|]. intros Hr.
           split; [done|]. by apply H3.
Qed.

End Slot8.

(** Once the "carry" row is there, the digest-hour logic inserts nothing,
    whatever fails. *)
Lemma do_daily_digest_inserts_nothing u ln w :
  carry_key u ln ∈ sends (db w) ->
  tasks (db (do_daily_digest env u ln w).2) = tasks (db w).
Proof.
  intros Hin.
  set (J := fun w' : World => tasks (db w') = tasks (db w)
                              /\ carry_key u ln ∈ sends (db w')).
  assert (Jst : forall w1 w2, db w2 = db w1 -> trace w2 = trace w1 -> J w1 -> J w2).
  { intros w1 w2 E _ H. unfold J. by rewrite E. }
  assert (Jsend : forall text, keeps J (send_message_job env (user_id u) text)).
  { intros text. apply keeps_send_message_job; [done|..].
    - intros w1 b H. exact H.
    - intros w1 t H. exact H. }
  assert (Hk : keeps J (do_daily_digest env u ln)).
  { unfold do_daily_digest. destruct (negb (dt_hour ln =? 8)); [apply keeps_ret|].
    apply keeps_bind; [by apply keeps_was_sent|]. intros [|]; [apply keeps_ret|].
    apply keeps_bind; [apply keeps_closing_db; [done|apply keeps_query]|].
    intros y_open. apply keeps_bind.
    { intros w1 [H1 H2]. rewrite do_carry_over_skips by done. by apply (Jst w1). }
    intros _. apply keeps_bind; [apply keeps_closing_db; [done|apply keeps_query]|].
    intros rows. apply keeps_bind; [apply Jsend|]. intros _.
    apply keeps_mark_sent; [done|]. intros w1 [H1 H2]. split; [done|].
    cbn. set_solver. }
  by apply Hk.
Qed.

End Faulty.




Lemma tick_frame_refl us w : tick_frame us w w.
Proof.
  split_and!.
  - exists []. by rewrite app_nil_r.
  - lia.
  - done.
  - intros k Hk. by left.
  - exists []. by rewrite app_nil_r.
Qed.

Lemma tick_frame_atoms us w0 : tick_atoms (tick_frame us w0) us.
Proof.
  split.
  - intros w w' Hd Ht (H1 & H2 & H3 & H4 & H5). unfold tick_frame.
    by rewrite Hd, Ht.
  - intros w u title day due priority tags Hu E
           ((new & Hn & Hall) & Hseq & Hs & Hk & (ev & He & Hev)).
    assert (Hl : listed us (user_id u)) by (by exists u).
    unfold task_added. split_and!; cbn.
    + eexists. rewrite Hn, <- app_assoc. split; [done|].
      apply Forall_app. split; [done|]. constructor; [by split|constructor].
    + unfold next_rowid. lia.
    + done.
    + done.
    + eexists. rewrite He, <- app_assoc. split; [done|].
      apply Forall_app. split; [done|]. constructor; [by split|constructor].
  - intros w u kind day hour Hu Hsch E
           ((new & Hn & Hall) & Hseq & Hs & Hk & (ev & He & Hev)).
    assert (Hl : listed us (user_id u)) by (by exists u).
    unfold marked. split_and!; cbn.
    + by exists new.
    + done.
    + set_solver.
    + intros k [->%elem_of_singleton|Hin]%elem_of_union; [by right|by apply Hk].
    + eexists. rewrite He, <- app_assoc. split; [done|].
      apply Forall_app. split; [done|]. constructor; [by split|constructor].
  - intros w u text b Hu E
           ((new & Hn & Hall) & Hseq & Hs & Hk & (ev & He & Hev)).
    assert (Hl : listed us (user_id u)) by (by exists u).
    split_and!; cbn; try done.
    + by exists new.
    + eexists. rewrite He, <- app_assoc. split; [done|].
      apply Forall_app. split; [done|]. constructor; [exact Hl|constructor].
  - intros w text E
           ((new & Hn & Hall) & Hseq & Hs & Hk & (ev & He & Hev)).
    split_and!; cbn; try done.
    + by exists new.
    + eexists. rewrite He, <- app_assoc. split; [done|].
      apply Forall_app. split; [done|]. constructor; [done|constructor].
Qed.

(** X10. Whatever fails during it (database blocks, deliveries, zones), one
    run of [hourly_tick] leaves the users table as it is, changes and
    deletes no task and only appends open tasks of users it lists, removes
    no ledger row and only adds rows of scheduled slots of such users, and
    logs no reply: every message it sends, every row it inserts or marks is
    for a user of the table. *)
Theorem tick_touches_only_its_users env clock w :
  let w' := (hourly_tick env clock w).2 in
  users (db w') = users (db w) /\ tick_frame (users (db w)) w w'.
Proof.
  intros w'.
  apply (hourly_tick_keeps env clock (tick_frame (users (db w)) w) (users (db w))).
  - apply tick_frame_atoms.
  - done.
  - apply tick_frame_refl.
Qed.

(** ** Properties of every reachable state *)

Lemma select_user_users uid d d' : users d' = users d -> select_user uid d' = select_user uid d.
Proof. unfold select_user. by intros ->. Qed.

Lemma insert_user_row_perm u l : insert_user_row u l ≡ₚ u :: l.
Proof.
  induction l as [|v l IH]; simpl; [done|].
  destruct (user_id u <? user_id v); [done|]. rewrite IH. apply Permutation_swap.
Qed.

Lemma insert_user_row_sorted u l :
  StronglySorted (fun a b => user_id a < user_id b) l ->
  (forall v, v ∈ l -> user_id v <> user_id u) ->
  StronglySorted (fun a b => user_id a < user_id b) (insert_user_row u l).
Proof.
  induction 1 as [|v l Hs IH Hv]; intros Hne; simpl.
  - repeat constructor.
  - destruct (Z.ltb_spec (user_id u) (user_id v)) as [Hlt|Hge].
    + constructor; [by constructor|].
      constructor; [done|]. eapply Forall_impl; [exact Hv|].
      intros b Hb. simpl in Hb. lia.
    + constructor.
      * apply IH. intros b Hb. apply Hne. by right.
      * rewrite insert_user_row_perm. constructor; [|done].
        assert (user_id v <> user_id u) by (apply Hne; by left). lia.
Qed.

Lemma sorted_map_same_key {A} (key : A -> Z) (f : A -> A) l :
  (forall a, key (f a) = key a) ->
  StronglySorted (fun a b => key a < key b) l ->
  StronglySorted (fun a b => key a < key b) (List.map f l).
Proof.
  intros Hf. induction 1 as [|a l Hs IH Ha]; simpl; constructor; [done|].
  apply Forall_forall. intros b Hb. apply list_elem_of_In, in_map_iff in Hb
    as (b' & <- & Hb'). rewrite !Hf. rewrite Forall_forall in Ha.
  by apply Ha, list_elem_of_In.
Qed.

Lemma sorted_snoc {A} (key : A -> Z) l x :
  StronglySorted (fun a b => key a < key b) l ->
  Forall (fun a => key a < key x) l ->
  StronglySorted (fun a b => key a < key b) (l ++ [x]).
Proof.
  induction 1 as [|a l Hs IH Ha]; intros Hx; simpl; [by repeat constructor|].
  inversion Hx as [|? ? Hax Hlx]; subst.
  constructor; [by apply IH|]. apply Forall_app. split; [done|]. by repeat constructor.
Qed.

Lemma users_sorted_insert uid z d :
  select_user uid d = None -> users_sorted d -> users_sorted (insert_user uid z d).
Proof.
  intros Hn Hs. unfold users_sorted, insert_user. cbn.
  apply insert_user_row_sorted; [done|]. by apply select_user_none.
Qed.

Lemma users_sorted_upsert uid z d : users_sorted d -> users_sorted (upsert_tz uid z d).
Proof.
  intros Hs. unfold upsert_tz. destruct (select_user uid d) eqn:E.
  - unfold users_sorted. cbn. apply (sorted_map_same_key user_id); [|done].
    intros a. by case_bool_decide.
  - by apply users_sorted_insert.
Qed.

Lemma task_ids_increasing_insert uid title day due priority tags d :
  task_ids_increasing d ->
  task_ids_increasing (insert_task uid title day due priority tags d).2.
Proof.
  intros Hs. unfold task_ids_increasing. cbn.
  apply (sorted_snoc t_id); [done|]. apply Forall_forall. intros t Ht.
  apply max_rowid_elem in Ht. cbn. unfold next_rowid. lia.
Qed.

Lemma keys_unique_atoms env : op_atoms env keys_unique.
Proof.
  split; unfold keys_unique.
  - intros w w' Hd _ H. by rewrite Hd.
  - intros w uid Hn [Hu Ht]. split; [by apply users_sorted_insert|done].
  - intros w uid z _ _ [Hu Ht]. split; [by apply users_sorted_upsert|].
    unfold task_ids_increasing, upsert_tz, insert_user in *. cbn.
    by destruct (select_user uid (db w)).
  - intros w uid title day due priority tags _ [Hu Ht].
    split; [done|]. by apply task_ids_increasing_insert.
  - intros w k [Hu Ht]. split; [done|].
    unfold task_ids_increasing. cbn. apply (sorted_map_same_key t_id); [|done].
    intros t. unfold set_done. by case_bool_decide.
  - by intros w uid kind day hour _ _ H.
  - by intros w uid text b _ H.
  - by intros w text H.
  - by intros w uid text H.
Qed.

(** X11. The two primary keys survive every sequence of commands and ticks,
    whatever fails on the way: from a state in which the users are in
    strictly increasing [user_id] order and the tasks in strictly
    increasing [id] order (so no id occurs twice), every state reached is
    such a state. *)
Theorem keys_stay_unique env ops w :
  keys_unique w -> keys_unique (run_ops env ops w).
Proof. apply run_ops_keeps, keys_unique_atoms. Qed.

Lemma evolves_refl t : evolves t t.
Proof. unfold evolves. split_and!; try done. by left. Qed.

Lemma evolves_set_done k t t' : evolves t t' -> evolves t (set_done k t').
Proof.
  unfold evolves, set_done. intros (H1 & H2 & H3 & H4 & H5 & H6 & H7 & H8).
  case_bool_decide; cbn; split_and!; try done. by right.
Qed.

Lemma extends_refl w : extends w w.
Proof.
  split_and!; [done| |done|].
  - exists (tasks (db w)), []. rewrite app_nil_r. split; [done|].
    apply Forall2_same_length_lookup_2; [done|].
    intros i x y Hx Hy. rewrite Hx in Hy. injection Hy as <-. apply evolves_refl.
  - exists []. by rewrite app_nil_r.
Qed.

Lemma extends_atoms env w0 : op_atoms env (extends w0).
Proof.
  split; unfold extends.
  - intros w w' Hd Ht H. by rewrite Hd, Ht.
  - intros w uid Hn (Hu & Ht & Hs & He). split_and!; try done.
    intros uid' H. cbn [db set_db]. rewrite select_user_insert by done.
    case_bool_decide; [done|by apply Hu].
  - intros w uid z _ _ (Hu & Ht & Hs & He). split_and!.
    + intros uid' H. cbn [db set_db]. rewrite select_user_upsert.
      case_bool_decide; [done|by apply Hu].
    + cbn. unfold upsert_tz, insert_user. by destruct (select_user uid (db w)).
    + cbn. unfold upsert_tz, insert_user. by destruct (select_user uid (db w)).
    + done.
  - intros w uid title day due priority tags _
           (Hu & (old & new & Ht & Hf) & Hs & (ev & He)).
    unfold task_added. split_and!; cbn; try done.
    + eexists old, _. split; [|done]. by rewrite Ht, <- app_assoc.
    + eexists. by rewrite He, <- app_assoc.
  - intros w k (Hu & (old & new & Ht & Hf) & Hs & He).
    split_and!; cbn; try done.
    exists (List.map (set_done k) old), (List.map (set_done k) new).
    rewrite Ht, List.map_app. split; [done|].
    clear Ht. induction Hf as [|t t' l l' Htt _ IH]; [constructor|].
    cbn. constructor; [by apply evolves_set_done|done].
  - intros w uid kind day hour _ _ (Hu & Ht & Hs & (ev & He)).
    unfold marked. split_and!; cbn; try done.
    + set_solver.
    + eexists. by rewrite He, <- app_assoc.
  - intros w uid text b _ (Hu & Ht & Hs & (ev & He)).
    split_and!; cbn; try done. eexists. by rewrite He, <- app_assoc.
  - intros w text (Hu & Ht & Hs & (ev & He)).
    split_and!; cbn; try done. eexists. by rewrite He, <- app_assoc.
  - intros w uid text (Hu & Ht & Hs & (ev & He)).
    split_and!; cbn; try done. eexists. by rewrite He, <- app_assoc.
Qed.

(** X12. Nothing is ever deleted or rewritten.  After any sequence of
    commands and ticks, whatever failed on the way, every user of the
    starting state still has a row; every task row of the starting state is
    still in its place with the same id, owner, title, day, due time,
    priority and tags, its status either unchanged or "done" (so a done
    task stays done; newer rows come after it); every ledger row and every
    log entry is still there. *)
Theorem nothing_is_deleted env ops w :
  extends w (run_ops env ops w).
Proof. apply run_ops_keeps; [apply extends_atoms|apply extends_refl]. Qed.

Lemma Forall_insert_user_row (P : User -> Prop) u l :
  P u -> Forall P l -> Forall P (insert_user_row u l).
Proof. intros Hu Hl. rewrite insert_user_row_perm. by constructor. Qed.

Lemma values_valid_atoms env : op_atoms env (values_valid env).
Proof.
  split; unfold values_valid.
  - intros w w' Hd _ H. by rewrite Hd.
  - intros w uid Hn (Ht & Hs & Hu). split_and!; try done.
    cbn. apply Forall_insert_user_row; [by left|done].
  - intros w uid z Hz _ (Ht & Hs & Hu).
    cbn [db set_db]. unfold upsert_tz, insert_user.
    destruct (select_user uid (db w)) as [v|]; cbn.
    + split_and!; try done. apply Forall_forall. intros u Hin.
      apply list_elem_of_In, in_map_iff in Hin as (u' & <- & Hin').
      case_bool_decide; [by right|].
      rewrite Forall_forall in Hu. by apply Hu, list_elem_of_In.
    + split_and!; try done. apply Forall_insert_user_row; [by right|done].
  - intros w uid title day due priority tags _ (Ht & Hs & Hu).
    unfold task_added. split_and!; cbn; try done.
    apply Forall_app. split; [done|]. constructor; [by left|constructor].
  - intros w k (Ht & Hs & Hu). split_and!; cbn; try done.
    apply Forall_forall. intros t Hin.
    apply list_elem_of_In, in_map_iff in Hin as (t' & <- & Hin').
    unfold set_done. case_bool_decide; [by right|].
    rewrite Forall_forall in Ht. by apply Ht, list_elem_of_In.
  - intros w uid kind day hour _ Hsch (Ht & Hs & Hu).
    unfold marked. split_and!; cbn; try done.
    intros k [->%elem_of_singleton|Hin]%elem_of_union; [done|by apply Hs].
  - by intros w uid text b _ H.
  - by intros w text H.
  - by intros w uid text H.
Qed.

(** X13. Only values the code itself writes end up stored.  From a state
    in which every status is "open" or "done", every ledger row is a
    scheduled slot (digest or carry at hour 8, prompt at one of its five
    hours) and every stored zone is the default zone or one [ZoneInfo]
    accepts, every sequence of commands and ticks leads to such a state,
    whatever fails on the way; in particular no task is ever "snoozed". *)
Theorem only_valid_values_are_stored env ops w :
  values_valid env w -> values_valid env (run_ops env ops w).
Proof. apply run_ops_keeps, values_valid_atoms. Qed.

Lemma owners_registered_users w w' :
  (forall uid, select_user uid (db w) <> None -> select_user uid (db w') <> None) ->
  tasks (db w') = tasks (db w) -> sends (db w') = sends (db w) ->
  owners_registered w -> owners_registered w'.
Proof.
  intros Hu Ht Hs [H1 H2]. unfold owners_registered. rewrite Ht, Hs. split.
  - eapply Forall_impl; [exact H1|]. intros t. apply Hu.
  - intros k Hk. by apply Hu, H2.
Qed.

Lemma owners_registered_atoms env : op_atoms env owners_registered.
Proof.
  split.
  - intros w w' Hd _. apply owners_registered_users; by rewrite Hd.
  - intros w uid Hn. apply owners_registered_users; [|done|done].
    intros uid' H. cbn [db set_db]. rewrite select_user_insert by done. by case_bool_decide.
  - intros w uid z _ _. apply owners_registered_users.
    + intros uid' H. cbn [db set_db]. rewrite select_user_upsert. by case_bool_decide.
    + cbn. unfold upsert_tz, insert_user. by destruct (select_user uid (db w)).
    + cbn. unfold upsert_tz, insert_user. by destruct (select_user uid (db w)).
  - intros w uid title day due priority tags Hreg [H1 H2].
    unfold owners_registered, task_added. cbn. split; [|done].
    apply Forall_app. split; [done|]. constructor; [done|constructor].
  - intros w k [H1 H2]. unfold owners_registered. cbn. split; [|done].
    apply Forall_forall. intros t Hin.
    apply list_elem_of_In, in_map_iff in Hin as (t' & <- & Hin').
    rewrite Forall_forall in H1. specialize (H1 t' (proj2 (list_elem_of_In _ _) Hin')).
    unfold set_done. by case_bool_decide.
  - intros w uid kind day hour Hreg _ [H1 H2].
    unfold owners_registered, marked. cbn. split; [done|].
    intros k [->%elem_of_singleton|Hin]%elem_of_union; [done|by apply H2].
  - by intros w uid text b _ H.
  - by intros w text H.
  - by intros w uid text H.
Qed.

(** X14. Referential integrity, which the schema does not declare, is
    kept by the code: from a state in which every task and every ledger
    row belongs to a user of the users table, every sequence of commands
    and ticks leads to such a state, whatever fails on the way. *)
Theorem owners_stay_registered env ops w :
  owners_registered w -> owners_registered (run_ops env ops w).
Proof. apply run_ops_keeps, owners_registered_atoms. Qed.

Lemma keys_stay_unique_witness :
  keys_unique world_morning /\ keys_unique (run_ops env_ok ops_day world_morning).
Proof.
  assert (H : keys_unique world_morning).
  { split.
    - repeat constructor.
    - repeat (constructor; [|repeat (constructor; [cbn; lia|]); constructor]).
      constructor. }
  split; [exact H|]. by apply keys_stay_unique.
Defined.

Lemma only_valid_values_are_stored_witness :
  values_valid env_ok world_morning /\
  values_valid env_ok (run_ops env_ok ops_day world_morning).
Proof.
  assert (H : values_valid env_ok world_morning).
  { split_and!.
    - repeat (constructor; [first [by left|by right]|]). constructor.
    - intros k Hk. by apply not_elem_of_empty in Hk.
    - repeat (constructor; [by right|]). constructor. }
  split; [exact H|]. by apply only_valid_values_are_stored.
Defined.

Lemma owners_stay_registered_witness :
  owners_registered world_morning /\
  owners_registered (run_ops env_ok ops_day world_morning).
Proof.
  assert (H : owners_registered world_morning).
  { split.
    - repeat (constructor; [discriminate|]). constructor.
    - intros k Hk. by apply not_elem_of_empty in Hk. }
  split; [exact H|]. by apply owners_stay_registered.
Defined.

(** ** The schedule *)

(** X15. Outside the schedule a tick is silent: for a user whose local hour
    is neither 8 nor one of 10, 13, 16, 19, 22, the per-user step changes
    nothing at all (no database access, no delivery attempt), in every
    environment; and a tick in which every user is at such an hour only
    reads the users table. *)
Theorem quiet_hours_are_silent env clock w :
  (forall u, u ∈ users (db w) ->
     dt_hour (clock (tz u)) <> 8 /\ dt_hour (clock (tz u)) ∉ prompt_hours) ->
  (forall u, u ∈ users (db w) -> (tick_user env clock u w).2 = w) /\
  (hourly_tick env clock w).2 = tick_db w.
Proof.
  intros Hq.
  assert (Hstep : forall u w1, u ∈ users (db w) -> (tick_user env clock u w1).2 = w1).
  { intros u w1 Hu. destruct (Hq u Hu) as [H8 Hp].
    unfold tick_user, now_local, bind.
    destruct (ZoneInfo_ok env (tz u)); [|done]. cbn [ret fst snd].
    unfold do_daily_digest, do_tomorrow_prompt. cbn [truncate_hour dt_hour].
    destruct (Z.eqb_spec (dt_hour (clock (tz u))) 8); [done|]. cbn [negb ret].
    by rewrite bool_decide_eq_false_2. }
  split; [intros u Hu; by apply Hstep|].
  unfold hourly_tick, bind, closing_db.
  destruct (db_fails env (db_calls w)); [done|]. cbn [query fst snd db tick_db].
  generalize (tick_db w). induction (users (db w)) as [|u us IH]; intros w1; [done|].
  cbn [for_each]. unfold bind.
  pose proof (Hstep u w1 (list_elem_of_here _ _)) as E.
  destruct (tick_user env clock u w1) as [[[]|e] w2]; cbn [snd] in *; subst w2;
    [|done].
  apply IH.
  - intros v Hv. apply Hq. by right.
  - intros v w' Hv. apply Hstep. by right.
Qed.

Lemma quiet_hours_are_silent_witness :
  (hourly_tick env_ok (at_hour 101 9) world_two_users).2 = tick_db world_two_users.
Proof.
  apply (quiet_hours_are_silent env_ok (at_hour 101 9) world_two_users).
  intros u _. split; [discriminate|].
  intros H. apply list_elem_of_In in H. simpl in H.
  repeat (destruct H as [H|H]; [discriminate H|]). exact H.
Defined.

Lemma tasks_ordered_sorted uid day d : StronglySorted key_before (tasks_ordered uid day d).
Proof.
  apply (strongly_sorted_impl (fun a b => key_le a b = true)).
  - intros a b. apply key_le_before.
  - apply order_by_sorted.
    + intros a b.
      destruct (key_before_total a b); [left|right]; by apply key_le_before.
    + intros a b c ?%key_le_before ?%key_le_before.
      apply key_le_before. by eapply key_before_trans.
Qed.

Lemma order_by_id_sorted l :
  StronglySorted (fun a b => t_id a <= t_id b) (order_by id_le l).
Proof.
  apply (strongly_sorted_impl (fun a b => id_le a b = true)).
  - intros a b H. by apply Z.leb_le.
  - apply order_by_sorted; unfold id_le.
    + intros a b. rewrite !Z.leb_le. lia.
    + intros a b c. rewrite !Z.leb_le. lia.
Qed.

(** X16. What the morning digest shows.  At local hour 8, with the "digest"
    and "carry" slots of the day free and the store answering,
    [do_daily_digest] first copies yesterday's open tasks, sends the carry
    notice if there were any and marks "carry", then makes one attempt to
    send the digest and marks "digest".  The "Yesterday" section of that
    digest lists yesterday's open rows themselves, by ascending id; its
    "Today" section lists today's rows together with the fresh copies, in
    the order of the listing. *)
Theorem digest_shows_yesterday_and_today env u local_now w :
  (forall n, db_fails env n = false) ->
  dt_hour local_now = 8 ->
  digest_key u local_now ∉ sends (db w) ->
  carry_key u local_now ∉ sends (db w) ->
  let uid := user_id u in
  let today := dt_date local_now in
  let src := open_tasks_on uid (today - 1) (db w) in
  let copies := (copy_rows uid today src (db w)).1 in
  exists y_open rows,
    y_open ≡ₚ src /\
    StronglySorted (fun a b => t_id a <= t_id b) y_open /\
    rows ≡ₚ (tasks_on uid today (db w) ++ copies)%list /\
    StronglySorted key_before rows /\
    trace (do_daily_digest env u local_now w).2
    = (trace w ++ List.map EvInsert copies
         ++ notice_events env (send_calls w) uid src
         ++ [EvMark (carry_key u local_now) true]
         ++ send_events env (notice_calls src (send_calls w)) uid
                        (digest_text y_open rows)
         ++ [EvMark (digest_key u local_now) true])%list.
Proof.
  intros Hdb E Hd Hc uid today src copies.
  set (wc := (do_carry_over env u local_now (tick_db (tick_db w))).2).
  assert (Hwc : wc = mkWorld (insert_send (carry_key u local_now)
                                (copy_rows uid today src (db w)).2)
                       (S (S (S (S (S (db_calls w))))))
                       (notice_calls src (send_calls w))
                       (trace w ++ List.map EvInsert copies
                          ++ notice_events env (send_calls w) uid src
                          ++ [EvMark (carry_key u local_now) true])).
  { unfold wc. by rewrite do_carry_over_run. }
  exists (order_by id_le src), (tasks_ordered uid today (db wc)).
  split_and!.
  - apply order_by_perm.
  - apply order_by_id_sorted.
  - unfold tasks_ordered. rewrite order_by_perm. unfold tasks_on.
    rewrite Hwc. cbn [db mkWorld insert_send tasks].
    rewrite copy_rows_tasks, filter_app. fold copies.
    rewrite (filter_all _ copies); [done|].
    eapply Forall2_Forall_r; [apply (copy_rows_copied uid today src (db w))|].
    apply Forall_forall. intros s _ n (_ & _ & _ & _ & _ & ? & ?). done.
  - apply tasks_ordered_sorted.
  - rewrite do_daily_digest_run by done. fold wc. cbn [snd mkWorld trace].
    assert (Hd' : digest_key u local_now ∉ sends (db wc)).
    { unfold wc. by apply digest_not_marked_by_carry. }
    rewrite (bool_decide_eq_false_2 _ Hd'). cbn [negb].
    rewrite Hwc at 1 2. cbn [trace mkWorld send_calls].
    by rewrite <- !app_assoc.
Qed.

Lemma digest_shows_yesterday_and_today_witness :
  dt_hour eight = 8 /\
  trace (do_daily_digest env_ok user7 eight world_morning).2
  = [EvInsert {| t_id := 4; t_user_id := 7; t_title := "Buy milk"; t_day := 101;
                 t_due_time := None; t_priority := "med"; t_tags := "#home";
                 t_status := "open" |};
     EvSend 7 "↪️ Carried over 1 unfinished task(s) from yesterday." true;
     EvMark (7, "carry", 101, 8) true;
     EvSend 7 (digest_text [task_milk]
                 [task_call;
                  {| t_id := 4; t_user_id := 7; t_title := "Buy milk"; t_day := 101;
                     t_due_time := None; t_priority := "med"; t_tags := "#home";
                     t_status := "open" |}]) true;
     EvMark (7, "digest", 101, 8) true].
Proof.
  destruct (digest_shows_yesterday_and_today env_ok user7 eight world_morning
              (fun _ => eq_refl) eq_refl (not_elem_of_empty _) (not_elem_of_empty _))
    as (y_open & rows & _).
  split; [reflexivity|]. vm_compute. reflexivity.
Defined.

(** X17. A digest run that broke off after the carry-over is completed by
    the next one without copying again.  At local hour 8, with "carry" in
    the ledger and "digest" not (store answering), [do_daily_digest]
    inserts no task and sends no carry notice; it makes one attempt to
    send the digest built from the current tables and marks "digest". *)
Theorem digest_retry_skips_the_copy env u local_now w :
  (forall n, db_fails env n = false) ->
  dt_hour local_now = 8 ->
  digest_key u local_now ∉ sends (db w) ->
  carry_key u local_now ∈ sends (db w) ->
  let uid := user_id u in
  let today := dt_date local_now in
  let w1 := (do_daily_digest env u local_now w).2 in
  tasks (db w1) = tasks (db w) /\
  sends (db w1) = {[ digest_key u local_now ]} ∪ sends (db w) /\
  trace w1
  = (trace w
       ++ send_events env (send_calls w) uid
            (digest_text (order_by id_le (open_tasks_on uid (today - 1) (db w)))
                         (tasks_ordered uid today (db w)))
       ++ [EvMark (digest_key u local_now) true])%list.
Proof.
  intros Hdb E Hd Hc uid today w1. unfold w1.
  rewrite do_daily_digest_run by done.
  rewrite do_carry_over_skip by done. cbn [snd mkWorld db trace tick_db send_calls].
  rewrite (bool_decide_eq_false_2 _ Hd). by cbn.
Qed.

Lemma digest_retry_skips_the_copy_witness :
  let w1 := (do_daily_digest env_ok user7 eight world_half_done).2 in
  (do_daily_digest env_db_fault_late user7 eight world_morning).1
    = Raise SqliteError /\
  carry_key user7 eight ∈ sends (db world_half_done) /\
  digest_key user7 eight ∉ sends (db world_half_done) /\
  tasks (db w1) = tasks (db world_half_done) /\
  List.length (tasks (db w1)) = 4%nat.
Proof.
  intros w1.
  assert (Hs : sends (db world_half_done) = {[ carry_key user7 eight ]} ∪ ∅)
    by reflexivity.
  assert (Hc : carry_key user7 eight ∈ sends (db world_half_done))
    by (rewrite Hs; apply elem_of_union_l, elem_of_singleton; reflexivity).
  assert (Hd : digest_key user7 eight ∉ sends (db world_half_done)).
  { rewrite Hs. intros [H|H]%elem_of_union.
    - apply elem_of_singleton in H. discriminate H.
    - by apply not_elem_of_empty in H. }
  destruct (digest_retry_skips_the_copy env_ok user7 eight world_half_done
              (fun _ => eq_refl) eq_refl Hd Hc) as (Ht & _).
  split; [reflexivity|]. split; [exact Hc|]. split; [exact Hd|].
  split; [exact Ht|]. unfold w1. rewrite Ht. reflexivity.
Defined.

Lemma key_kept_atoms k us : tick_atoms (fun w => k ∈ sends (db w)) us.
Proof.
  split; try (by intros; cbn).
  - intros w w' Hd _ H. by rewrite Hd.
  - intros w u kind day hour _ _ _ H. unfold marked. cbn. set_solver.
Qed.

Lemma tick_user_keeps_users env clock u w :
  u ∈ users (db w) -> users (db (tick_user env clock u w).2) = users (db w).
Proof.
  intros Hu.
  apply (keeps_tick_user env clock (fun _ => True) (users (db w))); [|done|done].
  split; done.
Qed.

Lemma tick_user_keeps_key env clock u w k :
  u ∈ users (db w) -> k ∈ sends (db w) -> k ∈ sends (db (tick_user env clock u w).2).
Proof.
  intros Hu Hk.
  apply (keeps_tick_user env clock _ (users (db w)) (key_kept_atoms k _) u Hu w).
  by split.
Qed.

Lemma tick_rest_keeps_key env clock l w k :
  (forall u, u ∈ l -> u ∈ users (db w)) -> k ∈ sends (db w) ->
  k ∈ sends (db (for_each l (tick_user env clock) w).2).
Proof.
  intros Hl Hk.
  apply (keeps_for_each (fun w' => users (db w') = users (db w) /\ k ∈ sends (db w'))
           l (tick_user env clock)); [|done].
  intros u Hu. apply keeps_tick_user; [apply key_kept_atoms|by apply Hl].
Qed.

Section Served.

Context (env : Env) (clock : Clock).
Hypothesis Hdb : forall n, db_fails env n = false.

(** The slots due for [u] at its local hour are in the ledger of [w]. *)
Local Notation served u w :=
  ((dt_hour (clock (tz u)) = 8 ->
      digest_key u (truncate_hour (clock (tz u))) ∈ sends (db w)) /\
   (dt_hour (clock (tz u)) ∈ prompt_hours ->
      prompt_key u (truncate_hour (clock (tz u))) ∈ sends (db w))).

Lemma tick_user_serves u w :
  ZoneInfo_ok env (tz u) = true -> served u (tick_user env clock u w).2.
Proof.
  intros Hz. rewrite tick_user_run by done. cbn [snd]. split.
  - intros E. apply do_tomorrow_prompt_sends; [done|].
    by apply do_daily_digest_marked.
  - intros E. by apply do_tomorrow_prompt_marked.
Qed.

Lemma tick_users_serve l w :
  (forall u, u ∈ l -> u ∈ users (db w) /\ ZoneInfo_ok env (tz u) = true) ->
  (for_each l (tick_user env clock) w).1 = Ok tt /\
  forall u, u ∈ l -> served u (for_each l (tick_user env clock) w).2.
Proof.
  revert w. induction l as [|v l IH]; intros w Hl.
  - split; [done|]. intros u Hu. by apply not_elem_of_nil in Hu.
  - destruct (Hl v (list_elem_of_here _ _)) as [Hv Hz].
    cbn [for_each]. unfold bind.
    pose proof (tick_user_serves v w Hz) as Hserved.
    pose proof (tick_user_keeps_users env clock v w Hv) as Husers.
    rewrite tick_user_run in * by done. cbn [fst snd] in *.
    set (w1 := (do_tomorrow_prompt env v _ _).2) in *.
    assert (Hl' : forall u, u ∈ l -> u ∈ users (db w1)
                                    /\ ZoneInfo_ok env (tz u) = true).
    { intros u Hu. rewrite Husers. apply Hl. by right. }
    destruct (IH w1 Hl') as [Hok Hrest]. split; [exact Hok|].
    intros u [->|Hu]%elem_of_cons; [|by apply Hrest].
    destruct Hserved as [H8 Hp].
    split; intros E; apply tick_rest_keeps_key; auto; intros x Hx; by apply Hl'.
Qed.

(** X18. With the store answering and every stored zone valid, a tick
    returns normally and leaves no due slot unserved: afterwards, for every
    user of the table, the "digest" row of the local day is in the ledger
    if the user's local hour is 8, and the "prompt" row of the local day
    and hour if it is one of 10, 13, 16, 19, 22; each user is judged by
    the clock of the user's own zone. *)
Theorem tick_serves_every_due_user w :
  (forall u, u ∈ users (db w) -> ZoneInfo_ok env (tz u) = true) ->
  (hourly_tick env clock w).1 = Ok tt /\
  forall u, u ∈ users (db w) -> served u (hourly_tick env clock w).2.
Proof.
  intros Hz. unfold hourly_tick.
  erewrite bind_ok by (rewrite closing_db_run by done; reflexivity).
  cbn [db tick_db]. apply (tick_users_serve (users (db w)) (tick_db w)).
  intros u Hu. split; [done|by apply Hz].
Qed.

End Served.

Lemma tick_serves_every_due_user_witness :
  let clock := fun z => if String.eqb z "Asia/Kathmandu"
                        then truncate_hour (at_hour 101 8 z)
                        else truncate_hour (at_hour 100 22 z) in
  let w' := (hourly_tick env_ok clock world_two_users).2 in
  (7, "digest", 101, 8) ∈ sends (db w') /\ (9, "prompt", 100, 22) ∈ sends (db w').
Proof.
  intros clock w'.
  destruct (tick_serves_every_due_user env_ok clock (fun _ => eq_refl)
              world_two_users (fun _ _ => eq_refl)) as [_ H].
  split.
  - apply (H user7); [by left|reflexivity].
  - apply (H user9); [by right; left|].
    apply list_elem_of_In. simpl. tauto.
Defined.

(** ** Exactly one message per due user and tick *)

Lemma for_each_app_ok {A} (f : A -> M unit) l1 l2 w w1 :
  for_each l1 f w = (Ok tt, w1) -> for_each (l1 ++ l2) f w = for_each l2 f w1.
Proof.
  revert w. induction l1 as [|x l1 IH]; intros w H.
  - by injection H as <-.
  - cbn [app for_each] in *. unfold bind in *.
    destruct (f x w) as [[[]|e] w']; [by apply IH|discriminate H].
Qed.

Lemma sorted_middle {A} (key : A -> Z) l1 x l2 :
  StronglySorted (fun a b => key a < key b) (l1 ++ x :: l2) ->
  Forall (fun a => key a <> key x) l1 /\ Forall (fun b => key b <> key x) l2.
Proof.
  induction l1 as [|a l1 IH]; cbn [app]; intros H; inversion H as [|? ? Hs Ha]; subst.
  - split; [constructor|]. eapply Forall_impl; [exact Ha|]. intros b Hb. cbn in Hb. lia.
  - destruct (IH Hs) as [H1 H2]. split; [|done]. constructor; [|done].
    apply Forall_app in Ha as [_ Ha]. inversion Ha; subst. lia.
Qed.

Section Delivery.

Context (env : Env) (clock : Clock).
Hypothesis Hdb : forall n, db_fails env n = false.

Lemma do_daily_digest_sends_bound u ln w k :
  k ∈ sends (db (do_daily_digest env u ln w).2) ->
  k ∈ sends (db w) \/ key_user k = user_id u.
Proof.
  destruct (decide (dt_hour ln = 8)) as [E|N].
  2:{ rewrite do_daily_digest_off by done. by left. }
  destruct (decide (digest_key u ln ∈ sends (db w))) as [Hin|Hout].
  { rewrite do_daily_digest_skip by done. by left. }
  rewrite do_daily_digest_run by done. cbn [snd db mkWorld insert_send sends].
  intros [->%elem_of_singleton|Hk]%elem_of_union; [by right|].
  apply do_carry_over_sends in Hk; [|done]. cbn [db tick_db] in Hk.
  apply elem_of_union in Hk as [->%elem_of_singleton|Hk]; [by right|by left].
Qed.

Lemma do_tomorrow_prompt_sends_bound u ln w k :
  k ∈ sends (db (do_tomorrow_prompt env u ln w).2) ->
  k ∈ sends (db w) \/ key_user k = user_id u.
Proof.
  destruct (decide (dt_hour ln ∈ prompt_hours)) as [E|N].
  2:{ rewrite do_tomorrow_prompt_off by done. by left. }
  destruct (decide (prompt_key u ln ∈ sends (db w))) as [Hin|Hout].
  { rewrite do_tomorrow_prompt_skip by done. by left. }
  rewrite do_tomorrow_prompt_run by done. cbn [snd db mkWorld insert_send sends].
  intros [->%elem_of_singleton|Hk]%elem_of_union; [by right|by left].
Qed.

Lemma tick_user_sends_bound u w k :
  ZoneInfo_ok env (tz u) = true ->
  k ∈ sends (db (tick_user env clock u w).2) ->
  k ∈ sends (db w) \/ key_user k = user_id u.
Proof.
  intros Hz. rewrite tick_user_run by done. cbn [snd]. intros Hk.
  apply do_tomorrow_prompt_sends_bound in Hk as [Hk|Hk]; [|by right].
  by apply do_daily_digest_sends_bound in Hk.
Qed.

Context (uid : Z) (kind : string) (day hour : Z).

Local Notation slot := (uid, kind, day, hour).
Local Notation deliveries := (occurrences (is_delivery uid kind)).

(** Users with another id leave the slot alone. *)
Lemma others_leave_slot l w :
  (forall v, v ∈ l -> user_id v <> uid /\ ZoneInfo_ok env (tz v) = true) ->
  slot ∉ sends (db w) ->
  exists w1 ev,
    for_each l (tick_user env clock) w = (Ok tt, w1) /\
    slot ∉ sends (db w1) /\ users (db w1) = users (db w) /\
    trace w1 = (trace w ++ ev)%list /\ deliveries ev = 0%nat.
Proof.
  revert w. induction l as [|v l IH]; intros w Hl Hfree.
  - exists w, []. by rewrite app_nil_r.
  - destruct (Hl v (list_elem_of_here _ _)) as [Hne Hz].
    pose proof (tick_user_slot uid kind day hour env clock Hdb v w) as Hstep.
    destruct Hstep as (Hu & Hs & ev1 & Ht1 & _ & _ & _ & Hin1); [by intros ?|].
    assert (Hfree1 : slot ∉ sends (db (tick_user env clock v w).2)).
    { intros Hk. apply tick_user_sends_bound in Hk as [Hk|Hk]; done. }
    assert (Hd1 : deliveries ev1 = 0%nat).
    { destruct (deliveries ev1); [done|]. exfalso. apply Hfree1, Hin1. lia. }
    destruct (IH (tick_user env clock v w).2) as (w1 & ev & Hrun & Hf & Hus & Ht & Hd);
      [intros x Hx; apply Hl; by right|done|].
    exists w1, (ev1 ++ ev)%list. split_and!.
    + cbn [for_each]. unfold bind. rewrite tick_user_run in * by done. exact Hrun.
    + done.
    + congruence.
    + by rewrite Ht, Ht1, <- app_assoc.
    + rewrite occurrences_app. lia.
Qed.

(** Once the slot is in the ledger, nobody sends for it. *)
Lemma served_slot_is_quiet l w :
  (forall v, v ∈ l -> user_id v <> uid) ->
  slot ∈ sends (db w) ->
  exists ev, trace (for_each l (tick_user env clock) w).2 = (trace w ++ ev)%list /\
             deliveries ev = 0%nat.
Proof.
  intros Hl Hin.
  destruct (for_each_slot uid kind day hour env clock Hdb l w)
    as (_ & _ & ev & Ht & _ & _ & Hz & _).
  - apply Forall_forall. intros v Hv E. by destruct (Hl v Hv).
  - exists ev. split; [done|]. by apply Hz.
Qed.

Lemma exactly_one_in_tick w u :
  user_id u = uid ->
  (forall v, v ∈ users (db w) -> ZoneInfo_ok env (tz v) = true) ->
  users_sorted (db w) -> u ∈ users (db w) ->
  slot ∉ sends (db w) ->
  (forall w1, slot ∉ sends (db w1) ->
     exists ev, trace (tick_user env clock u w1).2 = (trace w1 ++ ev)%list /\
                deliveries ev = 1%nat /\ slot ∈ sends (db (tick_user env clock u w1).2)) ->
  exists new, trace (hourly_tick env clock w).2 = (trace w ++ new)%list /\
              deliveries new = 1%nat.
Proof.
  intros Eu Hz Hsorted Hu Hfree Hown.
  apply list_elem_of_split in Hu as (l1 & l2 & Hus).
  unfold users_sorted in Hsorted. rewrite Hus in Hsorted.
  apply (sorted_middle user_id) in Hsorted as [H1 H2]. rewrite Eu in H1, H2.
  rewrite Forall_forall in H1, H2.
  unfold hourly_tick.
  erewrite bind_ok by (rewrite closing_db_run by done; reflexivity).
  cbn [db tick_db]. rewrite Hus.
  destruct (others_leave_slot l1 (tick_db w)) as (w1 & ev1 & Hrun1 & Hf1 & _ & Ht1 & Hd1).
  { intros v Hv. split; [by apply H1|]. apply Hz. rewrite Hus.
    apply elem_of_app. by left. }
  { done. }
  rewrite (for_each_app_ok _ _ _ _ _ Hrun1). cbn [for_each]. unfold bind.
  destruct (Hown w1 Hf1) as (ev2 & Ht2 & Hd2 & Hin2).
  assert (Hzu : ZoneInfo_ok env (tz u) = true).
  { apply Hz. rewrite Hus. apply elem_of_app. right. by left. }
  rewrite tick_user_run in * by done. cbn [fst snd] in *.
  set (w2 := (do_tomorrow_prompt env u _ _).2) in *.
  destruct (served_slot_is_quiet l2 w2) as (ev3 & Ht3 & Hd3); [by apply H2|done|].
  exists (ev1 ++ ev2 ++ ev3)%list. split.
  - rewrite Ht3, Ht2, Ht1. cbn [trace tick_db]. by rewrite <- !app_assoc.
  - rewrite !occurrences_app. lia.
Qed.

End Delivery.

Section Delivered.

Context (env : Env) (clock : Clock).
Hypothesis Hdb : forall n, db_fails env n = false.
Hypothesis Hsend : forall n, send_fails env n = false.

Lemma own_prompt_is_delivered u w1 :
  let ln := truncate_hour (clock (tz u)) in
  ZoneInfo_ok env (tz u) = true ->
  dt_hour ln ∈ prompt_hours -> prompt_key u ln ∉ sends (db w1) ->
  exists ev, trace (tick_user env clock u w1).2 = (trace w1 ++ ev)%list /\
             occurrences (is_delivery (user_id u) "prompt") ev = 1%nat /\
             prompt_key u ln ∈ sends (db (tick_user env clock u w1).2).
Proof.
  intros ln Hz Hh Hfree. rewrite tick_user_run by done. fold ln. cbn [snd].
  rewrite do_daily_digest_off
    by (intros E; by apply (eight_not_prompt_hour _ E)).
  cbn [snd]. rewrite do_tomorrow_prompt_run by done. cbn [snd trace db mkWorld].
  eexists. split; [reflexivity|]. split.
  - unfold send_events. rewrite Hsend. unfold occurrences. cbn.
    by rewrite bool_decide_eq_true_2.
  - cbn. set_solver.
Qed.

Lemma own_digest_is_delivered u w1 :
  let ln := truncate_hour (clock (tz u)) in
  ZoneInfo_ok env (tz u) = true ->
  dt_hour ln = 8 -> digest_key u ln ∉ sends (db w1) ->
  exists ev, trace (tick_user env clock u w1).2 = (trace w1 ++ ev)%list /\
             occurrences (is_delivery (user_id u) "digest") ev = 1%nat /\
             digest_key u ln ∈ sends (db (tick_user env clock u w1).2).
Proof.
  intros ln Hz Hh Hfree. rewrite tick_user_run by done. fold ln.
  rewrite do_tomorrow_prompt_off by (by apply eight_not_prompt_hour).
  cbn [snd]. rewrite do_daily_digest_run by done. cbn [snd trace db mkWorld].
  set (w0 := tick_db (tick_db w1)).
  assert (Hfree0 : digest_key u ln ∉ sends (db w0)) by done.
  pose proof (digest_not_marked_by_carry env Hdb u ln w0 Hfree0) as Hfree'.
  destruct (carry_slot (user_id u) "digest" (dt_date ln) 8 env Hdb u ln w0)
    as (_ & _ & ev0 & Ht0 & _ & _ & _ & Hin0); [done|].
  assert (Hd0 : occurrences (is_delivery (user_id u) "digest") ev0 = 0%nat).
  { destruct (occurrences (is_delivery (user_id u) "digest") ev0) eqn:E; [done|].
    exfalso. apply Hfree', Hin0. lia. }
  rewrite Ht0. cbn [trace w0 tick_db].
  eexists. split; [by rewrite <- app_assoc|]. split.
  - rewrite !occurrences_app, Hd0. unfold send_events. rewrite Hsend.
    unfold occurrences. cbn [List.filter is_delivery List.length].
    rewrite kind_of_digest_text. by rewrite bool_decide_eq_true_2.
  - cbn. set_solver.
Qed.

(** X19. With the store and the notifier both working, every stored zone
    valid and the users table keyed by id, one tick delivers exactly one
    digest to a user whose local hour is 8 and whose digest row of the day
    is not yet in the ledger, and exactly one prompt to a user whose local
    hour is a prompt hour and whose prompt row of that hour is not yet in
    the ledger: the other users of the tick add no message of that kind to
    this chat. *)
Theorem due_user_gets_exactly_one_message w u :
  (forall v, v ∈ users (db w) -> ZoneInfo_ok env (tz v) = true) ->
  users_sorted (db w) -> u ∈ users (db w) ->
  let ln := truncate_hour (clock (tz u)) in
  exists new, trace (hourly_tick env clock w).2 = (trace w ++ new)%list /\
    (dt_hour ln = 8 -> digest_key u ln ∉ sends (db w) ->
       occurrences (is_delivery (user_id u) "digest") new = 1%nat) /\
    (dt_hour ln ∈ prompt_hours -> prompt_key u ln ∉ sends (db w) ->
       occurrences (is_delivery (user_id u) "prompt") new = 1%nat).
Proof.
  intros Hz Hsorted Hu ln.
  assert (Hzu : ZoneInfo_ok env (tz u) = true) by by apply Hz.
  assert (Hframe : users (db (hourly_tick env clock w).2) = users (db w) /\
                   tick_frame (users (db w)) w (hourly_tick env clock w).2).
  { apply (hourly_tick_keeps env clock (tick_frame (users (db w)) w) (users (db w)));
      [apply tick_frame_atoms|done|apply tick_frame_refl]. }
  destruct Hframe as (_ & _ & _ & _ & _ & new & Ht & _).
  exists new. split; [exact Ht|]. split; intros Hh Hfree.
  - destruct (exactly_one_in_tick env clock Hdb (user_id u) "digest" (dt_date ln) 8 w u)
      as (new' & Ht' & Hd'); try done.
    { intros w1 Hw1. by apply own_digest_is_delivered. }
    rewrite Ht in Ht'. apply app_inv_head in Ht'. by subst.
  - destruct (exactly_one_in_tick env clock Hdb (user_id u) "prompt" (dt_date ln)
                (dt_hour ln) w u) as (new' & Ht' & Hd'); try done.
    { intros w1 Hw1. by apply own_prompt_is_delivered. }
    rewrite Ht in Ht'. apply app_inv_head in Ht'. by subst.
Qed.

End Delivered.

Lemma due_user_gets_exactly_one_message_witness :
  let clock := fun z => if String.eqb z "Asia/Kathmandu"
                        then truncate_hour (at_hour 101 8 z)
                        else truncate_hour (at_hour 100 22 z) in
  let new := trace (hourly_tick env_ok clock world_two_users).2 in
  occurrences (is_delivery 7 "digest") new = 1%nat /\
  occurrences (is_delivery 9 "prompt") new = 1%nat.
Proof.
  intros clock new.
  assert (Hs : users_sorted (db world_two_users)).
  { unfold users_sorted. cbn. repeat constructor. }
  split.
  - destruct (due_user_gets_exactly_one_message env_ok clock (fun _ => eq_refl)
                (fun _ => eq_refl) world_two_users user7 (fun _ _ => eq_refl) Hs)
      as (ev & Ht & Hd & _); [by left|].
    unfold new. rewrite Ht. apply Hd; [reflexivity|]. cbn. set_solver.
  - destruct (due_user_gets_exactly_one_message env_ok clock (fun _ => eq_refl)
                (fun _ => eq_refl) world_two_users user9 (fun _ _ => eq_refl) Hs)
      as (ev & Ht & _ & Hp); [by right; left|].
    unfold new. rewrite Ht. apply Hp; [|cbn; set_solver].
    apply list_elem_of_In. simpl. tauto.
Defined.

(** ** The printed id goes back into [/done] *)

(** A numeral printed by [str] is ASCII: each byte is a character. *)
Lemma chars_ascii_cons c s :
  starts_cont s = false -> chars (String c s) = String c "" :: chars s.
Proof.
  intros H. rewrite chars_cons. pose proof (chars_head s) as Hh. rewrite H in Hh.
  destruct (chars s) as [|g gs]; [done|]. cbn [List.hd] in Hh. by rewrite Hh.
Qed.

Lemma uint_not_cont d : starts_cont (NilEmpty.string_of_uint d) = false.
Proof. by destruct d. Qed.

Ltac digit_step :=
  cbn [NilEmpty.string_of_uint]; rewrite chars_ascii_cons by apply uint_not_cont.

Ltac digit_value :=
  match goal with
  | |- match numeric_of ?env ?ch with _ => _ end = _ =>
      let v := eval vm_compute in (Z.of_N (code_point ch) - 48) in
      change (numeric_of env ch) with (DecimalDigit v)
  end; cbv beta iota.

(** Horner value of a decimal numeral, as [int] reads its characters. *)
Lemma int_go_uint env d acc :
  int_go env (chars (NilEmpty.string_of_uint d)) (Z.pos acc)
  = Some (Z.pos (Pos.of_uint_acc d acc)).
Proof.
  revert acc. induction d; intros acc; [done|..]; digit_step;
    cbn [int_go Pos.of_uint_acc];
    digit_value;
    match goal with
    | |- int_go _ _ ?a = Some (Z.pos (Pos.of_uint_acc _ ?b)) =>
        replace a with (Z.pos b) by lia; apply IHd
    end.
Qed.

Lemma int_go_uint_zero env d :
  int_go env (chars (NilEmpty.string_of_uint d)) 0 = Some (Z.of_N (Pos.of_uint d)).
Proof.
  induction d; [done|..]; digit_step; cbn [int_go Pos.of_uint];
    digit_value; [exact IHd|..];
    match goal with
    | |- int_go _ _ ?a = Some (Z.of_N (N.pos (Pos.of_uint_acc _ ?b))) =>
        replace a with (Z.pos b) by lia; apply int_go_uint
    end.
Qed.

Lemma all_digits_uint env d :
  forallb (is_digit_char env) (chars (NilEmpty.string_of_uint d)) = true.
Proof.
  induction d; [done|..]; digit_step; cbn [forallb]; rewrite IHd; reflexivity.
Qed.

Lemma str_pos p : str (Z.pos p) = NilEmpty.string_of_uint (Pos.to_uint p).
Proof.
  unfold str. cbn [Z.to_int NilZero.string_of_int NilZero.string_of_uint].
  pose proof (DecimalPos.Unsigned.of_to p) as H.
  destruct (Pos.to_uint p); [discriminate H|done..].
Qed.

Lemma int_str env n : 0 <= n -> int env (str n) = Some n.
Proof.
  intros Hn. destruct n as [|p|p]; [done| |lia].
  rewrite str_pos. unfold int. rewrite int_go_uint_zero.
  by rewrite DecimalPos.Unsigned.of_to.
Qed.

Lemma isdigit_str env n : 0 <= n -> isdigit env (str n) = true.
Proof.
  intros Hn. destruct n as [|p|p]; [done| |lia].
  rewrite str_pos. unfold isdigit. rewrite all_digits_uint.
  pose proof (DecimalPos.Unsigned.of_to p) as H.
  destruct (Pos.to_uint p); [discriminate H|done..].
Qed.

Lemma append_assoc (a b c : string) : (a ++ b) ++ c = a ++ (b ++ c).
Proof.
  induction a as [|x a IH]; [done|].
  change (String x ((a ++ b) ++ c) = String x (a ++ (b ++ c))). by f_equal.
Qed.

(** X20. The id that [fmt_task] prints at the end of a line is the argument
    [/done] wants: for a row whose id is a non-negative SQLite integer the
    line ends in " (#<id>)", the printed id is all digits and [int] reads
    the same id back, so [/done <id>] (store answering) replies and sets to
    done the rows with this id, the printed row among them, and no other. *)
Theorem shown_id_marks_the_task env x t w :
  (forall n, db_fails env n = false) ->
  0 <= t_id t < 2 ^ 63 ->
  let arg := str (t_id t) in
  let r := cmd_done env x (Some arg) w in
  (exists line, fmt_task t = line ++ " (#" ++ arg ++ ")") /\
  isdigit env arg = true /\ int env arg = Some (t_id t) /\
  r.1 = Ok tt /\
  trace r.2 = (trace w ++ [EvReply x done_reply])%list /\
  tasks (db r.2) = List.map (set_done (t_id t)) (tasks (db w)) /\
  (t ∈ tasks (db w) -> set_done (t_id t) t ∈ tasks (db r.2)) /\
  t_status (set_done (t_id t) t) = "done".
Proof.
  intros Hdb [Hid Hmax] arg r.
  assert (Hrun := cmd_done_run env x arg (t_id t) w Hdb
                    (isdigit_str env _ Hid) (int_str env _ Hid) Hmax).
  split.
  { unfold fmt_task. fold arg.
    set (status := if String.eqb (t_status t) "done" then _ else _).
    set (pr := if String.eqb (t_priority t) "low" then _ else _).
    set (due := if truthy (t_due_time t) then _ else _).
    set (tags := if is_empty (t_tags t) then _ else _).
    exists (status ++ " " ++ pr ++ " " ++ t_title t ++ due ++ tags).
    by rewrite !append_assoc. }
  split; [by apply isdigit_str|]. split; [by apply int_str|].
  unfold r. rewrite Hrun. cbn [fst snd db mkWorld trace update_done with_tasks tasks].
  split_and!; try done.
  - intros Hin. apply list_elem_of_fmap. by exists t.
  - unfold set_done. by rewrite bool_decide_eq_true_2.
Qed.

Lemma shown_id_marks_the_task_witness :
  let r := cmd_done env_ok 9 (Some (str (t_id task_milk))) world_morning in
  str (t_id task_milk) = "1" /\
  set_done 1 task_milk ∈ tasks (db r.2).
Proof.
  intros r. split; [reflexivity|].
  destruct (shown_id_marks_the_task env_ok 9 task_milk world_morning
              (fun _ => eq_refl)) as (_ & _ & _ & _ & _ & _ & H & _).
  - cbn. lia.
  - apply H. cbn. left.
Defined.

(** ** Where a new task shows up *)

Lemma tasks_on_snoc uid day l (r : Task) d :
  tasks d = (l ++ [r])%list ->
  tasks_on uid day d
  = (filter (fun t => t_user_id t = uid /\ t_day t = day) l
     ++ (if bool_decide (t_user_id r = uid /\ t_day r = day) then [r] else []))%list.
Proof.
  intros E. unfold tasks_on. rewrite E, filter_app. f_equal.
  case_bool_decide.
  - by rewrite filter_cons_True.
  - by rewrite filter_cons_False.
Qed.

(** X21. A task queued with [/tomorrow] waits a day: for every user and day
    the rows a listing selects are the former ones, plus the new open row
    only for the sender and the day after the sender's local today, so
    today's [/list] does not show it; a task stored with [/add] joins the
    sender's rows of today and no other selection (store answering, title
    present, stored zone valid). *)
Theorem queued_task_waits_a_day env clock uid args w :
  (forall n, db_fails env n = false) ->
  truthy args = true ->
  let p := parse_task_args args in
  is_empty (parsed_title p) = false ->
  ZoneInfo_ok env (tz (user_row env uid (db w))) = true ->
  let today := dt_date (clock (tz (user_row env uid (db w)))) in
  let row d :=
    {| t_id := next_rowid (db w); t_user_id := uid; t_title := parsed_title p;
       t_day := d; t_due_time := parsed_due_time p;
       t_priority := parsed_priority p; t_tags := parsed_tags p;
       t_status := "open" |} in
  forall u day,
    tasks_on u day (db (cmd_tomorrow env clock uid args w).2)
    = (tasks_on u day (db w)
       ++ (if bool_decide (u = uid /\ day = today + 1) then [row (today + 1)] else []))%list /\
    tasks_on u day (db (cmd_add env clock uid args w).2)
    = (tasks_on u day (db w)
       ++ (if bool_decide (u = uid /\ day = today) then [row today] else []))%list.
Proof.
  intros Hdb Hargs p Htitle Hz today row u day.
  destruct (add_appends_row env clock Hdb uid args w 0 Hargs Htitle Hz) as [Ha Ht].
  fold p today in Ha, Ht. split.
  - rewrite (tasks_on_snoc u day _ _ _ Ht). cbn [t_user_id t_day]. unfold tasks_on.
    f_equal. repeat case_bool_decide; naive_solver.
  - rewrite (tasks_on_snoc u day _ _ _ Ha). cbn [t_user_id t_day]. unfold tasks_on.
    f_equal. repeat case_bool_decide; naive_solver.
Qed.

Lemma queued_task_waits_a_day_witness :
  let w' := (cmd_tomorrow env_ok (at_hour 100 9) 7 (Some "Gym @07:00") world_morning).2 in
  tasks_on 7 100 (db w') = tasks_on 7 100 (db world_morning) /\
  List.length (tasks_on 7 101 (db w'))
  = S (List.length (tasks_on 7 101 (db world_morning))).
Proof.
  intros w'.
  pose proof (queued_task_waits_a_day env_ok (at_hour 100 9) 7 (Some "Gym @07:00")
                world_morning (fun _ => eq_refl) eq_refl eq_refl eq_refl) as H.
  split.
  - destruct (H 7 100) as [E _]. unfold w'. rewrite E. reflexivity.
  - destruct (H 7 101) as [E _]. unfold w'. rewrite E. reflexivity.
Defined.

(** ** Digits that are no decimal digits *)

(** X22. [/done] with a text that [str.isdigit] accepts but [int] cannot
    read (it holds a digit without a decimal value, a superscript two for
    one) ends in [ValueError] before the database is opened: nothing is
    updated and no reply is sent. *)
Theorem done_with_an_unreadable_digit_raises env x args w :
  isdigit env args = true -> int env args = None ->
  cmd_done env x (Some args) w = (Raise ValueError, w).
Proof.
  intros Hdig Hint. unfold cmd_done.
  rewrite (isdigit_truthy _ _ Hdig). cbn [or_empty].
  rewrite Hdig, Hint. reflexivity.
Qed.

Lemma done_with_an_unreadable_digit_raises_witness :
  isdigit env_ok "²" = true /\ int env_ok "²" = None /\
  cmd_done env_ok 9 (Some "²") world_morning = (Raise ValueError, world_morning) /\
  isdigit env_ok "٣" = true /\ int env_ok "٣" = Some 3.
Proof.
  split; [reflexivity|]. split; [reflexivity|]. split; [|by split].
  by apply (done_with_an_unreadable_digit_raises env_ok 9 "²" world_morning).
Defined.
